(** * SharedResource operator: the reconciliation core, embedded and verified

    A shallow embedding of [internal/controller] (helpers.go, sync.go,
    sharedresource_controller.go) and of the API types of [api/v1alpha1].

    - Go maps ([map[string][]byte], annotations) are [gmap]s; a [nil] map and
      an empty map are both [∅] (the code only reads, ranges over and, after
      [make], writes them, which does not tell them apart).
    - Go [string]s are [string]s, [[]byte] is [list byte]; the conversions
      [[]byte(s)] and [string(b)] are [list_byte_of_string] and
      [string_of_list_byte].
    - The API server behind [client.Client] is an in-memory object store;
      every call is logged, and a fault plan decides which calls fail with a
      transient error.  Reconciler methods are written in a state monad over
      that store, errors are values as in Go. *)

From Stdlib Require Import ZArith Lia Strings.Byte Strings.Ascii.
From Stdlib Require Strings.String.
From stdpp Require Import gmap strings list sorting.

Local Open Scope Z_scope.
#[local] Set Warnings "-clear-no-such-hyp".

(** ** crypto/sha256 and encoding/hex

    Both belong to the Go standard library; they are written out here
    (FIPS 180-4) so that checksums can be evaluated. *)
Module SHA256.

Definition w32 (x : Z) : Z := x mod 2 ^ 32.
Definition add32 (x y : Z) : Z := w32 (x + y).
Definition not32 (x : Z) : Z := Z.lxor x 4294967295.
Definition rotr (n x : Z) : Z :=
  Z.lor (Z.shiftr x n) (w32 (Z.shiftl x (32 - n))).

Definition Ch (x y z : Z) : Z := Z.lxor (Z.land x y) (Z.land (not32 x) z).
Definition Maj (x y z : Z) : Z :=
  Z.lxor (Z.lxor (Z.land x y) (Z.land x z)) (Z.land y z).
Definition Sigma0 (x : Z) : Z := Z.lxor (Z.lxor (rotr 2 x) (rotr 13 x)) (rotr 22 x).
Definition Sigma1 (x : Z) : Z := Z.lxor (Z.lxor (rotr 6 x) (rotr 11 x)) (rotr 25 x).
Definition sigma0 (x : Z) : Z := Z.lxor (Z.lxor (rotr 7 x) (rotr 18 x)) (Z.shiftr x 3).
Definition sigma1 (x : Z) : Z := Z.lxor (Z.lxor (rotr 17 x) (rotr 19 x)) (Z.shiftr x 10).

(** The round constants are the first 32 bits of the fractional parts of
    the cube roots of the first 64 primes, the initial hash value those of
    the square roots of the first 8. *)
Definition primes : list Z :=
  [ 2; 3; 5; 7; 11; 13; 17; 19; 23; 29; 31; 37; 41; 43; 47; 53; 59; 61; 67; 71;
    73; 79; 83; 89; 97; 101; 103; 107; 109; 113; 127; 131; 137; 139; 149; 151;
    157; 163; 167; 173; 179; 181; 191; 193; 197; 199; 211; 223; 227; 229; 233;
    239; 241; 251; 257; 263; 269; 271; 277; 281; 283; 293; 307; 311 ].

(** The largest [r] below [2 ^ bits] with [r ^ 3 <= n], bit by bit. *)
Fixpoint cbrt (bits : nat) (n r : Z) : Z :=
  match bits with
  | O => r
  | S b =>
      let r' := r + 2 ^ Z.of_nat b in
      cbrt b n (if r' * r' * r' <=? n then r' else r)
  end.

Definition K : list Z := map (fun p => w32 (cbrt 36 (p * 2 ^ 96) 0)) primes.

Definition H0 : list Z := map (fun p => w32 (Z.sqrt (p * 2 ^ 64))) (firstn 8 primes).

(** Message padding: 0x80, zeros up to 56 mod 64, the bit length on 8 bytes. *)
Definition be_bytes (n : nat) (x : Z) : list Z :=
  map (fun i => (Z.shiftr x (8 * Z.of_nat i)) mod 256) (rev (seq 0 n)).

Definition pad (msg : list Z) : list Z :=
  let len := Z.of_nat (length msg) in
  let zeros := Z.to_nat ((55 - len) mod 64) in
  msg ++ 128 :: repeat 0 zeros ++ be_bytes 8 (8 * len).

Fixpoint be_words (n : nat) (bs : list Z) : list Z :=
  match n, bs with
  | S n', b0 :: b1 :: b2 :: b3 :: bs' =>
      (((b0 * 256 + b1) * 256 + b2) * 256 + b3) :: be_words n' bs'
  | _, _ => []
  end.

Definition nthw (l : list Z) (i : nat) : Z := nth i l 0.

(** One round on the working variables [a..h] and the 16-word window of
    the message schedule whose head is [W_t]. *)
Definition round (st : list Z * list Z) (k : Z) : list Z * list Z :=
  let '(v, w) := st in
  let a := nthw v 0 in let b := nthw v 1 in let c := nthw v 2 in
  let d := nthw v 3 in let e := nthw v 4 in let f := nthw v 5 in
  let g := nthw v 6 in let h := nthw v 7 in
  let wt := nthw w 0 in
  let t1 := add32 (add32 (add32 (add32 h (Sigma1 e)) (Ch e f g)) k) wt in
  let t2 := add32 (Sigma0 a) (Maj a b c) in
  let wnew := add32 (add32 (add32 (sigma1 (nthw w 14)) (nthw w 9))
                           (sigma0 (nthw w 1))) (nthw w 0) in
  ([add32 t1 t2; a; b; c; add32 d t1; e; f; g], tl w ++ [wnew]).

Definition compress (h : list Z) (block : list Z) : list Z :=
  let '(v, _) := fold_left round K (h, be_words 16 block) in
  map (fun p => add32 (fst p) (snd p)) (combine h v).

Fixpoint blocks (n : nat) (h : list Z) (bs : list Z) : list Z :=
  match n with
  | O => h
  | S n' => blocks n' (compress h (firstn 64 bs)) (skipn 64 bs)
  end.

Definition byte_of_Z (z : Z) : byte :=
  match Byte.of_N (Z.to_N (z mod 256)) with Some b => b | None => x00 end.
Definition Z_of_byte (b : byte) : Z := Z.of_N (Byte.to_N b).

(** [sha256.Sum256]: 32 bytes. *)
Definition sum (msg : list byte) : list byte :=
  let p := pad (map Z_of_byte msg) in
  let h := blocks (length p / 64)%nat H0 p in
  map byte_of_Z (concat (map (be_bytes 4) h)).

End SHA256.

Module Hex.

Definition digit (n : Z) : ascii :=
  nth (Z.to_nat n)
      ["0";"1";"2";"3";"4";"5";"6";"7";"8";"9";"a";"b";"c";"d";"e";"f"]%char
      "0"%char.

(** [hex.EncodeToString]. *)
Fixpoint EncodeToString (bs : list byte) : string :=
  match bs with
  | [] => EmptyString
  | b :: bs' =>
      let z := SHA256.Z_of_byte b in
      String (digit (z / 16)) (String (digit (z mod 16)) (EncodeToString bs'))
  end.

End Hex.

(** ** api/v1alpha1: the SharedResource types *)

Abbreviation Time := Z (only parsing).          (* metav1.Time, Unix seconds *)
Abbreviation Bundle := (gmap string (list byte)) (only parsing).
Abbreviation NamespacedName := (string * string)%type (only parsing).

Definition KindSecret : string := "Secret".
Definition KindConfigMap : string := "ConfigMap".

Definition SyncModeCopy : string := "copy".
Definition SyncModeSelective : string := "selective".
Definition SyncModeMerge : string := "merge".

Definition DeletionPolicyOrphan : string := "orphan".
Definition DeletionPolicyDelete : string := "delete".

Record SourceSpec := { src_Kind : string; src_Name : string }.
Record TargetSpec := { tgt_Namespace : string; tgt_Name : string }.
Record KeySelector := { Include : list string; Exclude : list string }.
Record SyncPolicySpec := { Mode : string; Keys : option KeySelector }.

Record SharedResourceSpec := {
  Source : SourceSpec;
  Targets : list TargetSpec;
  SyncPolicy : option SyncPolicySpec;
  DeletionPolicy : string }.

(** metav1.ConditionStatus: a string type with these three values. *)
Inductive ConditionStatus := ConditionTrue | ConditionFalse | ConditionUnknown.

(** metav1.Condition *)
Record Condition := {
  cond_Type : string;
  cond_Status : ConditionStatus;
  cond_ObservedGeneration : Z;
  cond_LastTransitionTime : Time;
  cond_Reason : string;
  cond_Message : string }.

Record TargetSyncStatus := {
  tss_Namespace : string;
  tss_Name : string;
  tss_Synced : bool;
  tss_LastSynced : Time;
  tss_Error : string }.

Record SharedResourceStatus := {
  Conditions : list Condition;
  SyncedTargets : list TargetSyncStatus;
  LastSyncTime : option Time;
  SourceChecksum : string }.

Record SharedResource := {
  sr_Namespace : string;
  sr_Name : string;
  sr_DeletionTimestamp : option Time;
  sr_Finalizers : list string;
  sr_Spec : SharedResourceSpec;
  sr_Status : SharedResourceStatus }.

Global Instance ConditionStatus_eq_dec : EqDecision ConditionStatus.
Proof. solve_decision. Defined.

(** ** constants.go *)

Definition FinalizerName : string := "sharedresource.platform.dev/finalizer".
Definition AnnotationManagedBy : string := "sharedresource.platform.dev/managed-by".
Definition AnnotationSourceNamespace : string := "sharedresource.platform.dev/source-namespace".
Definition AnnotationSourceName : string := "sharedresource.platform.dev/source-name".
Definition AnnotationSourceCR : string := "sharedresource.platform.dev/source-cr".
Definition AnnotationChecksum : string := "sharedresource.platform.dev/checksum".
Definition AnnotationLastSynced : string := "sharedresource.platform.dev/last-synced".
Definition ManagedByValue : string := "sharedresource-operator".
Definition ConditionTypeReady : string := "Ready".
Definition ConditionTypeSourceFound : string := "SourceFound".

(** ** helpers.go *)

(** [for k, v := range m]: the pairs of [m] in some order.  Go leaves the
    order unspecified; wherever it could matter the order is a parameter. *)
Definition rangeMap {V} (m : gmap string V) : list (string * V) := map_to_list m.

(** [sort.Strings]: ascending byte-wise order.  Strings are totally ordered,
    so every sorting algorithm returns this list. *)
Definition sortStrings (keys : list string) : list string :=
  merge_sort String.le keys.

(** The bytes one key contributes: [h.Write] of the key, "=", [data[k]] and
    a newline; a missing key reads as the empty slice. *)
Definition keyLine (data : Bundle) (k : string) : list byte :=
  String.list_byte_of_string k ++ [x3d] ++ default [] (data !! k) ++ [x0a].

(** Everything written to the hash, for the keys collected in the order
    [collected]. *)
Definition checksumInputFrom (collected : list string) (data : Bundle) : list byte :=
  mjoin (keyLine data <$> sortStrings collected).

Definition computeChecksumFrom (collected : list string) (data : Bundle) : string :=
  Hex.EncodeToString (SHA256.sum (checksumInputFrom collected data)).

Definition checksumInput (data : Bundle) : list byte :=
  checksumInputFrom (rangeMap data).*1 data.

Definition computeChecksum (data : Bundle) : string :=
  computeChecksumFrom (rangeMap data).*1 data.

(** [for k, v := range src { dst[k] = v }] *)
Definition copyInto {V} (src dst : gmap string V) : gmap string V :=
  foldl (fun m kv => <[kv.1 := kv.2]> m) dst (rangeMap src).

Definition filterData (data : Bundle) (policy : option SyncPolicySpec) : Bundle :=
  match policy with
  | None => data
  | Some p =>
      if decide (Mode p = "" ∨ Mode p = SyncModeCopy) then data
      else match Keys p with
           | None => data
           | Some ks =>
               let filtered : Bundle :=
                 if decide (0 < length (Include ks))%nat then
                   foldl (fun f key =>
                            match data !! key with
                            | Some val => <[key := val]> f
                            | None => f
                            end) ∅ (Include ks)
                 else copyInto data ∅ in
               foldl (fun f key => delete key f) filtered (Exclude ks)
           end
  end.

Definition newCondition (now : Time) (condType : string)
    (status : ConditionStatus) (reason message : string) : Condition :=
  {| cond_Type := condType; cond_Status := status; cond_ObservedGeneration := 0;
     cond_LastTransitionTime := now; cond_Reason := reason;
     cond_Message := message |}.

Definition withReasonMessage (c : Condition) (reason message : string) : Condition :=
  {| cond_Type := cond_Type c; cond_Status := cond_Status c;
     cond_ObservedGeneration := cond_ObservedGeneration c;
     cond_LastTransitionTime := cond_LastTransitionTime c;
     cond_Reason := reason; cond_Message := message |}.

(** The loop of [setCondition]: [Some] of the updated slice when an entry of
    type [condType] was found (the function returns there), [None] when the
    loop runs to its end. *)
Fixpoint setConditionLoop (conds : list Condition) (condition : Condition)
    : option (list Condition) :=
  match conds with
  | [] => None
  | existing :: rest =>
      if decide (cond_Type existing = cond_Type condition) then
        if decide (cond_Status existing ≠ cond_Status condition) then
          Some (condition :: rest)
        else
          Some (withReasonMessage existing (cond_Reason condition)
                                  (cond_Message condition) :: rest)
      else cons existing <$> setConditionLoop rest condition
  end.

Definition setConditions (now : Time) (conds : list Condition) (condType : string)
    (status : ConditionStatus) (reason message : string) : list Condition :=
  let condition := newCondition now condType status reason message in
  match setConditionLoop conds condition with
  | Some conds' => conds'
  | None => conds ++ [condition]
  end.

Definition withConditions (sr : SharedResource) (cs : list Condition) : SharedResource :=
  {| sr_Namespace := sr_Namespace sr; sr_Name := sr_Name sr;
     sr_DeletionTimestamp := sr_DeletionTimestamp sr;
     sr_Finalizers := sr_Finalizers sr; sr_Spec := sr_Spec sr;
     sr_Status := {| Conditions := cs;
                     SyncedTargets := SyncedTargets (sr_Status sr);
                     LastSyncTime := LastSyncTime (sr_Status sr);
                     SourceChecksum := SourceChecksum (sr_Status sr) |} |}.

(** [setCondition]; [now] is the value of its [metav1.Now()]. *)
Definition setCondition (now : Time) (sr : SharedResource) (condType : string)
    (status : ConditionStatus) (reason message : string) : SharedResource :=
  withConditions sr
    (setConditions now (Conditions (sr_Status sr)) condType status reason message).

(** ** The object store behind [client.Client] *)

Record Secret := {
  sec_Namespace : string;
  sec_Name : string;
  sec_Annotations : gmap string string;
  sec_Type : string;
  sec_Data : gmap string (list byte) }.

Record ConfigMap := {
  cm_Namespace : string;
  cm_Name : string;
  cm_Annotations : gmap string string;
  cm_Data : gmap string string }.

(** Failures injected by the environment.  [NotFound] and [AlreadyExists]
    are not among them: those are decided by what the store holds. *)
Inductive Fault := Conflict | Timeout | Unavailable | Forbidden.

Inductive error :=
  | ErrNotFound (what : string)
  | ErrAlreadyExists (what : string)
  | ErrFault (f : Fault)
  | Errorf (msg : string).

(** apierrors.IsNotFound *)
Definition IsNotFound (err : error) : bool :=
  match err with ErrNotFound _ => true | _ => false end.

(** err.Error() *)
Definition Error (err : error) : string :=
  match err with
  | ErrNotFound what => what +:+ " not found"
  | ErrAlreadyExists what => what +:+ " already exists"
  | ErrFault Conflict => "the object has been modified"
  | ErrFault Timeout => "context deadline exceeded"
  | ErrFault Unavailable => "the server is currently unable to handle the request"
  | ErrFault Forbidden => "forbidden"
  | Errorf msg => msg
  end.

Inductive Call :=
  | CallGetSecret (key : NamespacedName)
  | CallCreateSecret (obj : Secret)
  | CallUpdateSecret (obj : Secret)
  | CallDeleteSecret (key : NamespacedName)
  | CallGetConfigMap (key : NamespacedName)
  | CallCreateConfigMap (obj : ConfigMap)
  | CallUpdateConfigMap (obj : ConfigMap)
  | CallDeleteConfigMap (key : NamespacedName)
  | CallGetSharedResource (key : NamespacedName)
  | CallListSharedResources (namespace : string)
  | CallUpdateSharedResource (obj : SharedResource)
  | CallUpdateStatus (obj : SharedResource).

Definition isWrite (c : Call) : bool :=
  match c with
  | CallGetSecret _ | CallGetConfigMap _ | CallGetSharedResource _
  | CallListSharedResources _ => false
  | _ => true
  end.

(** The cluster as one reconciler sees it: the three object kinds, the log
    of the API calls issued so far, the faults the environment will inject
    (by call number) and the readings of the clock (by reading number). *)
Record World := {
  secrets : gmap NamespacedName Secret;
  configMaps : gmap NamespacedName ConfigMap;
  sharedResources : gmap NamespacedName SharedResource;
  calls : list Call;
  faults : nat → option Fault;
  clock : nat → Time;
  clockReads : nat }.

Definition writes (w : World) : list Call := filter (fun c => isWrite c = true) (calls w).

Definition M (A : Type) : Type := World → A * World.

Global Instance M_ret : MRet M := fun A (x : A) w => (x, w).
Global Instance M_bind : MBind M := fun A B (f : A → M B) (m : M A) w =>
  let '(x, w') := m w in f x w'.

(** Updates of one component of the world. *)
Definition tick (w : World) : World :=
  {| secrets := secrets w; configMaps := configMaps w;
     sharedResources := sharedResources w; calls := calls w;
     faults := faults w; clock := clock w; clockReads := S (clockReads w) |}.

Definition logCall (c : Call) (w : World) : World :=
  {| secrets := secrets w; configMaps := configMaps w;
     sharedResources := sharedResources w; calls := calls w ++ [c];
     faults := faults w; clock := clock w; clockReads := clockReads w |}.

Definition mapSecrets (f : gmap NamespacedName Secret → gmap NamespacedName Secret)
    (w : World) : World :=
  {| secrets := f (secrets w); configMaps := configMaps w;
     sharedResources := sharedResources w; calls := calls w;
     faults := faults w; clock := clock w; clockReads := clockReads w |}.

Definition mapConfigMaps
    (f : gmap NamespacedName ConfigMap → gmap NamespacedName ConfigMap)
    (w : World) : World :=
  {| secrets := secrets w; configMaps := f (configMaps w);
     sharedResources := sharedResources w; calls := calls w;
     faults := faults w; clock := clock w; clockReads := clockReads w |}.

Definition mapSharedResources
    (f : gmap NamespacedName SharedResource → gmap NamespacedName SharedResource)
    (w : World) : World :=
  {| secrets := secrets w; configMaps := configMaps w;
     sharedResources := f (sharedResources w); calls := calls w;
     faults := faults w; clock := clock w; clockReads := clockReads w |}.

(** metav1.Now() / time.Now() *)
Definition Now : M Time := fun w => (clock w (clockReads w), tick w).

(** Log the call; answer with the fault planned for it, if any. *)
Definition issue (c : Call) : M (option error) := fun w =>
  (ErrFault <$> faults w (length (calls w)), logCall c w).

Definition setSecrets (f : gmap NamespacedName Secret → gmap NamespacedName Secret) : M () :=
  fun w => ((), mapSecrets f w).

Definition setConfigMaps
    (f : gmap NamespacedName ConfigMap → gmap NamespacedName ConfigMap) : M () :=
  fun w => ((), mapConfigMaps f w).

Definition setSharedResources
    (f : gmap NamespacedName SharedResource → gmap NamespacedName SharedResource) : M () :=
  fun w => ((), mapSharedResources f w).

Definition world : M World := fun w => (w, w).

Definition secretKey (s : Secret) : NamespacedName := (sec_Namespace s, sec_Name s).
Definition configMapKey (c : ConfigMap) : NamespacedName := (cm_Namespace c, cm_Name c).
Definition sharedResourceKey (sr : SharedResource) : NamespacedName :=
  (sr_Namespace sr, sr_Name sr).

Definition describe (kind : string) (key : NamespacedName) : string :=
  kind +:+ " " +:+ key.1 +:+ "/" +:+ key.2.

Definition GetSecret (key : NamespacedName) : M (error + Secret) :=
  f ← issue (CallGetSecret key);
  match f with
  | Some err => mret (inl err)
  | None =>
      w ← world;
      mret (match secrets w !! key with
            | Some s => inr s
            | None => inl (ErrNotFound (describe "secrets" key))
            end)
  end.

Definition CreateSecret (obj : Secret) : M (option error) :=
  f ← issue (CallCreateSecret obj);
  match f with
  | Some err => mret (Some err)
  | None =>
      w ← world;
      match secrets w !! secretKey obj with
      | Some _ => mret (Some (ErrAlreadyExists (describe "secrets" (secretKey obj))))
      | None => _ ← setSecrets (insert (secretKey obj) obj); mret None
      end
  end.

Definition UpdateSecret (obj : Secret) : M (option error) :=
  f ← issue (CallUpdateSecret obj);
  match f with
  | Some err => mret (Some err)
  | None =>
      w ← world;
      match secrets w !! secretKey obj with
      | None => mret (Some (ErrNotFound (describe "secrets" (secretKey obj))))
      | Some _ => _ ← setSecrets (insert (secretKey obj) obj); mret None
      end
  end.

Definition DeleteSecret (obj : Secret) : M (option error) :=
  f ← issue (CallDeleteSecret (secretKey obj));
  match f with
  | Some err => mret (Some err)
  | None =>
      w ← world;
      match secrets w !! secretKey obj with
      | None => mret (Some (ErrNotFound (describe "secrets" (secretKey obj))))
      | Some _ => _ ← setSecrets (delete (secretKey obj)); mret None
      end
  end.

Definition GetConfigMap (key : NamespacedName) : M (error + ConfigMap) :=
  f ← issue (CallGetConfigMap key);
  match f with
  | Some err => mret (inl err)
  | None =>
      w ← world;
      mret (match configMaps w !! key with
            | Some c => inr c
            | None => inl (ErrNotFound (describe "configmaps" key))
            end)
  end.

Definition CreateConfigMap (obj : ConfigMap) : M (option error) :=
  f ← issue (CallCreateConfigMap obj);
  match f with
  | Some err => mret (Some err)
  | None =>
      w ← world;
      match configMaps w !! configMapKey obj with
      | Some _ => mret (Some (ErrAlreadyExists (describe "configmaps" (configMapKey obj))))
      | None => _ ← setConfigMaps (insert (configMapKey obj) obj); mret None
      end
  end.

Definition UpdateConfigMap (obj : ConfigMap) : M (option error) :=
  f ← issue (CallUpdateConfigMap obj);
  match f with
  | Some err => mret (Some err)
  | None =>
      w ← world;
      match configMaps w !! configMapKey obj with
      | None => mret (Some (ErrNotFound (describe "configmaps" (configMapKey obj))))
      | Some _ => _ ← setConfigMaps (insert (configMapKey obj) obj); mret None
      end
  end.

Definition DeleteConfigMap (obj : ConfigMap) : M (option error) :=
  f ← issue (CallDeleteConfigMap (configMapKey obj));
  match f with
  | Some err => mret (Some err)
  | None =>
      w ← world;
      match configMaps w !! configMapKey obj with
      | None => mret (Some (ErrNotFound (describe "configmaps" (configMapKey obj))))
      | Some _ => _ ← setConfigMaps (delete (configMapKey obj)); mret None
      end
  end.

Definition GetSharedResource (key : NamespacedName) : M (error + SharedResource) :=
  f ← issue (CallGetSharedResource key);
  match f with
  | Some err => mret (inl err)
  | None =>
      w ← world;
      mret (match sharedResources w !! key with
            | Some sr => inr sr
            | None => inl (ErrNotFound (describe "sharedresources" key))
            end)
  end.

(** [r.List(ctx, &list, client.InNamespace(namespace))] *)
Definition ListSharedResources (namespace : string) : M (error + list SharedResource) :=
  f ← issue (CallListSharedResources namespace);
  match f with
  | Some err => mret (inl err)
  | None =>
      w ← world;
      mret (inr (filter (fun sr => sr_Namespace sr = namespace)
                        (map_to_list (sharedResources w)).*2))
  end.

(** [r.Update] of a SharedResource.  The status is a subresource and is not
    written by this call; an object under deletion whose last finalizer is
    gone is removed by the store. *)
Definition storeSharedResource (obj old : SharedResource)
    (m : gmap NamespacedName SharedResource) : gmap NamespacedName SharedResource :=
  match sr_DeletionTimestamp obj, sr_Finalizers obj with
  | Some _, [] => delete (sharedResourceKey obj) m
  | _, _ =>
      <[sharedResourceKey obj :=
          {| sr_Namespace := sr_Namespace obj; sr_Name := sr_Name obj;
             sr_DeletionTimestamp := sr_DeletionTimestamp obj;
             sr_Finalizers := sr_Finalizers obj; sr_Spec := sr_Spec obj;
             sr_Status := sr_Status old |}]> m
  end.

Definition UpdateSharedResource (obj : SharedResource) : M (option error) :=
  f ← issue (CallUpdateSharedResource obj);
  match f with
  | Some err => mret (Some err)
  | None =>
      w ← world;
      match sharedResources w !! sharedResourceKey obj with
      | None => mret (Some (ErrNotFound (describe "sharedresources" (sharedResourceKey obj))))
      | Some old => _ ← setSharedResources (storeSharedResource obj old); mret None
      end
  end.

(** [r.Status().Update]: only the status of the stored object changes. *)
Definition UpdateStatus (obj : SharedResource) : M (option error) :=
  f ← issue (CallUpdateStatus obj);
  match f with
  | Some err => mret (Some err)
  | None =>
      w ← world;
      match sharedResources w !! sharedResourceKey obj with
      | None => mret (Some (ErrNotFound (describe "sharedresources" (sharedResourceKey obj))))
      | Some old =>
          _ ← setSharedResources
                (insert (sharedResourceKey obj)
                   {| sr_Namespace := sr_Namespace old; sr_Name := sr_Name old;
                      sr_DeletionTimestamp := sr_DeletionTimestamp old;
                      sr_Finalizers := sr_Finalizers old; sr_Spec := sr_Spec old;
                      sr_Status := sr_Status obj |});
          mret None
      end
  end.

(** ** time.Time.UTC().Format(time.RFC3339) on Unix seconds *)
Module RFC3339.

Definition digitChar (d : Z) : ascii := ascii_of_nat (48 + Z.to_nat (d mod 10)).

Fixpoint decimal (width : nat) (n : Z) (acc : string) : string :=
  match width with
  | O => acc
  | S width' => decimal width' (n / 10) (String (digitChar n) acc)
  end.

(** Days since 1970-01-01 to (year, month, day), proleptic Gregorian. *)
Definition civil (days : Z) : Z * Z * Z :=
  let z := days + 719468 in
  let era := z / 146097 in
  let doe := z - era * 146097 in
  let yoe := (doe - doe / 1460 + doe / 36524 - doe / 146096) / 365 in
  let doy := doe - (365 * yoe + yoe / 4 - yoe / 100) in
  let mp := (5 * doy + 2) / 153 in
  let d := doy - (153 * mp + 2) / 5 + 1 in
  let m := if mp <? 10 then mp + 3 else mp - 9 in
  (yoe + era * 400 + (if m <=? 2 then 1 else 0), m, d).

Definition Format (t : Time) : string :=
  let '(y, m, d) := civil (t / 86400) in
  let s := t mod 86400 in
  decimal 4 y "" +:+ "-" +:+ decimal 2 m "" +:+ "-" +:+ decimal 2 d "" +:+ "T" +:+
  decimal 2 (s / 3600) "" +:+ ":" +:+ decimal 2 (s mod 3600 / 60) "" +:+ ":" +:+
  decimal 2 (s mod 60) "" +:+ "Z".

End RFC3339.

(** ** sync.go *)

(** The ConfigMap view of a bundle and back: [string(v)] and [[]byte(v)]. *)
Definition toStringData (data : Bundle) : gmap string string :=
  foldl (fun m kv => <[kv.1 := String.string_of_list_byte kv.2]> m) ∅ (rangeMap data).

Definition toByteData (data : gmap string string) : Bundle :=
  foldl (fun m kv => <[kv.1 := String.list_byte_of_string kv.2]> m) ∅ (rangeMap data).

Definition fetchSourceResource (sr : SharedResource)
    : M (Bundle * string * option error) :=
  let sourceKey := (sr_Namespace sr, src_Name (Source (sr_Spec sr))) in
  if decide (src_Kind (Source (sr_Spec sr)) = KindSecret) then
    r ← GetSecret sourceKey;
    match r with
    | inl err => mret (∅, "", Some err)
    | inr secret => mret (sec_Data secret, sec_Type secret, None)
    end
  else if decide (src_Kind (Source (sr_Spec sr)) = KindConfigMap) then
    r ← GetConfigMap sourceKey;
    match r with
    | inl err => mret (∅, "", Some err)
    | inr cm => mret (toByteData (cm_Data cm), "", None)
    end
  else
    mret (∅, "", Some (Errorf ("unsupported source kind: " +:+
                               src_Kind (Source (sr_Spec sr))))).

(** The data a found target should hold. *)
Definition desiredData {V} (syncMode : string) (existing data : gmap string V)
    : gmap string V :=
  if decide (syncMode = "merge") then copyInto data (copyInto existing ∅)
  else data.

Definition syncSecret (targetKey : NamespacedName) (data : Bundle)
    (secretType : string) (annotations : gmap string string) (syncMode : string)
    : M (option error) :=
  r ← GetSecret targetKey;
  match r with
  | inl err =>
      if IsNotFound err then
        CreateSecret {| sec_Namespace := targetKey.1; sec_Name := targetKey.2;
                        sec_Annotations := annotations; sec_Type := secretType;
                        sec_Data := data |}
      else mret (Some err)
  | inr existing =>
      let targetData := desiredData syncMode (sec_Data existing) data in
      let existingDataChecksum := computeChecksum (sec_Data existing) in
      let newDataChecksum := computeChecksum targetData in
      if decide (existingDataChecksum = newDataChecksum) then mret None
      else
        UpdateSecret {| sec_Namespace := sec_Namespace existing;
                        sec_Name := sec_Name existing;
                        sec_Annotations := copyInto annotations (sec_Annotations existing);
                        sec_Type := secretType;
                        sec_Data := targetData |}
  end.

Definition syncConfigMap (targetKey : NamespacedName) (data : Bundle)
    (annotations : gmap string string) (syncMode : string) : M (option error) :=
  let stringData := toStringData data in
  r ← GetConfigMap targetKey;
  match r with
  | inl err =>
      if IsNotFound err then
        CreateConfigMap {| cm_Namespace := targetKey.1; cm_Name := targetKey.2;
                           cm_Annotations := annotations; cm_Data := stringData |}
      else mret (Some err)
  | inr existing =>
      let targetData := desiredData syncMode (cm_Data existing) stringData in
      let existingByteData := toByteData (cm_Data existing) in
      let targetByteData := toByteData targetData in
      let existingDataChecksum := computeChecksum existingByteData in
      let newDataChecksum := computeChecksum targetByteData in
      if decide (existingDataChecksum = newDataChecksum) then mret None
      else
        UpdateConfigMap {| cm_Namespace := cm_Namespace existing;
                           cm_Name := cm_Name existing;
                           cm_Annotations := copyInto annotations (cm_Annotations existing);
                           cm_Data := targetData |}
  end.

Definition syncModeOf (sr : SharedResource) : string :=
  match SyncPolicy (sr_Spec sr) with
  | Some p => if decide (Mode p ≠ "") then Mode p else "copy"
  | None => "copy"
  end.

Definition trackingAnnotations (sr : SharedResource) (checksum : string) (now : Time)
    : gmap string string :=
  <[AnnotationManagedBy := ManagedByValue]>
  (<[AnnotationSourceNamespace := sr_Namespace sr]>
  (<[AnnotationSourceName := src_Name (Source (sr_Spec sr))]>
  (<[AnnotationSourceCR := sr_Name sr]>
  (<[AnnotationChecksum := checksum]>
  (<[AnnotationLastSynced := RFC3339.Format now]> ∅))))).

Definition syncToTarget (sr : SharedResource) (targetNamespace targetName : string)
    (data : Bundle) (secretType : string) (checksum : string) : M (option error) :=
  let syncMode := syncModeOf sr in
  now ← Now;
  let annotations := trackingAnnotations sr checksum now in
  let targetKey := (targetNamespace, targetName) in
  if decide (src_Kind (Source (sr_Spec sr)) = KindSecret) then
    syncSecret targetKey data secretType annotations syncMode
  else if decide (src_Kind (Source (sr_Spec sr)) = KindConfigMap) then
    syncConfigMap targetKey data annotations syncMode
  else
    mret (Some (Errorf ("unsupported source kind: " +:+
                        src_Kind (Source (sr_Spec sr))))).

Definition targetNameOf (sr : SharedResource) (target : TargetSpec) : string :=
  if decide (tgt_Name target = "") then src_Name (Source (sr_Spec sr))
  else tgt_Name target.

Definition isManaged (annotations : gmap string string) : bool :=
  bool_decide (default "" (annotations !! AnnotationManagedBy) = ManagedByValue).

(** The loop of [deleteTargetResources] over the remaining targets. *)
Fixpoint deleteTargets (sr : SharedResource) (targets : list TargetSpec)
    : M (option error) :=
  match targets with
  | [] => mret None
  | target :: rest =>
      let targetKey := (tgt_Namespace target, targetNameOf sr target) in
      if decide (src_Kind (Source (sr_Spec sr)) = KindSecret) then
        r ← GetSecret targetKey;
        match r with
        | inl err => if IsNotFound err then deleteTargets sr rest else mret (Some err)
        | inr secret =>
            if isManaged (sec_Annotations secret) then
              e ← DeleteSecret secret;
              match e with
              | Some err =>
                  if negb (IsNotFound err) then mret (Some err)
                  else deleteTargets sr rest
              | None => deleteTargets sr rest
              end
            else deleteTargets sr rest
        end
      else if decide (src_Kind (Source (sr_Spec sr)) = KindConfigMap) then
        r ← GetConfigMap targetKey;
        match r with
        | inl err => if IsNotFound err then deleteTargets sr rest else mret (Some err)
        | inr cm =>
            if isManaged (cm_Annotations cm) then
              e ← DeleteConfigMap cm;
              match e with
              | Some err =>
                  if negb (IsNotFound err) then mret (Some err)
                  else deleteTargets sr rest
              | None => deleteTargets sr rest
              end
            else deleteTargets sr rest
        end
      else deleteTargets sr rest
  end.

Definition deleteTargetResources (sr : SharedResource) : M (option error) :=
  deleteTargets sr (Targets (sr_Spec sr)).

(** ** sharedresource_controller.go *)

(** ctrl.Result; [RequeueAfter] in nanoseconds as time.Duration. *)
Record Result := { Requeue : bool; RequeueAfter : Z }.

Definition emptyResult : Result := {| Requeue := false; RequeueAfter := 0 |}.
Definition Second : Z := 1000000000.

(** controllerutil.ContainsFinalizer / AddFinalizer / RemoveFinalizer *)
Definition ContainsFinalizer (sr : SharedResource) (finalizer : string) : bool :=
  bool_decide (finalizer ∈ sr_Finalizers sr).

Definition withFinalizers (sr : SharedResource) (fs : list string) : SharedResource :=
  {| sr_Namespace := sr_Namespace sr; sr_Name := sr_Name sr;
     sr_DeletionTimestamp := sr_DeletionTimestamp sr;
     sr_Finalizers := fs; sr_Spec := sr_Spec sr; sr_Status := sr_Status sr |}.

Definition AddFinalizer (sr : SharedResource) (finalizer : string) : SharedResource :=
  if ContainsFinalizer sr finalizer then sr
  else withFinalizers sr (sr_Finalizers sr ++ [finalizer]).

Definition RemoveFinalizer (sr : SharedResource) (finalizer : string) : SharedResource :=
  withFinalizers sr (filter (fun f => f ≠ finalizer) (sr_Finalizers sr)).

Definition handleDeletion (sr : SharedResource) : M (Result * option error) :=
  if ContainsFinalizer sr FinalizerName then
    e ← (if decide (DeletionPolicy (sr_Spec sr) = DeletionPolicyDelete)
         then deleteTargetResources sr else mret None);
    match e with
    | Some err => mret (emptyResult, Some err)
    | None =>
        let sr := RemoveFinalizer sr FinalizerName in
        e ← UpdateSharedResource sr;
        match e with
        | Some err => mret (emptyResult, Some err)
        | None => mret (emptyResult, None)
        end
    end
  else mret (emptyResult, None).

Definition handleSourceError (sr : SharedResource) (err : error)
    : M (Result * option error) :=
  if IsNotFound err then
    now ← Now;
    let sr := setCondition now sr ConditionTypeSourceFound ConditionFalse "SourceNotFound"
                ("Source " +:+ src_Kind (Source (sr_Spec sr)) +:+ "/" +:+
                 src_Name (Source (sr_Spec sr)) +:+ " not found") in
    now ← Now;
    let sr := setCondition now sr ConditionTypeReady ConditionFalse "SourceNotFound"
                "Cannot sync: source resource not found" in
    _ ← UpdateStatus sr;
    mret ({| Requeue := false; RequeueAfter := 30 * Second |}, None)
  else mret (emptyResult, Some err).

(** The loop of [syncAllTargets]; [now] was read before the loop. *)
Fixpoint syncTargets (sr : SharedResource) (data : Bundle) (sourceType checksum : string)
    (now : Time) (targets : list TargetSpec) (syncedTargets : list TargetSyncStatus)
    (allSynced : bool) : M (list TargetSyncStatus * bool) :=
  match targets with
  | [] => mret (syncedTargets, allSynced)
  | target :: rest =>
      let targetName := targetNameOf sr target in
      e ← syncToTarget sr (tgt_Namespace target) targetName data sourceType checksum;
      match e with
      | Some err =>
          syncTargets sr data sourceType checksum now rest
            (syncedTargets ++
               [{| tss_Namespace := tgt_Namespace target; tss_Name := targetName;
                   tss_Synced := false; tss_LastSynced := 0; tss_Error := Error err |}])
            false
      | None =>
          syncTargets sr data sourceType checksum now rest
            (syncedTargets ++
               [{| tss_Namespace := tgt_Namespace target; tss_Name := targetName;
                   tss_Synced := true; tss_LastSynced := now; tss_Error := "" |}])
            allSynced
      end
  end.

Definition syncAllTargets (sr : SharedResource) (data : Bundle)
    (sourceType checksum : string) : M (list TargetSyncStatus * bool) :=
  now ← Now;
  syncTargets sr data sourceType checksum now (Targets (sr_Spec sr)) [] true.

Definition withSyncResult (sr : SharedResource) (syncedTargets : list TargetSyncStatus)
    (checksum : string) (lastSync : option Time) : SharedResource :=
  {| sr_Namespace := sr_Namespace sr; sr_Name := sr_Name sr;
     sr_DeletionTimestamp := sr_DeletionTimestamp sr;
     sr_Finalizers := sr_Finalizers sr; sr_Spec := sr_Spec sr;
     sr_Status := {| Conditions := Conditions (sr_Status sr);
                     SyncedTargets := syncedTargets;
                     LastSyncTime := lastSync;
                     SourceChecksum := checksum |} |}.

(** The object [updateStatus] hands to [r.Status().Update]; [now] is the
    reading taken on entry, [now'] the one taken inside [setCondition]. *)
Definition statusAfterSync (sr : SharedResource) (syncedTargets : list TargetSyncStatus)
    (checksum : string) (allSynced : bool) (now now' : Time) : SharedResource :=
  if allSynced then
    setCondition now'
      (withSyncResult sr syncedTargets checksum (Some now))
      ConditionTypeReady ConditionTrue "SyncSuccessful" "All targets synced successfully"
  else
    setCondition now'
      (withSyncResult sr syncedTargets checksum (LastSyncTime (sr_Status sr)))
      ConditionTypeReady ConditionFalse "SyncFailed" "Some targets failed to sync".

Definition updateStatus (sr : SharedResource) (syncedTargets : list TargetSyncStatus)
    (checksum : string) (allSynced : bool) : M (Result * option error) :=
  now ← Now;
  now' ← Now;
  let sr := statusAfterSync sr syncedTargets checksum allSynced now now' in
  e ← UpdateStatus sr;
  match e with
  | Some err => mret (emptyResult, Some err)
  | None => mret (emptyResult, None)
  end.

Definition Reconcile (req : NamespacedName) : M (Result * option error) :=
  r ← GetSharedResource req;
  match r with
  | inl err =>
      if IsNotFound err then mret (emptyResult, None)
      else mret (emptyResult, Some err)
  | inr sharedResource =>
      if decide (sr_DeletionTimestamp sharedResource ≠ None) then
        handleDeletion sharedResource
      else if negb (ContainsFinalizer sharedResource FinalizerName) then
        let sharedResource := AddFinalizer sharedResource FinalizerName in
        e ← UpdateSharedResource sharedResource;
        match e with
        | Some err => mret (emptyResult, Some err)
        | None => mret ({| Requeue := true; RequeueAfter := 0 |}, None)
        end
      else
        '(sourceData, sourceType, e) ← fetchSourceResource sharedResource;
        match e with
        | Some err => handleSourceError sharedResource err
        | None =>
            now ← Now;
            let sharedResource :=
              setCondition now sharedResource ConditionTypeSourceFound ConditionTrue
                "SourceExists" "Source resource found" in
            let filteredData := filterData sourceData (SyncPolicy (sr_Spec sharedResource)) in
            let checksum := computeChecksum filteredData in
            '(syncedTargets, allSynced) ←
              syncAllTargets sharedResource filteredData sourceType checksum;
            updateStatus sharedResource syncedTargets checksum allSynced
        end
  end.

(** ctrl.Request *)
Definition findSharedResourceForManagedResource (annotations : gmap string string)
    (kind : string) : M (list NamespacedName) :=
  let sourceNamespace := default "" (annotations !! AnnotationSourceNamespace) in
  let sourceCR := default "" (annotations !! AnnotationSourceCR) in
  if decide (sourceNamespace = "" ∨ sourceCR = "") then mret []
  else mret [(sourceNamespace, sourceCR)].

(** The loop of [findSharedResourcesForSource] over the listed items. *)
Fixpoint matchingRequests (items : list SharedResource) (name kind : string)
    (requests : list NamespacedName) : list NamespacedName :=
  match items with
  | [] => requests
  | sr :: rest =>
      if decide (src_Kind (Source (sr_Spec sr)) = kind ∧
                 src_Name (Source (sr_Spec sr)) = name)
      then matchingRequests rest name kind (requests ++ [(sr_Namespace sr, sr_Name sr)])
      else matchingRequests rest name kind requests
  end.

Definition findSharedResourcesForSource (namespace name kind : string)
    : M (list NamespacedName) :=
  r ← ListSharedResources namespace;
  match r with
  | inl err => mret []
  | inr items => mret (matchingRequests items name kind [])
  end.

Definition findSharedResourcesForSecret (secret : Secret) : M (list NamespacedName) :=
  match sec_Annotations secret !! AnnotationManagedBy with
  | Some managedBy =>
      if decide (managedBy = ManagedByValue)
      then findSharedResourceForManagedResource (sec_Annotations secret) "Secret"
      else findSharedResourcesForSource (sec_Namespace secret) (sec_Name secret) "Secret"
  | None => findSharedResourcesForSource (sec_Namespace secret) (sec_Name secret) "Secret"
  end.

Definition findSharedResourcesForConfigMap (cm : ConfigMap) : M (list NamespacedName) :=
  match cm_Annotations cm !! AnnotationManagedBy with
  | Some managedBy =>
      if decide (managedBy = ManagedByValue)
      then findSharedResourceForManagedResource (cm_Annotations cm) "ConfigMap"
      else findSharedResourcesForSource (cm_Namespace cm) (cm_Name cm) "ConfigMap"
  | None => findSharedResourcesForSource (cm_Namespace cm) (cm_Name cm) "ConfigMap"
  end.

(** ** Specification-side definitions and sample inputs *)

(** The filter as the specification words it: the pairs whose key is in
    the include list (the whole bundle for an empty list), without the keys
    of the exclude list. *)
Definition filterSpec (data : Bundle) (ks : KeySelector) : Bundle :=
  filter (fun kv => kv.1 ∉ Exclude ks)
         (if decide (Include ks = []) then data
          else filter (fun kv => kv.1 ∈ Include ks) data).

Definition keySelected (policy : SyncPolicySpec) : Prop :=
  Mode policy ≠ "" ∧ Mode policy ≠ SyncModeCopy.

Definition demoBundle : Bundle :=
  {[ "username" := [x61]; "password" := [x62]; "host" := [x63] ]}.

Definition demoSelector : KeySelector :=
  {| Include := ["username"; "password"; "missing"]; Exclude := ["password"] |}.

(** One entry of a bundle as it is hashed: key, "=", value, newline. *)
Definition entryLine (kv : string * list byte) : list byte :=
  String.list_byte_of_string kv.1 ++ [x3d] ++ kv.2 ++ [x0a].

(** Two byte strings that differ in exactly one byte. *)
Definition oneByteChanged (s t : list byte) : Prop :=
  ∃ p b b' q, b ≠ b' ∧ s = p ++ b :: q ∧ t = p ++ b' :: q.

(** Two bundles that differ by one byte of one value, or of one key. *)
Inductive singleByteDifference : Bundle → Bundle → Prop :=
  | value_byte_changed (m : Bundle) k v v' :
      m !! k = None → oneByteChanged v v' →
      singleByteDifference (<[k := v]> m) (<[k := v']> m)
  | key_byte_changed (m : Bundle) k k' v :
      m !! k = None → m !! k' = None →
      oneByteChanged (String.list_byte_of_string k) (String.list_byte_of_string k') →
      singleByteDifference (<[k := v]> m) (<[k' := v]> m).

(** Two different messages with the same SHA-256 digest. *)
Definition sha256Collision (x y : list byte) : Prop :=
  x ≠ y ∧ SHA256.sum x = SHA256.sum y.

Definition demoIntent : SharedResource :=
  {| sr_Namespace := "shared"; sr_Name := "sync-db";
     sr_DeletionTimestamp := None;
     sr_Finalizers := [FinalizerName];
     sr_Spec := {| Source := {| src_Kind := "Secret"; src_Name := "db-credentials" |};
                   Targets := [ {| tgt_Namespace := "backend"; tgt_Name := "" |};
                                {| tgt_Namespace := "jobs"; tgt_Name := "database-creds" |} ];
                   SyncPolicy := None;
                   DeletionPolicy := "" |};
     sr_Status := {| Conditions :=
                       [ newCondition 10 "SourceFound" ConditionTrue "SourceExists"
                                      "Source resource found";
                         newCondition 10 "Ready" ConditionTrue "SyncSuccessful"
                                      "All targets synced successfully" ];
                     SyncedTargets := []; LastSyncTime := Some 10;
                     SourceChecksum := "" |} |}.

Definition credentials : Bundle :=
  {[ "username" := String.list_byte_of_string "admin";
     "password" := String.list_byte_of_string "secret123" ]}.

(** [credentials] with one byte of the password changed. *)
Definition credentials' : Bundle :=
  {[ "username" := String.list_byte_of_string "admin";
     "password" := String.list_byte_of_string "secret124" ]}.

(** Every stored object sits under the namespace and name it carries. *)
Definition storeKeyed (w : World) : Prop :=
  map_Forall (fun k s => secretKey s = k) (secrets w) ∧
  map_Forall (fun k c => configMapKey c = k) (configMaps w) ∧
  map_Forall (fun k sr => sharedResourceKey sr = k) (sharedResources w).

(** The calls issued between two worlds of one run. *)
Definition issuedBetween (w w' : World) : list Call := drop (length (calls w)) (calls w').

(** A run changed nothing that is stored. *)
Definition sameObjects (w w' : World) : Prop :=
  secrets w' = secrets w ∧ configMaps w' = configMaps w ∧
  sharedResources w' = sharedResources w.

(** *** Sample clusters *)

Definition noFaults : nat → option Fault := fun _ => None.
Definition demoClock : nat → Time := fun n => 1700000000 + Z.of_nat n.

Definition sourceSecret : Secret :=
  {| sec_Namespace := "shared"; sec_Name := "db-credentials"; sec_Annotations := ∅;
     sec_Type := "Opaque"; sec_Data := credentials |}.

(** A Secret at the first target of [demoIntent] that nobody stamped: it
    holds the source data and one more key. *)
Definition foreignTarget : Secret :=
  {| sec_Namespace := "backend"; sec_Name := "db-credentials"; sec_Annotations := ∅;
     sec_Type := "Opaque";
     sec_Data := <["local" := String.list_byte_of_string "kept"]> credentials |}.

(** The same place holding exactly the source data, still without markers. *)
Definition unmarkedTarget : Secret :=
  {| sec_Namespace := "backend"; sec_Name := "db-credentials"; sec_Annotations := ∅;
     sec_Type := "Opaque"; sec_Data := credentials |}.

Definition cluster (secs : list Secret) (cms : list ConfigMap)
    (srs : list SharedResource) (plan : nat → option Fault) : World :=
  {| secrets := list_to_map ((fun s => (secretKey s, s)) <$> secs);
     configMaps := list_to_map ((fun c => (configMapKey c, c)) <$> cms);
     sharedResources := list_to_map ((fun sr => (sharedResourceKey sr, sr)) <$> srs);
     calls := []; faults := plan; clock := demoClock; clockReads := 0 |}.

Definition demoWorld : World := cluster [sourceSecret] [] [demoIntent] noFaults.
Definition foreignWorld : World :=
  cluster [sourceSecret; foreignTarget] [] [demoIntent] noFaults.
Definition unmarkedWorld : World :=
  cluster [sourceSecret; unmarkedTarget] [] [demoIntent] noFaults.

Definition demoAnnotations : gmap string string :=
  trackingAnnotations demoIntent (computeChecksum credentials) 1700000000.

(** *** Target Synchronizer: repeated calls *)

(** The target exists and its data hashes like the data wanted on it. *)
Definition secretUpToDate (targetKey : NamespacedName) (data : Bundle)
    (syncMode : string) (w : World) : Prop :=
  ∃ s, secrets w !! targetKey = Some s ∧
       computeChecksum (sec_Data s)
         = computeChecksum (desiredData syncMode (sec_Data s) data).

Definition configMapUpToDate (targetKey : NamespacedName) (data : Bundle)
    (syncMode : string) (w : World) : Prop :=
  ∃ c, configMaps w !! targetKey = Some c ∧
       computeChecksum (toByteData (cm_Data c))
         = computeChecksum (toByteData
             (desiredData syncMode (cm_Data c) (toStringData data))).

(** The world after [n] more calls with the same arguments. *)
Fixpoint afterSecretSyncs (n : nat) (targetKey : NamespacedName) (data : Bundle)
    (secretType : string) (annotations : gmap string string) (syncMode : string)
    (w : World) : World :=
  match n with
  | O => w
  | S n' =>
      afterSecretSyncs n' targetKey data secretType annotations syncMode
        (syncSecret targetKey data secretType annotations syncMode w).2
  end.

Fixpoint afterConfigMapSyncs (n : nat) (targetKey : NamespacedName) (data : Bundle)
    (annotations : gmap string string) (syncMode : string) (w : World) : World :=
  match n with
  | O => w
  | S n' =>
      afterConfigMapSyncs n' targetKey data annotations syncMode
        (syncConfigMap targetKey data annotations syncMode w).2
  end.

(** The idempotence property with its count of writes read as "exactly
    one over the two calls", for Secrets. *)
Definition exactlyOneWriteOverTwoCalls : Prop :=
  ∀ targetKey data secretType annotations syncMode w,
    storeKeyed w →
    let r1 := syncSecret targetKey data secretType annotations syncMode w in
    r1.1 = None →
    let r2 := syncSecret targetKey data secretType annotations syncMode r1.2 in
    writes r2.2 = writes r1.2 ∧
    length (writes r2.2) = S (length (writes w)).

(** *** Correlation Index *)

(** The Intent named by the markers of a managed target. *)
Definition ownerOf (annotations : gmap string string) : NamespacedName :=
  (default "" (annotations !! AnnotationSourceNamespace),
   default "" (annotations !! AnnotationSourceCR)).

(** The classification read as "a managed target always yields the one
    Intent its markers name". *)
Definition managedTargetYieldsOwner : Prop :=
  ∀ (secret : Secret) (w : World),
    sec_Annotations secret !! AnnotationManagedBy = Some ManagedByValue →
    (findSharedResourcesForSecret secret w).1 = [ownerOf (sec_Annotations secret)].

(** A managed target of [demoIntent] whose source-cr marker was stripped. *)
Definition strippedTarget : Secret :=
  {| sec_Namespace := "backend"; sec_Name := "db-credentials";
     sec_Annotations := delete AnnotationSourceCR demoAnnotations;
     sec_Type := "Opaque"; sec_Data := credentials |}.

(** An Intent in namespace "backend" whose source is the Secret that
    [demoIntent] manages there. *)
Definition chainedIntent : SharedResource :=
  {| sr_Namespace := "backend"; sr_Name := "forward-db";
     sr_DeletionTimestamp := None;
     sr_Finalizers := [FinalizerName];
     sr_Spec := {| Source := {| src_Kind := "Secret"; src_Name := "db-credentials" |};
                   Targets := [ {| tgt_Namespace := "edge"; tgt_Name := "" |} ];
                   SyncPolicy := None;
                   DeletionPolicy := "" |};
     sr_Status := {| Conditions := []; SyncedTargets := []; LastSyncTime := None;
                     SourceChecksum := "" |} |}.

Definition managedTarget : Secret :=
  {| sec_Namespace := "backend"; sec_Name := "db-credentials";
     sec_Annotations := demoAnnotations;
     sec_Type := "Opaque"; sec_Data := credentials |}.

(** *** Reconciliation Engine *)

(** An Intent whose source kind the controller does not know, registered
    (finalizer present), not being deleted, with no condition yet. *)
Definition unsupportedIntent : SharedResource :=
  {| sr_Namespace := "shared"; sr_Name := "sync-deploy";
     sr_DeletionTimestamp := None;
     sr_Finalizers := [FinalizerName];
     sr_Spec := {| Source := {| src_Kind := "Deployment"; src_Name := "web" |};
                   Targets := [ {| tgt_Namespace := "backend"; tgt_Name := "" |} ];
                   SyncPolicy := None;
                   DeletionPolicy := "" |};
     sr_Status := {| Conditions := []; SyncedTargets := []; LastSyncTime := None;
                     SourceChecksum := "" |} |}.

Definition unsupportedWorld : World := cluster [] [] [unsupportedIntent] noFaults.

(** The error of a pass shows in the Status: a status write was issued, or
    the stored Intent holds a condition that is false. *)
Definition surfacedInStatus (req : NamespacedName) (w' : World) : Prop :=
  (∃ obj, CallUpdateStatus obj ∈ calls w') ∨
  (∃ sr' c, sharedResources w' !! req = Some sr' ∧
            c ∈ Conditions (sr_Status sr') ∧ cond_Status c = ConditionFalse).

(** The handling of an unsupported source kind as the specification words
    it: surfaced through the Status, and no requeue. *)
Definition unsupportedKindSurfaced : Prop :=
  ∀ (req : NamespacedName) (w : World) (sr : SharedResource),
    sharedResources w !! req = Some sr →
    src_Kind (Source (sr_Spec sr)) ≠ KindSecret →
    src_Kind (Source (sr_Spec sr)) ≠ KindConfigMap →
    let r := Reconcile req w in
    surfacedInStatus req r.2 ∧
    Requeue r.1.1 = false ∧ RequeueAfter r.1.1 = 0.

(** *** Deletion Handler *)

Definition targetKeyOf (sr : SharedResource) (target : TargetSpec) : NamespacedName :=
  (tgt_Namespace target, targetNameOf sr target).

(** The object carries the managed-by marker with exactly the controller's value. *)
Definition markedManaged (annotations : gmap string string) : Prop :=
  annotations !! AnnotationManagedBy = Some ManagedByValue.

(** What a call issued while targets are deleted may be: a read, or the
    delete of an object that sits at one of [targets] in [w] and is marked. *)
Definition deleteCallAllowed (sr : SharedResource) (targets : list TargetSpec)
    (w : World) (c : Call) : Prop :=
  match c with
  | CallGetSecret _ | CallGetConfigMap _ => True
  | CallDeleteSecret key =>
      (∃ t, t ∈ targets ∧ key = targetKeyOf sr t) ∧
      (∃ s, secrets w !! key = Some s ∧ markedManaged (sec_Annotations s))
  | CallDeleteConfigMap key =>
      (∃ t, t ∈ targets ∧ key = targetKeyOf sr t) ∧
      (∃ c, configMaps w !! key = Some c ∧ markedManaged (cm_Annotations c))
  | _ => False
  end.


Definition isDelete (c : Call) : bool :=
  match c with CallDeleteSecret _ | CallDeleteConfigMap _ => true | _ => false end.

(** [demoIntent] marked for removal, with deletion policy "delete". *)
Definition deletingIntent : SharedResource :=
  {| sr_Namespace := "shared"; sr_Name := "sync-db";
     sr_DeletionTimestamp := Some 1700000000;
     sr_Finalizers := [FinalizerName];
     sr_Spec := {| Source := Source (sr_Spec demoIntent);
                   Targets := Targets (sr_Spec demoIntent);
                   SyncPolicy := None;
                   DeletionPolicy := DeletionPolicyDelete |};
     sr_Status := sr_Status demoIntent |}.

(** The second target of the Intent, managed; the first one is foreign. *)
Definition managedJobsTarget : Secret :=
  {| sec_Namespace := "jobs"; sec_Name := "database-creds";
     sec_Annotations := demoAnnotations;
     sec_Type := "Opaque"; sec_Data := credentials |}.

(** The first call, the read of the first target, times out. *)
Definition firstCallFails : nat → option Fault :=
  fun n => if decide (n = 0%nat) then Some Timeout else None.

Definition deletingWorld : World :=
  cluster [sourceSecret; unmarkedTarget; managedJobsTarget] [] [deletingIntent] noFaults.

(** *** Reconciliation Engine: one pass over the targets *)

(** The outcome of syncing each target in turn, each from the world the
    one before left, whatever that outcome was. *)
Fixpoint targetOutcomes (sr : SharedResource) (data : Bundle)
    (sourceType checksum : string) (targets : list TargetSpec)
    : M (list (option error)) :=
  match targets with
  | [] => mret []
  | target :: rest =>
      e ← syncToTarget sr (tgt_Namespace target) (targetNameOf sr target)
                       data sourceType checksum;
      es ← targetOutcomes sr data sourceType checksum rest;
      mret (e :: es)
  end.

(** The status record of one target, given the outcome of its sync. *)
Definition targetRecord (sr : SharedResource) (now : Time) (target : TargetSpec)
    (e : option error) : TargetSyncStatus :=
  {| tss_Namespace := tgt_Namespace target;
     tss_Name := targetNameOf sr target;
     tss_Synced := bool_decide (e = None);
     tss_LastSynced := if e is None then now else 0;
     tss_Error := from_option Error "" e |}.

Definition allSucceeded (es : list (option error)) : bool :=
  forallb (fun e => bool_decide (e = None)) es.

(** Steps 5 to 7 of a pass, entered with the Intent [sr] as fetched and the
    source data as resolved. *)
Definition syncAndReport (sr : SharedResource) (sourceData : Bundle)
    (sourceType : string) : M (Result * option error) :=
  now ← Now;
  let sr := setCondition now sr ConditionTypeSourceFound ConditionTrue
              "SourceExists" "Source resource found" in
  let filteredData := filterData sourceData (SyncPolicy (sr_Spec sr)) in
  let checksum := computeChecksum filteredData in
  '(syncedTargets, allSynced) ← syncAllTargets sr filteredData sourceType checksum;
  updateStatus sr syncedTargets checksum allSynced.

(** A plan that fails the fourth call of a pass: for [demoIntent] that is
    the create of its first target. *)
Definition firstCreateFails : nat → option Fault :=
  fun n => if decide (n = 3%nat) then Some Forbidden else None.

Definition partialFailureWorld : World :=
  cluster [sourceSecret] [] [demoIntent] firstCreateFails.

(** A target whose two entries hash like the one entry of [joinedBundle]. *)
Definition splitTarget : Secret :=
  {| sec_Namespace := "backend"; sec_Name := "db-credentials"; sec_Annotations := ∅;
     sec_Type := "Opaque";
     sec_Data := {[ "a" := String.list_byte_of_string "b";
                    "c" := String.list_byte_of_string "d" ]} |}.

Definition joinedBundle : Bundle :=
  {[ "a" := String.list_byte_of_string "b
c=d" ]}.


(** *** Further properties: sample inputs and auxiliary notions *)

(** The characters [hex.EncodeToString] produces. *)
Definition isLowerHex (c : ascii) : Prop :=
  c ∈ ["0";"1";"2";"3";"4";"5";"6";"7";"8";"9";"a";"b";"c";"d";"e";"f"]%char.

Definition mergeWithKeys : SyncPolicySpec :=
  {| Mode := SyncModeMerge; Keys := Some demoSelector |}.

(** The target of an Intent at [key] holds data that hashes like the data
    wanted on it, for the kind and the mode of the Intent. *)
Definition targetUpToDate (sr : SharedResource) (key : NamespacedName)
    (data : Bundle) (w : World) : Prop :=
  if decide (src_Kind (Source (sr_Spec sr)) = KindSecret) then
    secretUpToDate key data (syncModeOf sr) w
  else if decide (src_Kind (Source (sr_Spec sr)) = KindConfigMap) then
    configMapUpToDate key data (syncModeOf sr) w
  else False.

(** The calls a sync of one target may issue: the read, a create or an
    update of a Secret or a ConfigMap. *)
Definition isSyncCall (c : Call) : bool :=
  match c with
  | CallGetSecret _ | CallCreateSecret _ | CallUpdateSecret _
  | CallGetConfigMap _ | CallCreateConfigMap _ | CallUpdateConfigMap _ => true
  | _ => false
  end.

(** Writes to Secrets and ConfigMaps, as opposed to writes to the Intent. *)
Definition isObjectWrite (c : Call) : bool :=
  match c with
  | CallCreateSecret _ | CallUpdateSecret _ | CallDeleteSecret _
  | CallCreateConfigMap _ | CallUpdateConfigMap _ | CallDeleteConfigMap _ => true
  | _ => false
  end.

(** What a run leaves alone besides the stored objects. *)
Definition sameEnvironment (w w' : World) : Prop :=
  faults w' = faults w ∧ clock w' = clock w.

(** The second call of a run fails: after the read of a target, its create
    or update. *)
Definition secondCallFails : nat → option Fault :=
  fun n => if decide (n = 1%nat) then Some Forbidden else None.

(** A target of [demoIntent] that somebody annotated and changed. *)
Definition annotatedTarget : Secret :=
  {| sec_Namespace := "backend"; sec_Name := "db-credentials";
     sec_Annotations := {[ "team" := "payments"; AnnotationChecksum := "stale" ]};
     sec_Type := "Opaque";
     sec_Data := {[ "username" := String.list_byte_of_string "root" ]} |}.

Definition annotatedWorld : World :=
  cluster [sourceSecret; annotatedTarget] [] [demoIntent] noFaults.

(** [demoIntent] as it is first seen: no finalizer yet. *)
Definition freshIntent : SharedResource := withFinalizers demoIntent [].

(** The read of the source that [fetchSourceResource] issues. *)
Definition sourceRead (sr : SharedResource) : Call :=
  let sourceKey := (sr_Namespace sr, src_Name (Source (sr_Spec sr))) in
  if decide (src_Kind (Source (sr_Spec sr)) = KindSecret) then CallGetSecret sourceKey
  else CallGetConfigMap sourceKey.

(** The source of an Intent is not stored. *)
Definition sourceMissing (sr : SharedResource) (w : World) : Prop :=
  let sourceKey := (sr_Namespace sr, src_Name (Source (sr_Spec sr))) in
  (src_Kind (Source (sr_Spec sr)) = KindSecret ∧ secrets w !! sourceKey = None) ∨
  (src_Kind (Source (sr_Spec sr)) = KindConfigMap ∧ configMaps w !! sourceKey = None).

(** The second call of a pass, the read of the source, is refused. *)
Definition sourceReadFails : nat → option Fault :=
  fun n => if decide (n = 1%nat) then Some Forbidden else None.

(** The environment fails no call from the next one on. *)
Definition faultFree (w : World) : Prop :=
  ∀ n, (length (calls w) ≤ n)%nat → faults w n = None.

(** What a pass may do to Secrets and ConfigMaps between [w] and [w'] when
    it keeps to the declared targets of [sr]: every object elsewhere is as
    before, nothing that was stored has disappeared, no delete was issued. *)
Definition touchesOnlyTargets (sr : SharedResource) (w w' : World) : Prop :=
  (∀ k, k ∉ targetKeyOf sr <$> Targets (sr_Spec sr) →
        secrets w' !! k = secrets w !! k ∧ configMaps w' !! k = configMaps w !! k) ∧
  (∀ k, is_Some (secrets w !! k) → is_Some (secrets w' !! k)) ∧
  (∀ k, is_Some (configMaps w !! k) → is_Some (configMaps w' !! k)) ∧
  Forall (fun c => isDelete c = false) (issuedBetween w w').

(** Both targets of [demoIntent] already hold the source data. *)
Definition settledWorld : World :=
  cluster [sourceSecret; unmarkedTarget; managedJobsTarget] [] [demoIntent] noFaults.

(** * Verification *)

(** ** The standard-library models against their test vectors *)

Example sha256_constants :
  firstn 2 SHA256.K = [0x428a2f98; 0x71374491] ∧ last SHA256.K = Some 0xc67178f2 ∧
  firstn 2 SHA256.H0 = [0x6a09e667; 0xbb67ae85] ∧ last SHA256.H0 = Some 0x5be0cd19.
Proof. vm_compute. split_and!; reflexivity. Qed.

Example sha256_empty :
  Hex.EncodeToString (SHA256.sum []) =
  "e3b0c44298fc1c149afbf4c8996fb92427ae41e4649b934ca495991b7852b855".
Proof. vm_compute. reflexivity. Qed.

Example sha256_abc :
  Hex.EncodeToString (SHA256.sum (String.list_byte_of_string "abc")) =
  "ba7816bf8f01cfea414140de5dae2223b00361a396177a9cb410ff61f20015ad".
Proof. vm_compute. reflexivity. Qed.

Example sha256_two_blocks :
  Hex.EncodeToString (SHA256.sum (String.list_byte_of_string
    "abcdbcdecdefdefgefghfghighijhijkijkljklmklmnlmnomnopnopq")) =
  "248d6a61d20638b8e5c026930c3e6039a33ce45964ff2167f6ecedd419db06c1".
Proof. vm_compute. reflexivity. Qed.

Example rfc3339_epoch : RFC3339.Format 0 = "1970-01-01T00:00:00Z".
Proof. reflexivity. Qed.

Example rfc3339_2023 : RFC3339.Format 1700000000 = "2023-11-14T22:13:20Z".
Proof. reflexivity. Qed.

Example rfc3339_leap : RFC3339.Format 1709210096 = "2024-02-29T12:34:56Z".
Proof. reflexivity. Qed.

(** ** Loops over maps *)

Lemma foldl_insert_lookup {V} (l : list (string * V)) (dst : gmap string V) k :
  NoDup l.*1 →
  foldl (fun m kv => <[kv.1 := kv.2]> m) dst l !! k =
  match (list_to_map l : gmap string V) !! k with
  | Some v => Some v
  | None => dst !! k
  end.
Proof.
  revert dst. induction l as [|[a b] l IH]; intros dst Hnd; simpl.
  - by rewrite lookup_empty.
  - inversion Hnd as [|? ? Ha Hnd']; subst. rewrite IH by done.
    destruct (decide (a = k)) as [->|Hne].
    + rewrite lookup_insert_eq.
      rewrite (not_elem_of_list_to_map_1 l k Ha). by rewrite lookup_insert_eq.
    + rewrite !lookup_insert_ne by done. done.
Qed.

Lemma copyInto_lookup {V} (src dst : gmap string V) k :
  copyInto src dst !! k =
  match src !! k with Some v => Some v | None => dst !! k end.
Proof.
  unfold copyInto, rangeMap. rewrite foldl_insert_lookup.
  - by rewrite list_to_map_to_list.
  - apply NoDup_fst_map_to_list.
Qed.

Lemma copyInto_union {V} (src dst : gmap string V) : copyInto src dst = src ∪ dst.
Proof.
  apply map_eq; intros k. rewrite copyInto_lookup, lookup_union.
  destruct (src !! k), (dst !! k); done.
Qed.

Lemma copyInto_empty {V} (src : gmap string V) : copyInto src ∅ = src.
Proof. rewrite copyInto_union. apply (right_id_L ∅ (∪)). Qed.

Lemma foldl_include_lookup (data : gmap string (list byte)) (l : list string)
    (acc : gmap string (list byte)) k :
  foldl (fun f key => match data !! key with
                      | Some val => <[key := val]> f
                      | None => f
                      end) acc l !! k =
  match (if decide (k ∈ l) then data !! k else None) with
  | Some v => Some v
  | None => acc !! k
  end.
Proof.
  revert acc. induction l as [|a l IH]; intros acc; cbn [foldl].
  - rewrite decide_False; [done | apply not_elem_of_nil].
  - rewrite IH. destruct (decide (a = k)) as [->|Hne].
    + rewrite (decide_True (P := k ∈ k :: l)) by (rewrite elem_of_cons; by left).
      destruct (data !! k) eqn:Hk.
      * rewrite lookup_insert_eq. by case_decide.
      * by case_decide.
    + assert (Hacc : (match data !! a with
                      | Some val => <[a:=val]> acc
                      | None => acc
                      end) !! k = acc !! k)
        by (destruct (data !! a); [by rewrite lookup_insert_ne | done]).
      rewrite Hacc.
      destruct (decide (k ∈ l)) as [Hin|Hnin].
      * rewrite decide_True by (rewrite elem_of_cons; by right). done.
      * rewrite decide_False by set_solver. done.
Qed.

Lemma foldl_delete_lookup {V} (l : list string) (acc : gmap string V) k :
  foldl (fun f key => delete key f) acc l !! k =
  if decide (k ∈ l) then None else acc !! k.
Proof.
  revert acc. induction l as [|a l IH]; intros acc; cbn [foldl].
  - rewrite decide_False; [done | apply not_elem_of_nil].
  - rewrite IH. destruct (decide (k ∈ l)) as [Hin|Hnin].
    + by rewrite decide_True by (rewrite elem_of_cons; by right).
    + destruct (decide (a = k)) as [->|Hne].
      * rewrite decide_True by (rewrite elem_of_cons; by left). apply lookup_delete_eq.
      * rewrite decide_False by set_solver.
        by apply lookup_delete_ne.
Qed.

(** ** Filter Engine *)

Lemma filterData_lookup data policy ks k :
  keySelected policy → Keys policy = Some ks →
  filterData data (Some policy) !! k =
  if decide (k ∈ Exclude ks) then None
  else if decide (Include ks = [] ∨ k ∈ Include ks) then data !! k
  else None.
Proof.
  intros [Hm1 Hm2] HK. unfold filterData. rewrite HK.
  rewrite decide_False by tauto.
  rewrite foldl_delete_lookup. destruct (decide (k ∈ Exclude ks)); [done|].
  destruct (Include ks) as [|i incl] eqn:Hincl.
  - rewrite decide_False by (simpl; lia). rewrite decide_True by (by left).
    rewrite copyInto_lookup, lookup_empty. by destruct (data !! k).
  - rewrite decide_True by (simpl; lia). rewrite foldl_include_lookup, lookup_empty.
    destruct (decide (k ∈ i :: incl)).
    + rewrite decide_True by (by right). by destruct (data !! k).
    + rewrite decide_False; [done|]. intros [?|?]; done.
Qed.

Lemma filterSpec_lookup data ks k :
  filterSpec data ks !! k =
  if decide (k ∈ Exclude ks) then None
  else if decide (Include ks = [] ∨ k ∈ Include ks) then data !! k
  else None.
Proof.
  unfold filterSpec. apply option_eq; intros v.
  rewrite map_lookup_filter_Some; simpl.
  destruct (decide (k ∈ Exclude ks)) as [He|He]; [naive_solver|].
  destruct (decide (Include ks = [])) as [Hi|Hi].
  - rewrite decide_True by (by left). naive_solver.
  - rewrite map_lookup_filter_Some; simpl.
    destruct (decide (Include ks = [] ∨ k ∈ Include ks)); naive_solver.
Qed.

(** C5. In a mode that filters (selective) and with a key selector,
    [filterData] returns exactly the include-restricted bundle (the whole
    bundle for an empty include list) minus every key of the exclude list;
    so a key of the exclude list is never returned, even when it is also in
    the include list, and an include key the bundle lacks is just absent
    from the result (the function is total, there is no error to return). *)
Theorem filterData_include_then_exclude (data : Bundle) (mode : string) (ks : KeySelector) :
  mode = SyncModeSelective →
  let result := filterData data (Some {| Mode := mode; Keys := Some ks |}) in
  result = filterSpec data ks ∧
  (∀ k, k ∈ Exclude ks → result !! k = None) ∧
  (∀ k, k ∈ Include ks → data !! k = None → result !! k = None) ∧
  (∀ k v, result !! k = Some v → data !! k = Some v) ∧
  (∀ k, k ∉ Exclude ks → (Include ks = [] ∨ k ∈ Include ks) →
        result !! k = data !! k).
Proof.
  intros -> result.
  assert (Hsel : keySelected {| Mode := SyncModeSelective; Keys := Some ks |})
    by (split; done).
  assert (Hl := fun k => filterData_lookup data _ ks k Hsel eq_refl).
  fold result in Hl. repeat split.
  - apply map_eq; intros k. by rewrite Hl, filterSpec_lookup.
  - intros k Hk. rewrite Hl. by rewrite decide_True.
  - intros k _ Hk. rewrite Hl. repeat case_decide; done.
  - intros k v. rewrite Hl. repeat case_decide; done.
  - intros k He Hi. rewrite Hl. rewrite decide_False, decide_True; done.
Qed.

Lemma filterData_include_then_exclude_witness :
  let result :=
    filterData demoBundle (Some {| Mode := "selective"; Keys := Some demoSelector |}) in
  result = filterSpec demoBundle demoSelector ∧
  (∀ k, k ∈ Exclude demoSelector → result !! k = None) ∧
  (∀ k, k ∈ Include demoSelector → demoBundle !! k = None → result !! k = None) ∧
  (∀ k v, result !! k = Some v → demoBundle !! k = Some v) ∧
  (∀ k, k ∉ Exclude demoSelector →
        (Include demoSelector = [] ∨ k ∈ Include demoSelector) →
        result !! k = demoBundle !! k).
Proof.
  exact (filterData_include_then_exclude demoBundle "selective" demoSelector eq_refl).
Defined.

Example filterData_demo :
  filterData demoBundle (Some {| Mode := "selective"; Keys := Some demoSelector |})
  = {[ "username" := [x61] ]}.
Proof. vm_compute. reflexivity. Qed.

(** ** Condition Tracker *)

Lemma setConditionLoop_None conds condition :
  setConditionLoop conds condition = None ↔
  ∀ c, c ∈ conds → cond_Type c ≠ cond_Type condition.
Proof.
  induction conds as [|c0 conds IH]; simpl.
  - split; [intros _ c Hc; by apply elem_of_nil in Hc | done].
  - destruct (decide (cond_Type c0 = cond_Type condition)) as [Heq|Hne].
    + split.
      * by destruct (decide (cond_Status c0 ≠ cond_Status condition)).
      * intros H. destruct (H c0); [apply elem_of_cons; by left | done].
    + destruct (setConditionLoop conds condition) eqn:Hloop; simpl.
      * split; [done|]. intros H. destruct IH as [_ IH].
        discriminate IH. intros c Hc. apply H, elem_of_cons. by right.
      * split; [|done]. intros _ c [->|Hc]%elem_of_cons; [done|].
        by apply IH.
Qed.

Lemma setConditionLoop_Some conds condition conds' :
  setConditionLoop conds condition = Some conds' →
  ∃ pre c post,
    conds = pre ++ c :: post ∧
    (∀ x, x ∈ pre → cond_Type x ≠ cond_Type condition) ∧
    cond_Type c = cond_Type condition ∧
    conds' = pre ++ (if decide (cond_Status c ≠ cond_Status condition)
                     then condition
                     else withReasonMessage c (cond_Reason condition)
                                            (cond_Message condition)) :: post.
Proof.
  revert conds'. induction conds as [|c0 conds IH]; intros conds'; simpl; [done|].
  destruct (decide (cond_Type c0 = cond_Type condition)) as [Heq|Hne].
  - intros H. exists [], c0, conds. simpl. split_and!; try done.
    + intros x Hx. by apply elem_of_nil in Hx.
    + destruct (decide (cond_Status c0 ≠ cond_Status condition)); congruence.
  - destruct (setConditionLoop conds condition) as [r|] eqn:Hloop; simpl; [|done].
    intros [= <-]. destruct (IH r eq_refl) as (pre & c & post & -> & Hpre & Hc & ->).
    exists (c0 :: pre), c, post. split_and!; try done.
    intros x [->|Hx]%elem_of_cons; auto.
Qed.

(** C9. On a list with at most one condition per type, [setCondition]
    keeps at most one per type; it appends a condition stamped [now] when
    the type was absent, rewrites only Reason and Message (keeping
    LastTransitionTime) when the type was present with the same status,
    replaces the whole entry with one stamped [now] when the status
    differs, and leaves the conditions of every other type, and the rest of
    the object, as they were. *)
Theorem setCondition_one_per_type (now : Time) (sr : SharedResource)
    (condType : string) (status : ConditionStatus) (reason message : string) :
  NoDup (cond_Type <$> Conditions (sr_Status sr)) →
  let cs := Conditions (sr_Status sr) in
  let sr' := setCondition now sr condType status reason message in
  let cs' := Conditions (sr_Status sr') in
  NoDup (cond_Type <$> cs') ∧
  (∀ i c, cs !! i = Some c → cond_Type c ≠ condType → cs' !! i = Some c) ∧
  ((∀ c, c ∈ cs → cond_Type c ≠ condType) →
     cs' = cs ++ [{| cond_Type := condType; cond_Status := status;
                     cond_ObservedGeneration := 0; cond_LastTransitionTime := now;
                     cond_Reason := reason; cond_Message := message |}]) ∧
  (∀ i c, cs !! i = Some c → cond_Type c = condType → cond_Status c = status →
     length cs' = length cs ∧
     cs' !! i = Some {| cond_Type := condType; cond_Status := status;
                        cond_ObservedGeneration := cond_ObservedGeneration c;
                        cond_LastTransitionTime := cond_LastTransitionTime c;
                        cond_Reason := reason; cond_Message := message |}) ∧
  (∀ i c, cs !! i = Some c → cond_Type c = condType → cond_Status c ≠ status →
     length cs' = length cs ∧
     cs' !! i = Some {| cond_Type := condType; cond_Status := status;
                        cond_ObservedGeneration := 0; cond_LastTransitionTime := now;
                        cond_Reason := reason; cond_Message := message |}) ∧
  (sr_Namespace sr', sr_Name sr', sr_DeletionTimestamp sr', sr_Finalizers sr', sr_Spec sr')
    = (sr_Namespace sr, sr_Name sr, sr_DeletionTimestamp sr, sr_Finalizers sr, sr_Spec sr) ∧
  (SyncedTargets (sr_Status sr'), LastSyncTime (sr_Status sr'), SourceChecksum (sr_Status sr'))
    = (SyncedTargets (sr_Status sr), LastSyncTime (sr_Status sr), SourceChecksum (sr_Status sr)).
Proof.
  intros Hnd cs sr' cs'.
  assert (Hcs' : cs' = setConditions now cs condType status reason message) by done.
  clearbody cs'. subst sr'. fold cs in Hnd. clearbody cs. subst cs'.
  unfold setConditions.
  set (condition := newCondition now condType status reason message).
  destruct (setConditionLoop cs condition) as [r|] eqn:Hloop.
  - (* an entry of this type exists *)
    apply setConditionLoop_Some in Hloop
      as (pre & c & post & -> & Hpre & Hc & ->). simpl in Hc.
    set (c' := if decide (cond_Status c ≠ cond_Status condition) then condition
               else withReasonMessage c (cond_Reason condition) (cond_Message condition)).
    assert (Hty : cond_Type c' = cond_Type c).
    { unfold c'. case_decide; [by rewrite Hc | done]. }
    assert (Htys : cond_Type <$> (pre ++ c' :: post) = cond_Type <$> (pre ++ c :: post)).
    { rewrite !fmap_app, !fmap_cons. by rewrite Hty. }
    assert (Hidx : ∀ i c0, (pre ++ c :: post) !! i = Some c0 →
                           cond_Type c0 = condType → i = length pre ∧ c0 = c).
    { intros i c0 Hi Hc0.
      assert (i = length pre) as ->.
      { eapply (NoDup_lookup _ _ _ condType Hnd).
        - by rewrite list_lookup_fmap, Hi; simpl; rewrite Hc0.
        - rewrite list_lookup_fmap, list_lookup_middle by done. simpl. by rewrite Hc. }
      rewrite list_lookup_middle in Hi by done. by injection Hi as ->. }
    split_and!; try done.
    + by rewrite Htys.
    + intros i c0 Hi Hne.
      destruct (decide (i = length pre)) as [->|Hi'].
      * rewrite list_lookup_middle in Hi by done. injection Hi as ->. done.
      * destruct (decide (i < length pre)%nat).
        -- rewrite lookup_app_l in Hi |- * by done. done.
        -- rewrite lookup_app_r in Hi |- * by lia.
           destruct (i - length pre)%nat eqn:E; [lia|]. done.
    + intros Hall. destruct (Hall c); [|done].
      apply elem_of_app. right. apply elem_of_cons. by left.
    + intros i c0 Hi Hc0 Hst. destruct (Hidx i c0 Hi Hc0) as [-> ->].
      split; [by rewrite !length_app|].
      rewrite list_lookup_middle by done. f_equal. unfold c'.
      rewrite decide_False by (simpl; intros ?; congruence).
      unfold withReasonMessage. simpl. by rewrite Hc0, Hst.
    + intros i c0 Hi Hc0 Hst. destruct (Hidx i c0 Hi Hc0) as [-> ->].
      split; [by rewrite !length_app|].
      rewrite list_lookup_middle by done. f_equal. unfold c'.
      by rewrite decide_True by done.
  - (* no entry of this type: append *)
    pose proof (proj1 (setConditionLoop_None _ _) Hloop) as Hnone. simpl in Hnone.
    split_and!; try done.
    + rewrite fmap_app. simpl. apply NoDup_app. split_and!; [done| |apply NoDup_singleton].
      intros ty Hty ->%list_elem_of_singleton.
      apply list_elem_of_fmap in Hty as (c & Hc & Hin). by apply (Hnone c).
    + intros i c Hi _. rewrite lookup_app_l; [done|]. by eapply lookup_lt_Some.
    + intros i c Hi Hc. destruct (Hnone c); [|done]. by eapply list_elem_of_lookup_2.
    + intros i c Hi Hc. destruct (Hnone c); [|done]. by eapply list_elem_of_lookup_2.
Qed.

Lemma demoIntent_conditions_NoDup :
  NoDup (cond_Type <$> Conditions (sr_Status demoIntent)).
Proof. apply (bool_decide_unpack _). vm_compute. exact I. Qed.

Lemma setCondition_one_per_type_witness :
  NoDup (cond_Type <$> Conditions (sr_Status demoIntent)) ∧
  NoDup (cond_Type <$> Conditions (sr_Status
           (setCondition 20 demoIntent "Ready" ConditionFalse "SyncFailed"
                         "Some targets failed to sync"))).
Proof.
  split; [exact demoIntent_conditions_NoDup|].
  exact (proj1 (setCondition_one_per_type 20 demoIntent "Ready" ConditionFalse
                  "SyncFailed" "Some targets failed to sync"
                  demoIntent_conditions_NoDup)).
Defined.

Example setCondition_same_status :
  Conditions (sr_Status (setCondition 20 demoIntent "Ready" ConditionTrue "Again" "again"))
  = [ newCondition 10 "SourceFound" ConditionTrue "SourceExists" "Source resource found";
      newCondition 10 "Ready" ConditionTrue "Again" "again" ].
Proof. reflexivity. Qed.

Example setCondition_status_changed :
  Conditions (sr_Status (setCondition 20 demoIntent "Ready" ConditionFalse "SyncFailed" "x"))
  = [ newCondition 10 "SourceFound" ConditionTrue "SourceExists" "Source resource found";
      newCondition 20 "Ready" ConditionFalse "SyncFailed" "x" ].
Proof. reflexivity. Qed.

Example setCondition_new_type :
  Conditions (sr_Status (setCondition 20 demoIntent "Degraded" ConditionTrue "r" "m"))
  = Conditions (sr_Status demoIntent) ++ [newCondition 20 "Degraded" ConditionTrue "r" "m"].
Proof. reflexivity. Qed.

(** ** Checksum Engine *)

(** [String.le] is the byte-wise lexicographic order of Go's [<] on strings. *)
Lemma String_le_lexicographic :
  (∀ s, String.le "" s) ∧
  (∀ a s, ¬ String.le (String a s) "") ∧
  (∀ a s b t, String.le (String a s) (String b t) ↔
              (N_of_ascii a < N_of_ascii b)%N ∨ (a = b ∧ String.le s t)).
Proof.
  split_and!.
  - intros []; exact I.
  - intros a s H. exact H.
  - intros a s b t. unfold String.le, String.leb. simpl.
    unfold Ascii.compare. destruct (N.compare_spec (N_of_ascii a) (N_of_ascii b)) as [E|E|E].
    + assert (a = b) as -> by (rewrite <- (ascii_N_embedding a), <- (ascii_N_embedding b); by f_equal).
      split; [by right | intros [?|[_ ?]]; [lia | done]].
    + split; [by left | done].
    + split; [done | intros [?|[-> _]]; lia].
Qed.

Lemma sortStrings_Permutation l1 l2 : l1 ≡ₚ l2 → sortStrings l1 = sortStrings l2.
Proof.
  intros Hp. unfold sortStrings.
  apply (StronglySorted_unique String.le).
  - apply StronglySorted_merge_sort; apply _.
  - apply StronglySorted_merge_sort; apply _.
  - by rewrite !merge_sort_Permutation.
Qed.

Lemma computeChecksumFrom_any_order (data : Bundle) (order : list string) :
  order ≡ₚ (rangeMap data).*1 → computeChecksumFrom order data = computeChecksum data.
Proof.
  intros Hp. unfold computeChecksum, computeChecksumFrom, checksumInputFrom.
  by rewrite (sortStrings_Permutation _ _ Hp).
Qed.

Lemma keyLine_entryLine (data : Bundle) :
  keyLine data <$> (map_to_list data).*1 = entryLine <$> map_to_list data.
Proof.
  rewrite <- list_fmap_compose. apply list_fmap_ext.
  intros i [k v] Hi. apply list_elem_of_lookup_2, elem_of_map_to_list in Hi.
  unfold keyLine, entryLine. simpl. by rewrite Hi.
Qed.

Lemma checksumInput_Permutation (data : Bundle) :
  checksumInput data ≡ₚ mjoin (entryLine <$> map_to_list data).
Proof.
  unfold checksumInput, checksumInputFrom, sortStrings, rangeMap.
  rewrite merge_sort_Permutation. by rewrite keyLine_entryLine.
Qed.

Lemma checksumInput_insert (m : Bundle) k v :
  m !! k = None →
  checksumInput (<[k := v]> m) ≡ₚ entryLine (k, v) ++ mjoin (entryLine <$> map_to_list m).
Proof.
  intros Hk. rewrite checksumInput_Permutation.
  rewrite (map_to_list_insert m k v Hk). done.
Qed.

Lemma oneByteChanged_not_Permutation s t : oneByteChanged s t → ¬ (s ≡ₚ t).
Proof.
  intros (p & b & b' & q & Hne & -> & ->) Hp.
  apply (inj (app p)) in Hp. by apply (inj (.:: q)) in Hp.
Qed.

Lemma singleByteDifference_input d1 d2 :
  singleByteDifference d1 d2 → checksumInput d1 ≠ checksumInput d2.
Proof.
  intros [m k v v' Hk Hv | m k k' v Hk Hk' Hkk] Heq.
  - assert (Hp : entryLine (k, v) ++ mjoin (entryLine <$> map_to_list m)
                 ≡ₚ entryLine (k, v') ++ mjoin (entryLine <$> map_to_list m)).
    { rewrite <- !checksumInput_insert by done. by rewrite Heq. }
    apply (inj (.++ _)) in Hp. unfold entryLine in Hp; simpl in Hp.
    apply (inj (app _)) in Hp. apply (inj (cons _)) in Hp.
    apply (inj (.++ [x0a])) in Hp.
    by apply (oneByteChanged_not_Permutation v v').
  - assert (Hp : entryLine (k, v) ++ mjoin (entryLine <$> map_to_list m)
                 ≡ₚ entryLine (k', v) ++ mjoin (entryLine <$> map_to_list m)).
    { rewrite <- !checksumInput_insert by done. by rewrite Heq. }
    apply (inj (.++ _)) in Hp. unfold entryLine in Hp; simpl in Hp.
    apply (inj (.++ (x3d :: v ++ [x0a]))) in Hp.
    by apply (oneByteChanged_not_Permutation _ _ Hkk).
Qed.

Lemma Z_of_byte_range b : 0 ≤ SHA256.Z_of_byte b < 256.
Proof.
  unfold SHA256.Z_of_byte. pose proof (Byte.to_N_bounded b). lia.
Qed.

Lemma Z_of_byte_inj b1 b2 : SHA256.Z_of_byte b1 = SHA256.Z_of_byte b2 → b1 = b2.
Proof.
  unfold SHA256.Z_of_byte. intros H%(inj Z.of_N).
  assert (Some b1 = Some b2) as [= ->]; [|done].
  by rewrite <- !Byte.of_to_N, H.
Qed.

Lemma hex_digit_inj m n :
  0 ≤ m < 16 → 0 ≤ n < 16 → Hex.digit m = Hex.digit n → m = n.
Proof.
  intros Hm Hn H.
  assert (Hnat : ∀ m' n' : nat, (m' < 16)%nat → (n' < 16)%nat →
            Hex.digit (Z.of_nat m') = Hex.digit (Z.of_nat n') → m' = n').
  { intros m' n' Hm' Hn'.
    do 16 (destruct m' as [|m']; [do 16 (destruct n' as [|n']; [by intros|]); lia|]).
    lia. }
  rewrite <- (Z2Nat.id m), <- (Z2Nat.id n) in H by lia.
  apply Hnat in H; lia.
Qed.

Lemma hex_EncodeToString_inj bs1 bs2 :
  Hex.EncodeToString bs1 = Hex.EncodeToString bs2 → bs1 = bs2.
Proof.
  revert bs2. induction bs1 as [|b1 bs1 IH]; intros [|b2 bs2]; simpl; try done.
  intros [= Hhi Hlo Hrest]. f_equal; [|by apply IH].
  pose proof (Z_of_byte_range b1). pose proof (Z_of_byte_range b2).
  apply hex_digit_inj in Hhi; [|Z.div_mod_to_equations; lia..].
  apply hex_digit_inj in Hlo; [|Z.div_mod_to_equations; lia..].
  apply Z_of_byte_inj. Z.div_mod_to_equations. lia.
Qed.

(** [computeChecksum] is the hex SHA-256 of the lines
    key "=" value newline taken over the keys in ascending byte-wise order;
    whatever order the map is iterated in, bundles with the same pairs get
    the same string, and the empty bundle hashes the empty byte sequence.
    A single changed byte in a key or a value changes the byte sequence that
    is hashed, so the two checksums can only agree if those two sequences
    are a SHA-256 collision.  Whether SHA-256 has such a collision is not
    settled here: that a changed byte always changes the checksum is
    neither proved nor refuted. *)
Theorem computeChecksum_deterministic :
  (∀ data : Bundle, ∃ keys : list string,
      Sorted String.le keys ∧ NoDup keys ∧ (∀ k, k ∈ keys ↔ is_Some (data !! k)) ∧
      computeChecksum data =
        Hex.EncodeToString (SHA256.sum (mjoin
          ((fun k => String.list_byte_of_string k ++ [x3d] ++ default [] (data !! k) ++ [x0a])
             <$> keys)))) ∧
  (∀ (d1 d2 : Bundle) (order1 order2 : list string),
      (∀ k, d1 !! k = d2 !! k) →
      order1 ≡ₚ (map_to_list d1).*1 → order2 ≡ₚ (map_to_list d2).*1 →
      computeChecksumFrom order1 d1 = computeChecksumFrom order2 d2) ∧
  computeChecksum ∅ = Hex.EncodeToString (SHA256.sum []) ∧
  (∀ d1 d2 : Bundle, singleByteDifference d1 d2 →
      checksumInput d1 ≠ checksumInput d2 ∧
      (computeChecksum d1 = computeChecksum d2 →
       sha256Collision (checksumInput d1) (checksumInput d2))).
Proof.
  split_and!.
  - intros data. exists (sortStrings (map_to_list data).*1). split_and!.
    + apply Sorted_merge_sort. apply _.
    + unfold sortStrings. rewrite merge_sort_Permutation. apply NoDup_fst_map_to_list.
    + intros k. unfold sortStrings. rewrite merge_sort_Permutation.
      rewrite list_elem_of_fmap. split.
      * intros ([k' v] & -> & Hin). apply elem_of_map_to_list in Hin. by exists v.
      * intros [v Hv]. exists (k, v). split; [done|]. by apply elem_of_map_to_list.
    + done.
  - intros d1 d2 order1 order2 Heq H1 H2.
    apply map_eq in Heq as ->.
    rewrite !computeChecksumFrom_any_order; done.
  - reflexivity.
  - intros d1 d2 Hd. pose proof (singleByteDifference_input d1 d2 Hd) as Hne.
    split; [done|]. intros Hsum. split; [done|].
    by apply hex_EncodeToString_inj.
Qed.

Lemma credentials_singleByteDifference : singleByteDifference credentials credentials'.
Proof.
  assert (credentials = <["password" := String.list_byte_of_string "secret123"]>
                          {["username" := String.list_byte_of_string "admin"]}) as ->
    by (vm_compute; reflexivity).
  assert (credentials' = <["password" := String.list_byte_of_string "secret124"]>
                           {["username" := String.list_byte_of_string "admin"]}) as ->
    by (vm_compute; reflexivity).
  apply value_byte_changed; [done|].
  exists (String.list_byte_of_string "secret12"), x33, x34, [].
  split_and!; done.
Qed.

Lemma computeChecksum_deterministic_witness :
  computeChecksumFrom ["username"; "password"] credentials
    = computeChecksumFrom ["password"; "username"] credentials ∧
  checksumInput credentials ≠ checksumInput credentials'.
Proof.
  destruct computeChecksum_deterministic as (_ & Horder & _ & Hdiff).
  split.
  - apply Horder; [done| |]; apply (bool_decide_unpack _); vm_compute; exact I.
  - exact (proj1 (Hdiff _ _ credentials_singleByteDifference)).
Defined.

Example computeChecksum_credentials :
  checksumInput credentials
    = String.list_byte_of_string "password=secret123
username=admin
" ∧
  computeChecksum credentials
    = "1fe810348596b8f2924fe3dd5798513b13b89e9b201ec4e588459eaded9549b7" ∧
  computeChecksum credentials'
    ≠ "1fe810348596b8f2924fe3dd5798513b13b89e9b201ec4e588459eaded9549b7" ∧
  computeChecksum ∅
    = "e3b0c44298fc1c149afbf4c8996fb92427ae41e4649b934ca495991b7852b855".
Proof. vm_compute. split_and!; try reflexivity. discriminate. Qed.

(** ** The object store: what each call returns and leaves behind *)

Ltac run_api :=
  unfold mbind, M_bind, mret, M_ret, issue, world, setSecrets, setConfigMaps,
    setSharedResources; simpl;
  repeat match goal with
         | |- context [faults ?w ?n] => destruct (faults w n); simpl
         | |- context [match ?m !! ?k with _ => _ end] => destruct (m !! k); simpl
         end;
  try reflexivity.

Lemma GetSecret_run key w :
  GetSecret key w =
  (match faults w (length (calls w)) with
   | Some f => inl (ErrFault f)
   | None => match secrets w !! key with
             | Some s => inr s
             | None => inl (ErrNotFound (describe "secrets" key))
             end
   end, logCall (CallGetSecret key) w).
Proof. unfold GetSecret. run_api. Qed.

Lemma CreateSecret_run obj w :
  CreateSecret obj w =
  match faults w (length (calls w)) with
  | Some f => (Some (ErrFault f), logCall (CallCreateSecret obj) w)
  | None =>
      match secrets w !! secretKey obj with
      | Some _ => (Some (ErrAlreadyExists (describe "secrets" (secretKey obj))),
                   logCall (CallCreateSecret obj) w)
      | None => (None, mapSecrets (insert (secretKey obj) obj)
                                  (logCall (CallCreateSecret obj) w))
      end
  end.
Proof. unfold CreateSecret. run_api. Qed.

Lemma UpdateSecret_run obj w :
  UpdateSecret obj w =
  match faults w (length (calls w)) with
  | Some f => (Some (ErrFault f), logCall (CallUpdateSecret obj) w)
  | None =>
      match secrets w !! secretKey obj with
      | None => (Some (ErrNotFound (describe "secrets" (secretKey obj))),
                 logCall (CallUpdateSecret obj) w)
      | Some _ => (None, mapSecrets (insert (secretKey obj) obj)
                                    (logCall (CallUpdateSecret obj) w))
      end
  end.
Proof. unfold UpdateSecret. run_api. Qed.

Lemma DeleteSecret_run obj w :
  DeleteSecret obj w =
  match faults w (length (calls w)) with
  | Some f => (Some (ErrFault f), logCall (CallDeleteSecret (secretKey obj)) w)
  | None =>
      match secrets w !! secretKey obj with
      | None => (Some (ErrNotFound (describe "secrets" (secretKey obj))),
                 logCall (CallDeleteSecret (secretKey obj)) w)
      | Some _ => (None, mapSecrets (delete (secretKey obj))
                                    (logCall (CallDeleteSecret (secretKey obj)) w))
      end
  end.
Proof. unfold DeleteSecret. run_api. Qed.

Lemma GetConfigMap_run key w :
  GetConfigMap key w =
  (match faults w (length (calls w)) with
   | Some f => inl (ErrFault f)
   | None => match configMaps w !! key with
             | Some c => inr c
             | None => inl (ErrNotFound (describe "configmaps" key))
             end
   end, logCall (CallGetConfigMap key) w).
Proof. unfold GetConfigMap. run_api. Qed.

Lemma CreateConfigMap_run obj w :
  CreateConfigMap obj w =
  match faults w (length (calls w)) with
  | Some f => (Some (ErrFault f), logCall (CallCreateConfigMap obj) w)
  | None =>
      match configMaps w !! configMapKey obj with
      | Some _ => (Some (ErrAlreadyExists (describe "configmaps" (configMapKey obj))),
                   logCall (CallCreateConfigMap obj) w)
      | None => (None, mapConfigMaps (insert (configMapKey obj) obj)
                                     (logCall (CallCreateConfigMap obj) w))
      end
  end.
Proof. unfold CreateConfigMap. run_api. Qed.

Lemma UpdateConfigMap_run obj w :
  UpdateConfigMap obj w =
  match faults w (length (calls w)) with
  | Some f => (Some (ErrFault f), logCall (CallUpdateConfigMap obj) w)
  | None =>
      match configMaps w !! configMapKey obj with
      | None => (Some (ErrNotFound (describe "configmaps" (configMapKey obj))),
                 logCall (CallUpdateConfigMap obj) w)
      | Some _ => (None, mapConfigMaps (insert (configMapKey obj) obj)
                                       (logCall (CallUpdateConfigMap obj) w))
      end
  end.
Proof. unfold UpdateConfigMap. run_api. Qed.

Lemma DeleteConfigMap_run obj w :
  DeleteConfigMap obj w =
  match faults w (length (calls w)) with
  | Some f => (Some (ErrFault f), logCall (CallDeleteConfigMap (configMapKey obj)) w)
  | None =>
      match configMaps w !! configMapKey obj with
      | None => (Some (ErrNotFound (describe "configmaps" (configMapKey obj))),
                 logCall (CallDeleteConfigMap (configMapKey obj)) w)
      | Some _ => (None, mapConfigMaps (delete (configMapKey obj))
                                       (logCall (CallDeleteConfigMap (configMapKey obj)) w))
      end
  end.
Proof. unfold DeleteConfigMap. run_api. Qed.

Lemma GetSharedResource_run key w :
  GetSharedResource key w =
  (match faults w (length (calls w)) with
   | Some f => inl (ErrFault f)
   | None => match sharedResources w !! key with
             | Some sr => inr sr
             | None => inl (ErrNotFound (describe "sharedresources" key))
             end
   end, logCall (CallGetSharedResource key) w).
Proof. unfold GetSharedResource. run_api. Qed.

Lemma ListSharedResources_run namespace w :
  ListSharedResources namespace w =
  (match faults w (length (calls w)) with
   | Some f => inl (ErrFault f)
   | None => inr (filter (fun sr => sr_Namespace sr = namespace)
                         (map_to_list (sharedResources w)).*2)
   end, logCall (CallListSharedResources namespace) w).
Proof. unfold ListSharedResources. run_api. Qed.

Lemma UpdateSharedResource_run obj w :
  UpdateSharedResource obj w =
  match faults w (length (calls w)) with
  | Some f => (Some (ErrFault f), logCall (CallUpdateSharedResource obj) w)
  | None =>
      match sharedResources w !! sharedResourceKey obj with
      | None => (Some (ErrNotFound (describe "sharedresources" (sharedResourceKey obj))),
                 logCall (CallUpdateSharedResource obj) w)
      | Some old => (None, mapSharedResources (storeSharedResource obj old)
                                              (logCall (CallUpdateSharedResource obj) w))
      end
  end.
Proof. unfold UpdateSharedResource. run_api. Qed.

Lemma UpdateStatus_run obj w :
  UpdateStatus obj w =
  match faults w (length (calls w)) with
  | Some f => (Some (ErrFault f), logCall (CallUpdateStatus obj) w)
  | None =>
      match sharedResources w !! sharedResourceKey obj with
      | None => (Some (ErrNotFound (describe "sharedresources" (sharedResourceKey obj))),
                 logCall (CallUpdateStatus obj) w)
      | Some old =>
          (None, mapSharedResources
                   (insert (sharedResourceKey obj)
                      {| sr_Namespace := sr_Namespace old; sr_Name := sr_Name old;
                         sr_DeletionTimestamp := sr_DeletionTimestamp old;
                         sr_Finalizers := sr_Finalizers old; sr_Spec := sr_Spec old;
                         sr_Status := sr_Status obj |})
                   (logCall (CallUpdateStatus obj) w))
      end
  end.
Proof. unfold UpdateStatus. run_api. Qed.

(** ** Target Synchronizer *)

Lemma syncSecret_run targetKey data secretType annotations syncMode w :
  syncSecret targetKey data secretType annotations syncMode w =
  let w0 := logCall (CallGetSecret targetKey) w in
  match faults w (length (calls w)) with
  | Some f => (Some (ErrFault f), w0)
  | None =>
      match secrets w !! targetKey with
      | None =>
          CreateSecret {| sec_Namespace := targetKey.1; sec_Name := targetKey.2;
                          sec_Annotations := annotations; sec_Type := secretType;
                          sec_Data := data |} w0
      | Some existing =>
          if decide (computeChecksum (sec_Data existing) =
                     computeChecksum (desiredData syncMode (sec_Data existing) data))
          then (None, w0)
          else UpdateSecret
                 {| sec_Namespace := sec_Namespace existing;
                    sec_Name := sec_Name existing;
                    sec_Annotations := copyInto annotations (sec_Annotations existing);
                    sec_Type := secretType;
                    sec_Data := desiredData syncMode (sec_Data existing) data |} w0
      end
  end.
Proof.
  unfold syncSecret, mbind, M_bind. rewrite GetSecret_run.
  destruct (faults w (length (calls w))); [reflexivity|].
  destruct (secrets w !! targetKey); [|reflexivity].
  simpl. by case_decide.
Qed.

Lemma syncConfigMap_run targetKey data annotations syncMode w :
  syncConfigMap targetKey data annotations syncMode w =
  let w0 := logCall (CallGetConfigMap targetKey) w in
  match faults w (length (calls w)) with
  | Some f => (Some (ErrFault f), w0)
  | None =>
      match configMaps w !! targetKey with
      | None =>
          CreateConfigMap {| cm_Namespace := targetKey.1; cm_Name := targetKey.2;
                             cm_Annotations := annotations;
                             cm_Data := toStringData data |} w0
      | Some existing =>
          if decide (computeChecksum (toByteData (cm_Data existing)) =
                     computeChecksum (toByteData
                       (desiredData syncMode (cm_Data existing) (toStringData data))))
          then (None, w0)
          else UpdateConfigMap
                 {| cm_Namespace := cm_Namespace existing;
                    cm_Name := cm_Name existing;
                    cm_Annotations := copyInto annotations (cm_Annotations existing);
                    cm_Data := desiredData syncMode (cm_Data existing)
                                           (toStringData data) |} w0
      end
  end.
Proof.
  unfold syncConfigMap, mbind, M_bind. rewrite GetConfigMap_run.
  destruct (faults w (length (calls w))); [reflexivity|].
  destruct (configMaps w !! targetKey); [|reflexivity].
  simpl. by case_decide.
Qed.

Lemma desiredData_copy {V} (syncMode : string) (existing data : gmap string V) :
  syncMode ≠ "merge" → desiredData syncMode existing data = data.
Proof. intros H. unfold desiredData. by rewrite decide_False. Qed.

Lemma desiredData_merge {V} (existing data : gmap string V) :
  desiredData "merge" existing data = data ∪ existing.
Proof.
  unfold desiredData. rewrite decide_True by done.
  by rewrite copyInto_empty, copyInto_union.
Qed.

Lemma desiredData_merge_lookup {V} (existing data : gmap string V) k :
  desiredData "merge" existing data !! k =
  match data !! k with Some v => Some v | None => existing !! k end.
Proof.
  unfold desiredData. rewrite decide_True by done.
  rewrite copyInto_lookup, copyInto_lookup, lookup_empty.
  destruct (data !! k); [done|]. by destruct (existing !! k).
Qed.

Lemma desiredData_fixed {V} (syncMode : string) (existing data : gmap string V) :
  desiredData syncMode (desiredData syncMode existing data) data
  = desiredData syncMode existing data.
Proof.
  destruct (decide (syncMode = "merge")) as [->|Hne].
  - rewrite !desiredData_merge. by rewrite (assoc_L (∪)), (idemp_L (∪)).
  - by rewrite !desiredData_copy.
Qed.

Lemma desiredData_same {V} (syncMode : string) (data : gmap string V) :
  desiredData syncMode data data = data.
Proof.
  destruct (decide (syncMode = "merge")) as [->|Hne].
  - rewrite desiredData_merge. apply (idemp_L (∪)).
  - by rewrite desiredData_copy.
Qed.

Lemma foldl_insert_fmap_lookup {A B} (f : A → B) (l : list (string * A))
    (dst : gmap string B) k :
  NoDup l.*1 →
  foldl (fun m kv => <[kv.1 := f kv.2]> m) dst l !! k =
  match (list_to_map l : gmap string A) !! k with
  | Some v => Some (f v)
  | None => dst !! k
  end.
Proof.
  revert dst. induction l as [|[a b] l IH]; intros dst Hnd; simpl.
  - by rewrite lookup_empty.
  - inversion Hnd as [|? ? Ha Hnd']; subst. rewrite IH by done.
    destruct (decide (a = k)) as [->|Hne].
    + rewrite lookup_insert_eq.
      rewrite (not_elem_of_list_to_map_1 l k Ha). by rewrite lookup_insert_eq.
    + rewrite !lookup_insert_ne by done. done.
Qed.

Lemma toStringData_fmap (data : Bundle) :
  toStringData data = String.string_of_list_byte <$> data.
Proof.
  apply map_eq; intros k. unfold toStringData, rangeMap.
  rewrite foldl_insert_fmap_lookup by apply NoDup_fst_map_to_list.
  rewrite list_to_map_to_list, lookup_fmap, lookup_empty.
  by destruct (data !! k).
Qed.

Lemma toByteData_fmap (data : gmap string string) :
  toByteData data = String.list_byte_of_string <$> data.
Proof.
  apply map_eq; intros k. unfold toByteData, rangeMap.
  rewrite foldl_insert_fmap_lookup by apply NoDup_fst_map_to_list.
  rewrite list_to_map_to_list, lookup_fmap, lookup_empty.
  by destruct (data !! k).
Qed.

Lemma toByteData_toStringData (data : Bundle) : toByteData (toStringData data) = data.
Proof.
  rewrite toByteData_fmap, toStringData_fmap, <- map_fmap_compose.
  rewrite <- (map_fmap_id data) at 2. apply map_fmap_ext.
  intros k v _. apply String.list_byte_of_string_of_list_byte.
Qed.

Lemma writes_logCall c w :
  writes (logCall c w) = writes w ++ (if isWrite c then [c] else []).
Proof.
  unfold writes. simpl. rewrite filter_app. f_equal.
  destruct (isWrite c) eqn:E.
  - by rewrite filter_cons_True.
  - rewrite filter_cons_False; [done|]. by rewrite E.
Qed.

(** The data wanted on a found target is the filtered bundle itself in
    copy mode, so that no key the bundle lacks survives, and in merge mode
    the existing data overlaid with the bundle: the bundle's value for
    every key it has, the existing value for every other key.  It is what
    ends up stored, for a Secret and for a ConfigMap, only when the two
    checksums differ and the read and the update are answered. *)
Theorem desiredData_copy_merge :
  (∀ (existing data : Bundle),
      desiredData "copy" existing data = data ∧
      (∀ k, data !! k = None → desiredData "copy" existing data !! k = None) ∧
      (∀ k, desiredData "merge" existing data !! k =
            match data !! k with Some v => Some v | None => existing !! k end)) ∧
  (∀ targetKey data secretType annotations syncMode w existing,
      storeKeyed w →
      secrets w !! targetKey = Some existing →
      faults w (length (calls w)) = None → faults w (S (length (calls w))) = None →
      computeChecksum (sec_Data existing)
        ≠ computeChecksum (desiredData syncMode (sec_Data existing) data) →
      ∃ stored,
        syncSecret targetKey data secretType annotations syncMode w
          = (None, mapSecrets (insert targetKey stored)
                     (logCall (CallUpdateSecret stored)
                        (logCall (CallGetSecret targetKey) w))) ∧
        sec_Data stored = desiredData syncMode (sec_Data existing) data) ∧
  (∀ targetKey data annotations syncMode w existing,
      storeKeyed w →
      configMaps w !! targetKey = Some existing →
      faults w (length (calls w)) = None → faults w (S (length (calls w))) = None →
      computeChecksum (toByteData (cm_Data existing))
        ≠ computeChecksum (toByteData
            (desiredData syncMode (cm_Data existing) (toStringData data))) →
      ∃ stored,
        syncConfigMap targetKey data annotations syncMode w
          = (None, mapConfigMaps (insert targetKey stored)
                     (logCall (CallUpdateConfigMap stored)
                        (logCall (CallGetConfigMap targetKey) w))) ∧
        toByteData (cm_Data stored) =
          desiredData syncMode (toByteData (cm_Data existing)) data).
Proof.
  split_and!.
  - intros existing data. split_and!.
    + by apply desiredData_copy.
    + intros k Hk. by rewrite desiredData_copy.
    + apply desiredData_merge_lookup.
  - intros targetKey data secretType annotations syncMode w existing
      (Hs & _ & _) Hex Hf0 Hf1 Hsum.
    eexists. rewrite syncSecret_run, Hf0, Hex. cbn zeta.
    rewrite decide_False by done. rewrite UpdateSecret_run. simpl.
    rewrite length_app, Nat.add_1_r, Hf1. simpl.
    unfold secretKey at 1. simpl. fold (secretKey existing).
    rewrite (Hs _ _ Hex), Hex. unfold secretKey. simpl.
    fold (secretKey existing). rewrite (Hs _ _ Hex). split; reflexivity.
  - intros targetKey data annotations syncMode w existing
      (_ & Hc & _) Hex Hf0 Hf1 Hsum.
    eexists. rewrite syncConfigMap_run, Hf0, Hex. cbn zeta.
    rewrite decide_False by done. rewrite UpdateConfigMap_run. simpl.
    rewrite length_app, Nat.add_1_r, Hf1. simpl.
    unfold configMapKey at 1. simpl. fold (configMapKey existing).
    rewrite (Hc _ _ Hex), Hex. unfold configMapKey. simpl.
    fold (configMapKey existing). rewrite (Hc _ _ Hex). split; [reflexivity|].
    simpl. destruct (decide (syncMode = "merge")) as [->|Hne].
    + rewrite !desiredData_merge. rewrite !toByteData_fmap, map_fmap_union.
      by rewrite <- !toByteData_fmap, toByteData_toStringData.
    + rewrite !desiredData_copy by done. apply toByteData_toStringData.
Qed.

Ltac by_computation := apply (bool_decide_unpack _); vm_compute; exact I.

Lemma storeKeyed_foreignWorld : storeKeyed foreignWorld.
Proof. split_and!; by_computation. Qed.

Lemma storeKeyed_unmarkedWorld : storeKeyed unmarkedWorld.
Proof. split_and!; by_computation. Qed.

Lemma storeKeyed_demoWorld : storeKeyed demoWorld.
Proof. split_and!; by_computation. Qed.

Lemma foreignTarget_differs (syncMode : string) :
  syncMode = "copy" →
  computeChecksum (sec_Data foreignTarget)
    ≠ computeChecksum (desiredData syncMode (sec_Data foreignTarget) credentials).
Proof. intros -> H. vm_compute in H. discriminate. Qed.

Lemma desiredData_copy_merge_witness :
  ∃ stored,
    syncSecret ("backend", "db-credentials") credentials "Opaque" demoAnnotations "copy"
               foreignWorld
      = (None, mapSecrets (insert ("backend", "db-credentials") stored)
                 (logCall (CallUpdateSecret stored)
                    (logCall (CallGetSecret ("backend", "db-credentials")) foreignWorld))) ∧
    sec_Data stored = desiredData "copy" (sec_Data foreignTarget) credentials.
Proof.
  exact (proj1 (proj2 desiredData_copy_merge)
           ("backend", "db-credentials") credentials "Opaque" demoAnnotations "copy"
           foreignWorld foreignTarget storeKeyed_foreignWorld eq_refl eq_refl eq_refl
           (foreignTarget_differs "copy" eq_refl)).
Defined.

Example copy_mode_erases_extra_key :
  secrets (syncSecret ("backend", "db-credentials") credentials "Opaque"
             demoAnnotations "copy" foreignWorld).2 !! ("backend", "db-credentials")
  = Some {| sec_Namespace := "backend"; sec_Name := "db-credentials";
            sec_Annotations := demoAnnotations; sec_Type := "Opaque";
            sec_Data := credentials |}.
Proof. vm_compute. reflexivity. Qed.

Example merge_mode_keeps_extra_key :
  (syncSecret ("backend", "db-credentials") credentials "Opaque"
              demoAnnotations "merge" foreignWorld).1 = None ∧
  writes (syncSecret ("backend", "db-credentials") credentials "Opaque"
             demoAnnotations "merge" foreignWorld).2 = [] ∧
  secrets (syncSecret ("backend", "db-credentials") credentials "Opaque"
             demoAnnotations "merge" foreignWorld).2 !! ("backend", "db-credentials")
  = Some foreignTarget.
Proof. vm_compute. split_and!; reflexivity. Qed.

Lemma syncSecret_noop targetKey data secretType annotations syncMode w :
  secretUpToDate targetKey data syncMode w →
  let r := syncSecret targetKey data secretType annotations syncMode w in
  calls r.2 = calls w ++ [CallGetSecret targetKey] ∧
  writes r.2 = writes w ∧ sameObjects w r.2 ∧
  faults r.2 = faults w ∧
  secretUpToDate targetKey data syncMode r.2 ∧
  (faults w (length (calls w)) = None → r.1 = None).
Proof.
  intros (s & Hs & Hsum) r. subst r. rewrite syncSecret_run. cbn zeta.
  assert (Hw : writes (logCall (CallGetSecret targetKey) w) = writes w)
    by (rewrite writes_logCall; simpl; apply app_nil_r).
  destruct (faults w (length (calls w))) eqn:Hf; simpl.
  - split_and!; try done. by exists s.
  - rewrite Hs. rewrite decide_True by done. simpl.
    split_and!; try done. by exists s.
Qed.

Lemma syncConfigMap_noop targetKey data annotations syncMode w :
  configMapUpToDate targetKey data syncMode w →
  let r := syncConfigMap targetKey data annotations syncMode w in
  calls r.2 = calls w ++ [CallGetConfigMap targetKey] ∧
  writes r.2 = writes w ∧ sameObjects w r.2 ∧
  faults r.2 = faults w ∧
  configMapUpToDate targetKey data syncMode r.2 ∧
  (faults w (length (calls w)) = None → r.1 = None).
Proof.
  intros (c & Hc & Hsum) r. subst r. rewrite syncConfigMap_run. cbn zeta.
  assert (Hw : writes (logCall (CallGetConfigMap targetKey) w) = writes w)
    by (rewrite writes_logCall; simpl; apply app_nil_r).
  destruct (faults w (length (calls w))) eqn:Hf; simpl.
  - split_and!; try done. by exists c.
  - rewrite Hc. rewrite decide_True by done. simpl.
    split_and!; try done. by exists c.
Qed.

(** C10. When the target exists and its data already hashes like the
    wanted data, [syncSecret] and [syncConfigMap] issue the one read and
    nothing else: no write is logged, every stored object, the target with
    its annotations included, is exactly as before, and the call returns
    nil as soon as the read is answered.  An object that holds the right
    data without the tracking markers therefore stays without them. *)
Theorem sync_up_to_date_writes_nothing :
  (∀ targetKey data secretType annotations syncMode w existing,
      secrets w !! targetKey = Some existing →
      computeChecksum (sec_Data existing)
        = computeChecksum (desiredData syncMode (sec_Data existing) data) →
      let r := syncSecret targetKey data secretType annotations syncMode w in
      calls r.2 = calls w ++ [CallGetSecret targetKey] ∧
      writes r.2 = writes w ∧ sameObjects w r.2 ∧
      secrets r.2 !! targetKey = Some existing ∧
      (faults w (length (calls w)) = None → r.1 = None)) ∧
  (∀ targetKey data annotations syncMode w existing,
      configMaps w !! targetKey = Some existing →
      computeChecksum (toByteData (cm_Data existing))
        = computeChecksum (toByteData
            (desiredData syncMode (cm_Data existing) (toStringData data))) →
      let r := syncConfigMap targetKey data annotations syncMode w in
      calls r.2 = calls w ++ [CallGetConfigMap targetKey] ∧
      writes r.2 = writes w ∧ sameObjects w r.2 ∧
      configMaps r.2 !! targetKey = Some existing ∧
      (faults w (length (calls w)) = None → r.1 = None)).
Proof.
  split.
  - intros targetKey data secretType annotations syncMode w existing Hex Hsum r.
    destruct (syncSecret_noop targetKey data secretType annotations syncMode w)
      as (Hc & Hw & Hobj & _ & _ & Hnil); [by exists existing|].
    subst r. split_and!; try done. destruct Hobj as (-> & _). done.
  - intros targetKey data annotations syncMode w existing Hex Hsum r.
    destruct (syncConfigMap_noop targetKey data annotations syncMode w)
      as (Hc & Hw & Hobj & _ & _ & Hnil); [by exists existing|].
    subst r. split_and!; try done. destruct Hobj as (_ & -> & _). done.
Qed.

Lemma sync_up_to_date_writes_nothing_witness :
  let r := syncSecret ("backend", "db-credentials") credentials "Opaque"
                      demoAnnotations "copy" unmarkedWorld in
  calls r.2 = calls unmarkedWorld ++ [CallGetSecret ("backend", "db-credentials")] ∧
  writes r.2 = writes unmarkedWorld ∧ sameObjects unmarkedWorld r.2 ∧
  secrets r.2 !! ("backend", "db-credentials") = Some unmarkedTarget ∧
  (faults unmarkedWorld (length (calls unmarkedWorld)) = None → r.1 = None).
Proof.
  exact (proj1 sync_up_to_date_writes_nothing
           ("backend", "db-credentials") credentials "Opaque" demoAnnotations "copy"
           unmarkedWorld unmarkedTarget eq_refl eq_refl).
Defined.

Example unmarked_target_is_not_adopted :
  let r := syncSecret ("backend", "db-credentials") credentials "Opaque"
                      demoAnnotations "copy" unmarkedWorld in
  r.1 = None ∧
  (sec_Annotations <$> secrets r.2 !! ("backend", "db-credentials")) = Some ∅ ∧
  demoAnnotations !! AnnotationManagedBy = Some ManagedByValue.
Proof. vm_compute. split_and!; reflexivity. Qed.

Lemma syncSecret_success targetKey data secretType annotations syncMode w w1 :
  storeKeyed w →
  syncSecret targetKey data secretType annotations syncMode w = (None, w1) →
  secretUpToDate targetKey data syncMode w1 ∧ faults w1 = faults w ∧
  ((secretUpToDate targetKey data syncMode w ∧ writes w1 = writes w) ∨
   (¬ secretUpToDate targetKey data syncMode w ∧
    ∃ c, isWrite c = true ∧ writes w1 = writes w ++ [c])).
Proof.
  intros (Hkeyed & _ & _). destruct targetKey as [ns name].
  rewrite syncSecret_run. cbn zeta.
  destruct (faults w (length (calls w))) eqn:Hf0; [done|].
  destruct (secrets w !! (ns, name)) as [existing|] eqn:Hex.
  - case_decide as Hsum.
    + intros [= <-]. split_and!; [by exists existing | done |].
      left. split; [by exists existing|].
      rewrite writes_logCall. apply app_nil_r.
    + rewrite UpdateSecret_run. simpl.
      destruct (faults w (length (calls w ++ [CallGetSecret (ns, name)]))); [done|].
      unfold secretKey at 1. simpl. fold (secretKey existing).
      rewrite (Hkeyed _ _ Hex), Hex.
      unfold secretKey. simpl. fold (secretKey existing). rewrite (Hkeyed _ _ Hex).
      intros [= <-]. split_and!; [|done|].
      * eexists. simpl. rewrite lookup_insert_eq. split; [done|]. simpl.
        by rewrite desiredData_fixed.
      * right. split.
        -- intros (s & Hs & Hs'). rewrite Hex in Hs. by injection Hs as <-.
        -- eexists. split; [|unfold writes; simpl; rewrite !filter_app; simpl;
                             rewrite app_nil_r; reflexivity]. done.
  - rewrite CreateSecret_run. simpl.
    destruct (faults w (length (calls w ++ [CallGetSecret (ns, name)]))); [done|].
    unfold secretKey. simpl. rewrite Hex.
    intros [= <-]. split_and!; [|done|].
    + eexists. simpl. rewrite lookup_insert_eq. split; [done|]. simpl.
      by rewrite desiredData_same.
    + right. split.
      * intros (s & Hs & _). by rewrite Hex in Hs.
      * eexists. split; [|unfold writes; simpl; rewrite !filter_app; simpl;
                          rewrite app_nil_r; reflexivity]. done.
Qed.

Lemma syncConfigMap_success targetKey data annotations syncMode w w1 :
  storeKeyed w →
  syncConfigMap targetKey data annotations syncMode w = (None, w1) →
  configMapUpToDate targetKey data syncMode w1 ∧ faults w1 = faults w ∧
  ((configMapUpToDate targetKey data syncMode w ∧ writes w1 = writes w) ∨
   (¬ configMapUpToDate targetKey data syncMode w ∧
    ∃ c, isWrite c = true ∧ writes w1 = writes w ++ [c])).
Proof.
  intros (_ & Hkeyed & _). destruct targetKey as [ns name].
  rewrite syncConfigMap_run. cbn zeta.
  destruct (faults w (length (calls w))) eqn:Hf0; [done|].
  destruct (configMaps w !! (ns, name)) as [existing|] eqn:Hex.
  - case_decide as Hsum.
    + intros [= <-]. split_and!; [by exists existing | done |].
      left. split; [by exists existing|].
      rewrite writes_logCall. apply app_nil_r.
    + rewrite UpdateConfigMap_run. simpl.
      destruct (faults w (length (calls w ++ [CallGetConfigMap (ns, name)]))); [done|].
      unfold configMapKey at 1. simpl. fold (configMapKey existing).
      rewrite (Hkeyed _ _ Hex), Hex.
      unfold configMapKey. simpl. fold (configMapKey existing). rewrite (Hkeyed _ _ Hex).
      intros [= <-]. split_and!; [|done|].
      * eexists. simpl. rewrite lookup_insert_eq. split; [done|]. simpl.
        by rewrite desiredData_fixed.
      * right. split.
        -- intros (s & Hs & Hs'). rewrite Hex in Hs. by injection Hs as <-.
        -- eexists. split; [|unfold writes; simpl; rewrite !filter_app; simpl;
                             rewrite app_nil_r; reflexivity]. done.
  - rewrite CreateConfigMap_run. simpl.
    destruct (faults w (length (calls w ++ [CallGetConfigMap (ns, name)]))); [done|].
    unfold configMapKey. simpl. rewrite Hex.
    intros [= <-]. split_and!; [|done|].
    + eexists. simpl. rewrite lookup_insert_eq. split; [done|]. simpl.
      by rewrite desiredData_same.
    + right. split.
      * intros (s & Hs & _). by rewrite Hex in Hs.
      * eexists. split; [|unfold writes; simpl; rewrite !filter_app; simpl;
                          rewrite app_nil_r; reflexivity]. done.
Qed.

Lemma afterSecretSyncs_noop n targetKey data secretType annotations syncMode w :
  secretUpToDate targetKey data syncMode w →
  let wn := afterSecretSyncs n targetKey data secretType annotations syncMode w in
  writes wn = writes w ∧ sameObjects w wn.
Proof.
  revert w. induction n as [|n IH]; intros w Hup; simpl; [done|].
  destruct (syncSecret_noop targetKey data secretType annotations syncMode w Hup)
    as (_ & Hw & (Hs & Hc & Hsr) & _ & Hup' & _).
  destruct (IH _ Hup') as (Hw' & Hs' & Hc' & Hsr').
  split; [congruence|]. split_and!; congruence.
Qed.

Lemma afterConfigMapSyncs_noop n targetKey data annotations syncMode w :
  configMapUpToDate targetKey data syncMode w →
  let wn := afterConfigMapSyncs n targetKey data annotations syncMode w in
  writes wn = writes w ∧ sameObjects w wn.
Proof.
  revert w. induction n as [|n IH]; intros w Hup; simpl; [done|].
  destruct (syncConfigMap_noop targetKey data annotations syncMode w Hup)
    as (_ & Hw & (Hs & Hc & Hsr) & _ & Hup' & _).
  destruct (IH _ Hup') as (Hw' & Hs' & Hc' & Hsr').
  split; [congruence|]. split_and!; congruence.
Qed.

(** C1 (as amended). After a successful [syncSecret] or [syncConfigMap],
    a second call with the same arguments issues no write, changes no
    stored object and returns nil as soon as its read is answered; so do
    all further calls.  Over the two calls there is at most one write:
    exactly one when the target was absent or its data hashed differently
    from the wanted data, none when it was already up to date. *)
Theorem sync_idempotent :
  (∀ targetKey data secretType annotations syncMode w,
      storeKeyed w →
      let r1 := syncSecret targetKey data secretType annotations syncMode w in
      r1.1 = None →
      let r2 := syncSecret targetKey data secretType annotations syncMode r1.2 in
      writes r2.2 = writes r1.2 ∧ sameObjects r1.2 r2.2 ∧
      (faults w (length (calls r1.2)) = None → r2.1 = None) ∧
      (secretUpToDate targetKey data syncMode w → writes r2.2 = writes w) ∧
      (¬ secretUpToDate targetKey data syncMode w →
         ∃ c, isWrite c = true ∧ writes r2.2 = writes w ++ [c]) ∧
      (∀ n, let wn := afterSecretSyncs n targetKey data secretType annotations
                        syncMode r1.2 in
            writes wn = writes r1.2 ∧ sameObjects r1.2 wn)) ∧
  (∀ targetKey data annotations syncMode w,
      storeKeyed w →
      let r1 := syncConfigMap targetKey data annotations syncMode w in
      r1.1 = None →
      let r2 := syncConfigMap targetKey data annotations syncMode r1.2 in
      writes r2.2 = writes r1.2 ∧ sameObjects r1.2 r2.2 ∧
      (faults w (length (calls r1.2)) = None → r2.1 = None) ∧
      (configMapUpToDate targetKey data syncMode w → writes r2.2 = writes w) ∧
      (¬ configMapUpToDate targetKey data syncMode w →
         ∃ c, isWrite c = true ∧ writes r2.2 = writes w ++ [c]) ∧
      (∀ n, let wn := afterConfigMapSyncs n targetKey data annotations syncMode r1.2 in
            writes wn = writes r1.2 ∧ sameObjects r1.2 wn)).
Proof.
  split.
  - intros targetKey data secretType annotations syncMode w Hkeyed r1 Hnil r2.
    subst r2. destruct r1 as [e1 w1] eqn:E1. simpl in Hnil. subst e1. simpl.
    destruct (syncSecret_success _ _ _ _ _ _ _ Hkeyed E1) as (Hup & Hfaults & Hcount).
    destruct (syncSecret_noop targetKey data secretType annotations syncMode w1 Hup)
      as (_ & Hw & Hobj & _ & _ & Hret).
    split_and!; try done.
    + rewrite <- Hfaults. exact Hret.
    + intros Hup0. destruct Hcount as [[_ Hc]|[Hc _]]; [congruence | done].
    + intros Hup0. destruct Hcount as [[Hc _]|[_ (c & Hc & Hc')]]; [done|].
      exists c. split; [done | congruence].
    + intros n. by apply afterSecretSyncs_noop.
  - intros targetKey data annotations syncMode w Hkeyed r1 Hnil r2.
    subst r2. destruct r1 as [e1 w1] eqn:E1. simpl in Hnil. subst e1. simpl.
    destruct (syncConfigMap_success _ _ _ _ _ _ Hkeyed E1) as (Hup & Hfaults & Hcount).
    destruct (syncConfigMap_noop targetKey data annotations syncMode w1 Hup)
      as (_ & Hw & Hobj & _ & _ & Hret).
    split_and!; try done.
    + rewrite <- Hfaults. exact Hret.
    + intros Hup0. destruct Hcount as [[_ Hc]|[Hc _]]; [congruence | done].
    + intros Hup0. destruct Hcount as [[Hc _]|[_ (c & Hc & Hc')]]; [done|].
      exists c. split; [done | congruence].
    + intros n. by apply afterConfigMapSyncs_noop.
Qed.

Lemma demoWorld_first_sync_succeeds :
  (syncSecret ("backend", "db-credentials") credentials "Opaque" demoAnnotations "copy"
              demoWorld).1 = None.
Proof. vm_compute. reflexivity. Qed.

Lemma sync_idempotent_witness :
  let r1 := syncSecret ("backend", "db-credentials") credentials "Opaque"
                       demoAnnotations "copy" demoWorld in
  let r2 := syncSecret ("backend", "db-credentials") credentials "Opaque"
                       demoAnnotations "copy" r1.2 in
  writes r2.2 = writes r1.2 ∧ sameObjects r1.2 r2.2 ∧
  (faults demoWorld (length (calls r1.2)) = None → r2.1 = None) ∧
  (secretUpToDate ("backend", "db-credentials") credentials "copy" demoWorld →
     writes r2.2 = writes demoWorld) ∧
  (¬ secretUpToDate ("backend", "db-credentials") credentials "copy" demoWorld →
     ∃ c, isWrite c = true ∧ writes r2.2 = writes demoWorld ++ [c]) ∧
  (∀ n, let wn := afterSecretSyncs n ("backend", "db-credentials") credentials "Opaque"
                    demoAnnotations "copy" r1.2 in
        writes wn = writes r1.2 ∧ sameObjects r1.2 wn).
Proof.
  exact (proj1 sync_idempotent ("backend", "db-credentials") credentials "Opaque"
           demoAnnotations "copy" demoWorld storeKeyed_demoWorld
           demoWorld_first_sync_succeeds).
Defined.

Example sync_twice_from_absent_target :
  let r1 := syncSecret ("backend", "db-credentials") credentials "Opaque"
                       demoAnnotations "copy" demoWorld in
  let r2 := syncSecret ("backend", "db-credentials") credentials "Opaque"
                       demoAnnotations "copy" r1.2 in
  r1.1 = None ∧ r2.1 = None ∧
  writes r2.2 = [CallCreateSecret
                   {| sec_Namespace := "backend"; sec_Name := "db-credentials";
                      sec_Annotations := demoAnnotations; sec_Type := "Opaque";
                      sec_Data := credentials |}].
Proof. cbv zeta. split_and!; vm_compute; reflexivity. Qed.

(** C1, as stated: a counterexample.  On a target that already holds the
    wanted data both calls succeed and neither writes: zero writes, not one. *)
Lemma exactlyOneWriteOverTwoCalls_counterexample : ¬ exactlyOneWriteOverTwoCalls.
Proof.
  intros H.
  specialize (H ("backend", "db-credentials") credentials "Opaque" demoAnnotations
                "copy" unmarkedWorld storeKeyed_unmarkedWorld).
  vm_compute in H. destruct (H eq_refl) as [_ H']. discriminate H'.
Qed.

(** ** Correlation Index *)

Lemma matchingRequests_filter items name kind requests :
  matchingRequests items name kind requests =
  requests ++ ((fun sr => (sr_Namespace sr, sr_Name sr)) <$>
               filter (fun sr => src_Kind (Source (sr_Spec sr)) = kind ∧
                                 src_Name (Source (sr_Spec sr)) = name) items).
Proof.
  revert requests. induction items as [|sr items IH]; intros requests; simpl.
  - by rewrite app_nil_r.
  - case_decide as Hm.
    + rewrite IH, filter_cons_True by done. simpl. by rewrite <- app_assoc.
    + rewrite IH, filter_cons_False by done. done.
Qed.

Lemma findSharedResourcesForSource_run namespace name kind w :
  findSharedResourcesForSource namespace name kind w =
  (match faults w (length (calls w)) with
   | Some _ => []
   | None =>
       (fun sr => (sr_Namespace sr, sr_Name sr)) <$>
       filter (fun sr => src_Kind (Source (sr_Spec sr)) = kind ∧
                         src_Name (Source (sr_Spec sr)) = name)
              (filter (fun sr => sr_Namespace sr = namespace)
                      (map_to_list (sharedResources w)).*2)
   end, logCall (CallListSharedResources namespace) w).
Proof.
  unfold findSharedResourcesForSource, mbind, M_bind.
  rewrite ListSharedResources_run.
  destruct (faults w (length (calls w))); [reflexivity|].
  simpl. by rewrite matchingRequests_filter.
Qed.

Lemma findSharedResourcesForSource_elem namespace name kind w req :
  storeKeyed w → faults w (length (calls w)) = None →
  req ∈ (findSharedResourcesForSource namespace name kind w).1 ↔
  ∃ sr, sharedResources w !! req = Some sr ∧ req.1 = namespace ∧
        src_Kind (Source (sr_Spec sr)) = kind ∧ src_Name (Source (sr_Spec sr)) = name.
Proof.
  intros (_ & _ & Hkeyed) Hf. rewrite findSharedResourcesForSource_run, Hf. simpl.
  rewrite list_elem_of_fmap. split.
  - intros (sr & -> & Hin). apply list_elem_of_filter in Hin as [[Hk Hn] Hin].
    apply list_elem_of_filter in Hin as [Hns Hin].
    apply list_elem_of_fmap in Hin as ([key sr'] & -> & Hin). simpl in *.
    apply elem_of_map_to_list in Hin. pose proof (Hkeyed _ _ Hin) as Hkey.
    exists sr'. unfold sharedResourceKey in Hkey. rewrite Hkey. done.
  - intros (sr & Hsr & Hns & Hk & Hn). pose proof (Hkeyed _ _ Hsr) as Hkey.
    exists sr. unfold sharedResourceKey in Hkey. split; [done|].
    apply list_elem_of_filter. split; [done|].
    apply list_elem_of_filter. split; [by rewrite <- Hkey in Hns|].
    apply list_elem_of_fmap. exists (req, sr). split; [done|].
    by apply elem_of_map_to_list.
Qed.

Lemma findSharedResourcesForSource_NoDup namespace name kind w :
  storeKeyed w → NoDup (findSharedResourcesForSource namespace name kind w).1.
Proof.
  intros (_ & _ & Hkeyed). rewrite findSharedResourcesForSource_run.
  destruct (faults w (length (calls w))); simpl; [constructor|].
  set (key := fun sr => (sr_Namespace sr, sr_Name sr)).
  apply (sublist_NoDup _ (key <$> (map_to_list (sharedResources w)).*2)).
  - assert (Hkeys : key <$> (map_to_list (sharedResources w)).*2
                    = (map_to_list (sharedResources w)).*1).
    { rewrite <- list_fmap_compose. apply list_fmap_ext.
      intros i [k sr] Hin%list_elem_of_lookup_2%elem_of_map_to_list.
      simpl. by apply Hkeyed. }
    rewrite Hkeys. apply NoDup_fst_map_to_list.
  - apply fmap_sublist. etrans; apply sublist_filter.
Qed.

(** C7 (as amended). A Secret or ConfigMap carrying the controller's
    managed-by marker is answered without any API call: with the single
    request named by its source-namespace and source-cr markers when both
    are non-empty, with no request otherwise.  Any other object costs one
    List of its own namespace and, when the List is answered, yields exactly
    the Intents stored in that namespace whose source kind and name are the
    object's, each once; when the List fails it yields no request. *)
Theorem correlation_classification :
  (∀ (secret : Secret) (w : World),
      let r := findSharedResourcesForSecret secret w in
      (sec_Annotations secret !! AnnotationManagedBy = Some ManagedByValue →
         r.2 = w ∧
         r.1 = if decide ((ownerOf (sec_Annotations secret)).1 = "" ∨
                          (ownerOf (sec_Annotations secret)).2 = "")
               then [] else [ownerOf (sec_Annotations secret)]) ∧
      (sec_Annotations secret !! AnnotationManagedBy ≠ Some ManagedByValue →
         r.2 = logCall (CallListSharedResources (sec_Namespace secret)) w ∧
         (faults w (length (calls w)) ≠ None → r.1 = []) ∧
         (storeKeyed w → faults w (length (calls w)) = None →
            NoDup r.1 ∧
            ∀ req, req ∈ r.1 ↔
                   ∃ sr, sharedResources w !! req = Some sr ∧
                         req.1 = sec_Namespace secret ∧
                         src_Kind (Source (sr_Spec sr)) = "Secret" ∧
                         src_Name (Source (sr_Spec sr)) = sec_Name secret))) ∧
  (∀ (cm : ConfigMap) (w : World),
      let r := findSharedResourcesForConfigMap cm w in
      (cm_Annotations cm !! AnnotationManagedBy = Some ManagedByValue →
         r.2 = w ∧
         r.1 = if decide ((ownerOf (cm_Annotations cm)).1 = "" ∨
                          (ownerOf (cm_Annotations cm)).2 = "")
               then [] else [ownerOf (cm_Annotations cm)]) ∧
      (cm_Annotations cm !! AnnotationManagedBy ≠ Some ManagedByValue →
         r.2 = logCall (CallListSharedResources (cm_Namespace cm)) w ∧
         (faults w (length (calls w)) ≠ None → r.1 = []) ∧
         (storeKeyed w → faults w (length (calls w)) = None →
            NoDup r.1 ∧
            ∀ req, req ∈ r.1 ↔
                   ∃ sr, sharedResources w !! req = Some sr ∧
                         req.1 = cm_Namespace cm ∧
                         src_Kind (Source (sr_Spec sr)) = "ConfigMap" ∧
                         src_Name (Source (sr_Spec sr)) = cm_Name cm))).
Proof.
  split.
  - intros secret w r. subst r. unfold findSharedResourcesForSecret. split.
    + intros ->. rewrite decide_True by done.
      unfold findSharedResourceForManagedResource, ownerOf. simpl.
      by case_decide.
    + intros Hm.
      assert (Hrun : match sec_Annotations secret !! AnnotationManagedBy with
                     | Some managedBy =>
                         if decide (managedBy = ManagedByValue)
                         then findSharedResourceForManagedResource
                                (sec_Annotations secret) "Secret"
                         else findSharedResourcesForSource (sec_Namespace secret)
                                (sec_Name secret) "Secret"
                     | None => findSharedResourcesForSource (sec_Namespace secret)
                                 (sec_Name secret) "Secret"
                     end = findSharedResourcesForSource (sec_Namespace secret)
                             (sec_Name secret) "Secret").
      { destruct (sec_Annotations secret !! AnnotationManagedBy) as [m|]; [|done].
        rewrite decide_False; [done|]. intros ->. done. }
      rewrite Hrun. split_and!.
      * by rewrite findSharedResourcesForSource_run.
      * rewrite findSharedResourcesForSource_run.
        by destruct (faults w (length (calls w))).
      * intros Hk Hf. split; [by apply findSharedResourcesForSource_NoDup|].
        intros req. by apply findSharedResourcesForSource_elem.
  - intros cm w r. subst r. unfold findSharedResourcesForConfigMap. split.
    + intros ->. rewrite decide_True by done.
      unfold findSharedResourceForManagedResource, ownerOf. simpl.
      by case_decide.
    + intros Hm.
      assert (Hrun : match cm_Annotations cm !! AnnotationManagedBy with
                     | Some managedBy =>
                         if decide (managedBy = ManagedByValue)
                         then findSharedResourceForManagedResource
                                (cm_Annotations cm) "ConfigMap"
                         else findSharedResourcesForSource (cm_Namespace cm)
                                (cm_Name cm) "ConfigMap"
                     | None => findSharedResourcesForSource (cm_Namespace cm)
                                 (cm_Name cm) "ConfigMap"
                     end = findSharedResourcesForSource (cm_Namespace cm)
                             (cm_Name cm) "ConfigMap").
      { destruct (cm_Annotations cm !! AnnotationManagedBy) as [m|]; [|done].
        rewrite decide_False; [done|]. intros ->. done. }
      rewrite Hrun. split_and!.
      * by rewrite findSharedResourcesForSource_run.
      * rewrite findSharedResourcesForSource_run.
        by destruct (faults w (length (calls w))).
      * intros Hk Hf. split; [by apply findSharedResourcesForSource_NoDup|].
        intros req. by apply findSharedResourcesForSource_elem.
Qed.

Lemma correlation_classification_witness :
  let r := findSharedResourcesForSecret managedTarget demoWorld in
  r.2 = demoWorld ∧
  r.1 = if decide ((ownerOf (sec_Annotations managedTarget)).1 = "" ∨
                   (ownerOf (sec_Annotations managedTarget)).2 = "")
        then [] else [ownerOf (sec_Annotations managedTarget)].
Proof.
  exact (proj1 (proj1 correlation_classification managedTarget demoWorld) eq_refl).
Defined.

Example correlation_examples :
  (findSharedResourcesForSecret managedTarget demoWorld).1 = [("shared", "sync-db")] ∧
  (findSharedResourcesForSecret sourceSecret demoWorld).1 = [("shared", "sync-db")] ∧
  (findSharedResourcesForSecret unmarkedTarget demoWorld).1 = [] ∧
  (findSharedResourcesForSecret strippedTarget demoWorld).1 = [].
Proof. vm_compute. split_and!; reflexivity. Qed.

(** A managed target that is also the source of another Intent: only its
    owner is returned, the Intent that reads it is not. *)
Example correlation_chained :
  let w := cluster [sourceSecret; managedTarget] [] [demoIntent; chainedIntent] noFaults in
  (findSharedResourcesForSecret managedTarget w).1 = [("shared", "sync-db")] ∧
  (findSharedResourcesForSecret unmarkedTarget w).1 = [("backend", "forward-db")].
Proof. vm_compute. split_and!; reflexivity. Qed.

(** C7, as stated: a counterexample.  A managed target whose source-cr
    marker was removed still carries the managed-by marker, and the
    function answers with no request at all. *)
Lemma managedTargetYieldsOwner_counterexample : ¬ managedTargetYieldsOwner.
Proof.
  intros H. specialize (H strippedTarget demoWorld eq_refl).
  vm_compute in H. discriminate H.
Qed.

(** ** Reconciliation Engine: unsupported source kind *)

(** C4 (as amended). For an Intent whose source kind is neither "Secret"
    nor "ConfigMap", that carries the finalizer and is not being deleted,
    the pass returns the error "unsupported source kind: <kind>" to its
    caller with an empty Result (neither Requeue nor RequeueAfter).  The
    read of the Intent is the only API call: no Status or condition is
    written and no target is touched. *)
Theorem unsupported_kind_returns_error (req : NamespacedName) (w : World)
    (sr : SharedResource) :
  sharedResources w !! req = Some sr →
  faults w (length (calls w)) = None →
  sr_DeletionTimestamp sr = None →
  FinalizerName ∈ sr_Finalizers sr →
  src_Kind (Source (sr_Spec sr)) ≠ KindSecret →
  src_Kind (Source (sr_Spec sr)) ≠ KindConfigMap →
  let r := Reconcile req w in
  r.1 = (emptyResult,
         Some (Errorf ("unsupported source kind: " +:+ src_Kind (Source (sr_Spec sr))))) ∧
  Requeue r.1.1 = false ∧ RequeueAfter r.1.1 = 0 ∧
  r.2 = logCall (CallGetSharedResource req) w ∧
  writes r.2 = writes w ∧ sameObjects w r.2 ∧
  sharedResources r.2 !! req = Some sr.
Proof.
  intros Hsr Hf Hdel Hfin Hk1 Hk2 r.
  assert (Hrun : Reconcile req w =
            ((emptyResult,
              Some (Errorf ("unsupported source kind: " +:+ src_Kind (Source (sr_Spec sr))))),
             logCall (CallGetSharedResource req) w)).
  { unfold Reconcile, mbind, M_bind. rewrite GetSharedResource_run, Hf, Hsr.
    rewrite decide_False by (rewrite Hdel; intros H; by apply H).
    unfold ContainsFinalizer. rewrite bool_decide_eq_true_2 by done. simpl.
    unfold fetchSourceResource. rewrite !decide_False by done. reflexivity. }
  subst r. rewrite Hrun. simpl. split_and!; try done.
  rewrite writes_logCall. apply app_nil_r.
Qed.

Lemma unsupported_kind_returns_error_witness :
  let r := Reconcile ("shared", "sync-deploy") unsupportedWorld in
  r.1 = (emptyResult, Some (Errorf "unsupported source kind: Deployment")) ∧
  Requeue r.1.1 = false ∧ RequeueAfter r.1.1 = 0 ∧
  r.2 = logCall (CallGetSharedResource ("shared", "sync-deploy")) unsupportedWorld ∧
  writes r.2 = writes unsupportedWorld ∧ sameObjects unsupportedWorld r.2 ∧
  sharedResources r.2 !! ("shared", "sync-deploy") = Some unsupportedIntent.
Proof.
  apply (unsupported_kind_returns_error ("shared", "sync-deploy") unsupportedWorld
           unsupportedIntent); try done.
  by_computation.
Defined.

(** C4, as stated: a counterexample.  The pass on [unsupportedIntent] issues
    no status write and leaves the stored Intent without any condition. *)
Lemma unsupportedKindSurfaced_counterexample : ¬ unsupportedKindSurfaced.
Proof.
  intros H.
  destruct (H ("shared", "sync-deploy") unsupportedWorld unsupportedIntent)
    as [Hs _]; [done..|].
  destruct Hs as [[obj Hobj] | (sr' & c & Hsr & Hc & _)].
  - vm_compute in Hobj. apply list_elem_of_singleton in Hobj. discriminate Hobj.
  - vm_compute in Hsr. injection Hsr as <-. by apply elem_of_nil in Hc.
Qed.

(** ** Deletion Handler *)

Lemma isManaged_spec annotations :
  isManaged annotations = true ↔ markedManaged annotations.
Proof.
  unfold isManaged, markedManaged. rewrite bool_decide_eq_true.
  destruct (annotations !! AnnotationManagedBy) as [v|]; simpl.
  - split; [by intros -> | by intros [= ->]].
  - split; [intros H; discriminate H | done].
Qed.

Lemma storeKeyed_logCall c w : storeKeyed w → storeKeyed (logCall c w).
Proof. done. Qed.

Lemma deleteCallAllowed_weaken sr targets targets' w c :
  targets ⊆ targets' → deleteCallAllowed sr targets w c →
  deleteCallAllowed sr targets' w c.
Proof.
  intros Hsub. destruct c; simpl; try done.
  - intros [(t & Ht & ->) Hs]. split; [|done]. exists t. split; [by apply Hsub | done].
  - intros [(t & Ht & ->) Hs]. split; [|done]. exists t. split; [by apply Hsub | done].
Qed.

Ltac allowed_calls :=
  repeat first [ apply Forall_nil_2
               | apply Forall_cons_2; [first [exact I | assumption]|] ].

(** The loop of [deleteTargetResources], started in a world [w] reached from
    [w0] by deletions only. *)
Lemma deleteTargets_safe sr w0 targets w :
  storeKeyed w → secrets w ⊆ secrets w0 → configMaps w ⊆ configMaps w0 →
  let r := deleteTargets sr targets w in
  ∃ new,
    calls r.2 = calls w ++ new ∧
    Forall (deleteCallAllowed sr targets w0) new ∧
    storeKeyed r.2 ∧
    secrets r.2 ⊆ secrets w ∧ configMaps r.2 ⊆ configMaps w ∧
    sharedResources r.2 = sharedResources w ∧ faults r.2 = faults w ∧
    (∀ key s, secrets w !! key = Some s → ¬ markedManaged (sec_Annotations s) →
              secrets r.2 !! key = Some s) ∧
    (∀ key c, configMaps w !! key = Some c → ¬ markedManaged (cm_Annotations c) →
              configMaps r.2 !! key = Some c).
Proof.
  revert w. induction targets as [|target rest IH]; intros w Hkeyed Hs0 Hc0; simpl.
  { exists []. rewrite app_nil_r. split_and!; done. }
  assert (Hrest : ∀ w1 pre,
            storeKeyed w1 → secrets w1 ⊆ secrets w → configMaps w1 ⊆ configMaps w →
            sharedResources w1 = sharedResources w → faults w1 = faults w →
            calls w1 = calls w ++ pre →
            Forall (deleteCallAllowed sr (target :: rest) w0) pre →
            (∀ key s, secrets w !! key = Some s → ¬ markedManaged (sec_Annotations s) →
                      secrets w1 !! key = Some s) →
            (∀ key c, configMaps w !! key = Some c → ¬ markedManaged (cm_Annotations c) →
                      configMaps w1 !! key = Some c) →
            ∃ new,
              calls (deleteTargets sr rest w1).2 = calls w ++ new ∧
              Forall (deleteCallAllowed sr (target :: rest) w0) new ∧
              storeKeyed (deleteTargets sr rest w1).2 ∧
              secrets (deleteTargets sr rest w1).2 ⊆ secrets w ∧
              configMaps (deleteTargets sr rest w1).2 ⊆ configMaps w ∧
              sharedResources (deleteTargets sr rest w1).2 = sharedResources w ∧
              faults (deleteTargets sr rest w1).2 = faults w ∧
              (∀ key s, secrets w !! key = Some s → ¬ markedManaged (sec_Annotations s) →
                        secrets (deleteTargets sr rest w1).2 !! key = Some s) ∧
              (∀ key c, configMaps w !! key = Some c →
                        ¬ markedManaged (cm_Annotations c) →
                        configMaps (deleteTargets sr rest w1).2 !! key = Some c)).
  { intros w1 pre Hk1 Hs1 Hc1 Hsr1 Hf1 Hcalls Hpre Hsk Hck.
    destruct (IH w1 Hk1) as (new & Hn & Hall & Hk' & Hs' & Hc' & Hsr' & Hf' & Hsk' & Hck').
    { by etrans. } { by etrans. }
    exists (pre ++ new). split_and!.
    - by rewrite Hn, Hcalls, app_assoc.
    - apply Forall_app. split; [done|].
      eapply Forall_impl; [exact Hall|]. intros c.
      apply deleteCallAllowed_weaken. set_solver.
    - done.
    - by etrans.
    - by etrans.
    - congruence.
    - congruence.
    - intros key s Hks Hm. apply Hsk'; [|done]. by apply Hsk.
    - intros key c Hkc Hm. apply Hck'; [|done]. by apply Hck. }
  assert (Hstop : ∀ (e : option error) w1 pre,
            storeKeyed w1 → secrets w1 = secrets w → configMaps w1 = configMaps w →
            sharedResources w1 = sharedResources w → faults w1 = faults w →
            calls w1 = calls w ++ pre →
            Forall (deleteCallAllowed sr (target :: rest) w0) pre →
            ∃ new,
              calls w1 = calls w ++ new ∧
              Forall (deleteCallAllowed sr (target :: rest) w0) new ∧
              storeKeyed w1 ∧ secrets w1 ⊆ secrets w ∧ configMaps w1 ⊆ configMaps w ∧
              sharedResources w1 = sharedResources w ∧ faults w1 = faults w ∧
              (∀ key s, secrets w !! key = Some s → ¬ markedManaged (sec_Annotations s) →
                        secrets w1 !! key = Some s) ∧
              (∀ key c, configMaps w !! key = Some c →
                        ¬ markedManaged (cm_Annotations c) →
                        configMaps w1 !! key = Some c)).
  { intros _ w1 pre Hk1 Hs1 Hc1 Hsr1 Hf1 Hcalls Hpre. exists pre.
    rewrite Hs1, Hc1. split_and!; done. }
  destruct Hkeyed as (Hks & Hkc & Hksr).
  set (key := (tgt_Namespace target, targetNameOf sr target)).
  case_decide as Hkind; [|case_decide as Hkind'].
  - (* Secret *)
    set (w1 := logCall (CallGetSecret key) w).
    unfold mbind, M_bind. rewrite GetSecret_run. fold w1.
    destruct (faults w (length (calls w))) as [f|] eqn:Hf.
    { apply (Hstop None w1 [CallGetSecret key]); try done. allowed_calls. }
    destruct (secrets w !! key) as [secret|] eqn:Hsec; cbn [IsNotFound].
    + destruct (isManaged (sec_Annotations secret)) eqn:Hman.
      * rewrite DeleteSecret_run. rewrite (Hks _ _ Hsec).
        assert (Hdel : deleteCallAllowed sr (target :: rest) w0 (CallDeleteSecret key)).
        { split.
          - exists target. split; [apply elem_of_cons; by left | done].
          - exists secret. split; [by eapply lookup_weaken | by apply isManaged_spec]. }
        set (w2 := logCall (CallDeleteSecret key) w1).
        destruct (faults w1 (length (calls w1))) as [f|].
        { apply (Hstop None w2 [CallGetSecret key; CallDeleteSecret key]); try done.
          - simpl. by rewrite <- app_assoc.
          - allowed_calls. }
        change (secrets w1) with (secrets w). rewrite Hsec.
        apply (Hrest (mapSecrets (delete key) w2)
                     [CallGetSecret key; CallDeleteSecret key]); try done.
        -- split_and!; try done. simpl. by apply map_Forall_delete.
        -- apply delete_subseteq.
        -- simpl. by rewrite <- app_assoc.
        -- allowed_calls.
        -- intros k s Hk Hm. simpl. rewrite lookup_delete_ne; [done|].
           intros <-. rewrite Hsec in Hk. injection Hk as <-.
           by apply Hm, isManaged_spec.
      * apply (Hrest w1 [CallGetSecret key]); try done. allowed_calls.
    + apply (Hrest w1 [CallGetSecret key]); try done. allowed_calls.
  - (* ConfigMap *)
    set (w1 := logCall (CallGetConfigMap key) w).
    unfold mbind, M_bind. rewrite GetConfigMap_run. fold w1.
    destruct (faults w (length (calls w))) as [f|] eqn:Hf.
    { apply (Hstop None w1 [CallGetConfigMap key]); try done. allowed_calls. }
    destruct (configMaps w !! key) as [cm|] eqn:Hcm; cbn [IsNotFound].
    + destruct (isManaged (cm_Annotations cm)) eqn:Hman.
      * rewrite DeleteConfigMap_run. rewrite (Hkc _ _ Hcm).
        assert (Hdel : deleteCallAllowed sr (target :: rest) w0 (CallDeleteConfigMap key)).
        { split.
          - exists target. split; [apply elem_of_cons; by left | done].
          - exists cm. split; [by eapply lookup_weaken | by apply isManaged_spec]. }
        set (w2 := logCall (CallDeleteConfigMap key) w1).
        destruct (faults w1 (length (calls w1))) as [f|].
        { apply (Hstop None w2 [CallGetConfigMap key; CallDeleteConfigMap key]); try done.
          - simpl. by rewrite <- app_assoc.
          - allowed_calls. }
        change (configMaps w1) with (configMaps w). rewrite Hcm.
        apply (Hrest (mapConfigMaps (delete key) w2)
                     [CallGetConfigMap key; CallDeleteConfigMap key]); try done.
        -- split_and!; try done. simpl. by apply map_Forall_delete.
        -- apply delete_subseteq.
        -- simpl. by rewrite <- app_assoc.
        -- allowed_calls.
        -- intros k s Hk Hm. simpl. rewrite lookup_delete_ne; [done|].
           intros <-. rewrite Hcm in Hk. injection Hk as <-.
           by apply Hm, isManaged_spec.
      * apply (Hrest w1 [CallGetConfigMap key]); try done. allowed_calls.
    + apply (Hrest w1 [CallGetConfigMap key]); try done. allowed_calls.
  - (* neither kind: the switch has no case for it *)
    apply (Hrest w []); try done. by rewrite app_nil_r.
Qed.

Lemma issuedBetween_app w w' new : calls w' = calls w ++ new → issuedBetween w w' = new.
Proof. intros H. unfold issuedBetween. by rewrite H, drop_app_length. Qed.



(** *** Deleting without faults *)

Lemma faultFree_now w : faultFree w → faults w (length (calls w)) = None.
Proof. intros H. by apply H. Qed.

Lemma faultFree_later w w' new :
  faultFree w → faults w' = faults w → calls w' = calls w ++ new → faultFree w'.
Proof.
  intros H Hf Hc n Hn. rewrite Hf. apply H.
  rewrite Hc, length_app in Hn. lia.
Qed.

Lemma faultFree_logCall c w : faultFree w → faultFree (logCall c w).
Proof. intros H. by apply (faultFree_later w _ [c]). Qed.

Lemma deleteTargets_complete sr targets w :
  storeKeyed w → faultFree w →
  let r := deleteTargets sr targets w in
  r.1 = None ∧
  (src_Kind (Source (sr_Spec sr)) = KindSecret →
   ∀ t s, t ∈ targets → secrets w !! targetKeyOf sr t = Some s →
          isManaged (sec_Annotations s) = true →
          secrets r.2 !! targetKeyOf sr t = None) ∧
  (src_Kind (Source (sr_Spec sr)) = KindConfigMap →
   ∀ t c, t ∈ targets → configMaps w !! targetKeyOf sr t = Some c →
          isManaged (cm_Annotations c) = true →
          configMaps r.2 !! targetKeyOf sr t = None).
Proof.
  revert w. induction targets as [|target rest IH]; intros w Hkeyed Hff.
  { simpl. split_and!; [done| |]; intros _ t ? Ht; by apply elem_of_nil in Ht. }
  assert (Hne : KindConfigMap ≠ KindSecret) by by_computation.
  pose proof Hkeyed as (Hks & Hkc & Hksr).
  cbn [deleteTargets]. cbn zeta.
  fold (targetKeyOf sr target). set (key := targetKeyOf sr target).
  case_decide as Hkind; [|case_decide as Hkind'].
  - (* Secret *)
    set (w1 := logCall (CallGetSecret key) w).
    assert (Hff1 : faultFree w1) by by apply faultFree_logCall.
    unfold mbind, M_bind. rewrite GetSecret_run, (faultFree_now w Hff). fold w1.
    destruct (secrets w !! key) as [secret|] eqn:Hsec; cbn [IsNotFound].
    + destruct (isManaged (sec_Annotations secret)) eqn:Hman.
      * rewrite DeleteSecret_run, (Hks _ _ Hsec), (faultFree_now w1 Hff1).
        change (secrets w1) with (secrets w). rewrite Hsec.
        set (w2 := mapSecrets (delete key) (logCall (CallDeleteSecret key) w1)).
        assert (Hk2 : storeKeyed w2).
        { split_and!; try done. simpl. by apply map_Forall_delete. }
        assert (Hff2 : faultFree w2).
        { apply (faultFree_later w1 _ [CallDeleteSecret key]); done. }
        destruct (IH w2 Hk2 Hff2) as (Hnil & Hsecs & Hcms).
        split_and!; [done| |by rewrite Hkind in *].
        intros _ t s Ht Hs Hm.
        destruct (decide (targetKeyOf sr t = key)) as [Heq|Hneq].
        -- destruct (deleteTargets_safe sr w2 rest w2 Hk2) as (_ & _ & _ & _ & Hsub & _);
             [done|done|].
           rewrite Heq. eapply lookup_weaken_None; [|exact Hsub].
           simpl. apply lookup_delete_eq.
        -- apply elem_of_cons in Ht as [->|Ht]; [done|].
           apply (Hsecs Hkind t s); [done| |done].
           simpl. by rewrite lookup_delete_ne.
      * destruct (IH w1 Hkeyed Hff1) as (Hnil & Hsecs & Hcms).
        split_and!; [done| |by rewrite Hkind in *].
        intros _ t s Ht Hs Hm. apply elem_of_cons in Ht as [->|Ht].
        -- fold key in Hs. congruence.
        -- by apply (Hsecs Hkind t s).
    + destruct (IH w1 Hkeyed Hff1) as (Hnil & Hsecs & Hcms).
      split_and!; [done| |by rewrite Hkind in *].
      intros _ t s Ht Hs Hm. apply elem_of_cons in Ht as [->|Ht].
      -- fold key in Hs. congruence.
      -- by apply (Hsecs Hkind t s).
  - (* ConfigMap *)
    set (w1 := logCall (CallGetConfigMap key) w).
    assert (Hff1 : faultFree w1) by by apply faultFree_logCall.
    unfold mbind, M_bind. rewrite GetConfigMap_run, (faultFree_now w Hff). fold w1.
    destruct (configMaps w !! key) as [cm|] eqn:Hcm; cbn [IsNotFound].
    + destruct (isManaged (cm_Annotations cm)) eqn:Hman.
      * rewrite DeleteConfigMap_run, (Hkc _ _ Hcm), (faultFree_now w1 Hff1).
        change (configMaps w1) with (configMaps w). rewrite Hcm.
        set (w2 := mapConfigMaps (delete key) (logCall (CallDeleteConfigMap key) w1)).
        assert (Hk2 : storeKeyed w2).
        { subst w2. split_and!; try done. simpl. by apply map_Forall_delete. }
        assert (Hff2 : faultFree w2).
        { apply (faultFree_later w1 _ [CallDeleteConfigMap key]); done. }
        destruct (IH w2 Hk2 Hff2) as (Hnil & Hsecs & Hcms).
        split_and!; [done|done|].
        intros _ t c Ht Hc Hm.
        destruct (decide (targetKeyOf sr t = key)) as [Heq|Hneq].
        -- destruct (deleteTargets_safe sr w2 rest w2 Hk2)
             as (_ & _ & _ & _ & _ & Hsub & _); [done|done|].
           rewrite Heq. eapply lookup_weaken_None; [|exact Hsub].
           simpl. apply lookup_delete_eq.
        -- apply elem_of_cons in Ht as [->|Ht]; [done|].
           apply (Hcms Hkind' t c); [done| |done].
           simpl. by rewrite lookup_delete_ne.
      * destruct (IH w1 Hkeyed Hff1) as (Hnil & Hsecs & Hcms).
        split_and!; [done|done|].
        intros _ t c Ht Hc Hm. apply elem_of_cons in Ht as [->|Ht].
        -- fold key in Hc. congruence.
        -- by apply (Hcms Hkind' t c).
    + destruct (IH w1 Hkeyed Hff1) as (Hnil & Hsecs & Hcms).
      split_and!; [done|done|].
      intros _ t c Ht Hc Hm. apply elem_of_cons in Ht as [->|Ht].
      -- fold key in Hc. congruence.
      -- by apply (Hcms Hkind' t c).
  - destruct (IH w Hkeyed Hff) as (Hnil & _ & _). done.
Qed.





Lemma faultFree_deletingWorld : faultFree deletingWorld.
Proof. by intros n _. Qed.

Lemma storeKeyed_deletingWorld : storeKeyed deletingWorld.
Proof. split_and!; by_computation. Qed.


Example handleDeletion_run :
  let r := handleDeletion deletingIntent deletingWorld in
  r.1 = (emptyResult, None) ∧
  calls r.2 = [ CallGetSecret ("backend", "db-credentials");
                CallGetSecret ("jobs", "database-creds");
                CallDeleteSecret ("jobs", "database-creds");
                CallUpdateSharedResource (RemoveFinalizer deletingIntent FinalizerName) ] ∧
  secrets r.2 !! ("backend", "db-credentials") = Some unmarkedTarget ∧
  secrets r.2 !! ("jobs", "database-creds") = None ∧
  sharedResources r.2 !! ("shared", "sync-db") = None.
Proof. cbv zeta. split_and!; vm_compute; reflexivity. Qed.

(** When deleting a target fails, the error is returned and the finalizer
    stays for the next pass. *)
Example handleDeletion_failure :
  let w := cluster [sourceSecret; managedJobsTarget] [] [deletingIntent] firstCallFails in
  let r := handleDeletion deletingIntent w in
  r.1 = (emptyResult, Some (ErrFault Timeout)) ∧
  calls r.2 = [CallGetSecret ("backend", "db-credentials")] ∧
  (sr_Finalizers <$> sharedResources r.2 !! ("shared", "sync-db")) = Some [FinalizerName].
Proof. cbv zeta. split_and!; vm_compute; reflexivity. Qed.

(** Policy orphan, the default: only the finalizer is dropped. *)
Example handleDeletion_orphan :
  let intent := {| sr_Namespace := "shared"; sr_Name := "sync-db";
                   sr_DeletionTimestamp := Some 1700000000;
                   sr_Finalizers := [FinalizerName];
                   sr_Spec := sr_Spec demoIntent; sr_Status := sr_Status demoIntent |} in
  let w := cluster [sourceSecret; managedJobsTarget] [] [intent] noFaults in
  let r := handleDeletion intent w in
  r.1 = (emptyResult, None) ∧
  length (calls r.2) = 1%nat ∧
  (sec_Name <$> secrets r.2 !! ("jobs", "database-creds")) = Some "database-creds" ∧
  sharedResources r.2 !! ("shared", "sync-db") = None.
Proof. cbv zeta. split_and!; vm_compute; reflexivity. Qed.

(** ** Reconciliation Engine: the pass over the targets and its status *)

Lemma syncTargets_outcomes sr data sourceType checksum now targets acc allSynced w :
  syncTargets sr data sourceType checksum now targets acc allSynced w =
  let r := targetOutcomes sr data sourceType checksum targets w in
  ((acc ++ zip_with (targetRecord sr now) targets r.1, allSynced && allSucceeded r.1),
   r.2).
Proof.
  revert acc allSynced w. induction targets as [|target rest IH]; intros acc allSynced w.
  - simpl. unfold mret, M_ret. simpl. by rewrite app_nil_r, andb_true_r.
  - cbn [syncTargets targetOutcomes]. unfold mbind, M_bind.
    destruct (syncToTarget sr (tgt_Namespace target) (targetNameOf sr target)
                data sourceType checksum w) as [e w1].
    destruct e as [err|]; rewrite IH; cbn zeta;
      destruct (targetOutcomes sr data sourceType checksum rest w1) as [es w2];
      simpl; unfold mret, M_ret; simpl; rewrite <- app_assoc; simpl.
    + by rewrite andb_false_r.
    + done.
Qed.

Lemma targetOutcomes_length sr data sourceType checksum targets w :
  length (targetOutcomes sr data sourceType checksum targets w).1 = length targets.
Proof.
  revert w. induction targets as [|target rest IH]; intros w; [done|].
  cbn [targetOutcomes]. unfold mbind, M_bind.
  destruct (syncToTarget _ _ _ _ _ _ w) as [e w1]. specialize (IH w1).
  destruct (targetOutcomes sr data sourceType checksum rest w1) as [es w2].
  simpl in *. by rewrite IH.
Qed.

Lemma allSucceeded_Forall es : allSucceeded es = true ↔ Forall (fun e => e = None) es.
Proof.
  unfold allSucceeded. induction es as [|e es IH]; simpl.
  - split; [constructor | done].
  - rewrite andb_true_iff, bool_decide_eq_true, IH, Forall_cons. done.
Qed.

Lemma setConditions_sets now conds condType status reason message :
  let conds' := setConditions now conds condType status reason message in
  (∃ c, c ∈ conds' ∧ cond_Type c = condType ∧ cond_Status c = status ∧
        cond_Reason c = reason ∧ cond_Message c = message) ∧
  (NoDup (cond_Type <$> conds) →
   ∀ c, c ∈ conds' → cond_Type c = condType →
        cond_Status c = status ∧ cond_Reason c = reason ∧ cond_Message c = message).
Proof.
  intros conds'. subst conds'. unfold setConditions.
  set (condition := newCondition now condType status reason message).
  destruct (setConditionLoop conds condition) as [r|] eqn:Hloop.
  - apply setConditionLoop_Some in Hloop as (pre & c & post & -> & Hpre & Hc & ->).
    simpl in Hc, Hpre.
    set (c' := if decide (cond_Status c ≠ cond_Status condition) then condition
               else withReasonMessage c (cond_Reason condition) (cond_Message condition)).
    assert (Hc' : cond_Type c' = condType ∧ cond_Status c' = status ∧
                  cond_Reason c' = reason ∧ cond_Message c' = message).
    { unfold c'. case_decide as Hst; simpl; [done|].
      split_and!; try done; by apply dec_stable in Hst. }
    split.
    + exists c'. split; [|done]. apply elem_of_app. right. apply elem_of_cons. by left.
    + intros Hnd x Hx Hty. rewrite fmap_app, fmap_cons in Hnd.
      apply NoDup_app in Hnd as (_ & Hdisj & Hpost).
      apply NoDup_cons in Hpost as [Hnotin _].
      apply elem_of_app in Hx as [Hx|Hx]; [by destruct (Hpre x Hx)|].
      apply elem_of_cons in Hx as [->|Hx]; [tauto|].
      destruct Hnotin. rewrite Hc, <- Hty. by apply list_elem_of_fmap_2.
  - pose proof (proj1 (setConditionLoop_None _ _) Hloop) as Hnone. simpl in Hnone.
    split.
    + exists condition. split; [|done]. apply elem_of_app. right.
      by apply list_elem_of_singleton.
    + intros _ x Hx Hty. apply elem_of_app in Hx as [Hx|Hx]; [by destruct (Hnone x Hx)|].
      apply list_elem_of_singleton in Hx as ->. done.
Qed.

Lemma setConditions_NoDup now conds condType status reason message :
  NoDup (cond_Type <$> conds) →
  NoDup (cond_Type <$> setConditions now conds condType status reason message).
Proof.
  intros Hnd. unfold setConditions.
  set (condition := newCondition now condType status reason message).
  destruct (setConditionLoop conds condition) as [r|] eqn:Hloop.
  - apply setConditionLoop_Some in Hloop as (pre & c & post & -> & _ & Hc & ->).
    rewrite fmap_app, fmap_cons in Hnd |- *.
    simpl in Hc. case_decide; simpl; [by rewrite <- Hc | done].
  - pose proof (proj1 (setConditionLoop_None _ _) Hloop) as Hnone. simpl in Hnone.
    rewrite fmap_app. simpl. apply NoDup_app. split_and!; [done| |apply NoDup_singleton].
    intros ty Hty ->%list_elem_of_singleton.
    apply list_elem_of_fmap in Hty as (c & Hc & Hin). by apply (Hnone c).
Qed.

(** Every call of [syncToTarget] starts with the read of its target. *)
Lemma syncToTarget_calls sr targetNamespace targetName data secretType checksum w :
  let r := syncToTarget sr targetNamespace targetName data secretType checksum w in
  ∃ more,
    calls r.2 = calls w ++ more ∧
    (src_Kind (Source (sr_Spec sr)) = KindSecret →
       head more = Some (CallGetSecret (targetNamespace, targetName))) ∧
    (src_Kind (Source (sr_Spec sr)) ≠ KindSecret →
     src_Kind (Source (sr_Spec sr)) = KindConfigMap →
       head more = Some (CallGetConfigMap (targetNamespace, targetName))).
Proof.
  intros r. subst r. unfold syncToTarget, mbind, M_bind, Now.
  case_decide as Hk; [|case_decide as Hk'].
  - rewrite syncSecret_run. cbn zeta. change (calls (tick w)) with (calls w).
    change (faults (tick w)) with (faults w). change (secrets (tick w)) with (secrets w).
    destruct (faults w (length (calls w))).
    { eexists [_]. split_and!; done. }
    destruct (secrets w !! (targetNamespace, targetName)).
    + case_decide.
      { eexists [_]. split_and!; done. }
      rewrite UpdateSecret_run. simpl.
      repeat match goal with
             | |- context [match ?x with _ => _ end] => destruct x; simpl
             end;
        (eexists [_; _]; split_and!; [by rewrite <- app_assoc | done | done]).
    + rewrite CreateSecret_run. simpl.
      repeat match goal with
             | |- context [match ?x with _ => _ end] => destruct x; simpl
             end;
        (eexists [_; _]; split_and!; [by rewrite <- app_assoc | done | done]).
  - rewrite syncConfigMap_run. cbn zeta. change (calls (tick w)) with (calls w).
    change (faults (tick w)) with (faults w).
    change (configMaps (tick w)) with (configMaps w).
    destruct (faults w (length (calls w))).
    { eexists [_]. split_and!; done. }
    destruct (configMaps w !! (targetNamespace, targetName)).
    + case_decide.
      { eexists [_]. split_and!; done. }
      rewrite UpdateConfigMap_run. simpl.
      repeat match goal with
             | |- context [match ?x with _ => _ end] => destruct x; simpl
             end;
        (eexists [_; _]; split_and!; [by rewrite <- app_assoc | done | done]).
    + rewrite CreateConfigMap_run. simpl.
      repeat match goal with
             | |- context [match ?x with _ => _ end] => destruct x; simpl
             end;
        (eexists [_; _]; split_and!; [by rewrite <- app_assoc | done | done]).
  - exists []. simpl. rewrite app_nil_r. split_and!; done.
Qed.

Lemma targetOutcomes_attempts sr data sourceType checksum targets w :
  let r := targetOutcomes sr data sourceType checksum targets w in
  ∃ more,
    calls r.2 = calls w ++ more ∧
    (src_Kind (Source (sr_Spec sr)) = KindSecret →
       ∀ t, t ∈ targets → CallGetSecret (targetKeyOf sr t) ∈ more) ∧
    (src_Kind (Source (sr_Spec sr)) ≠ KindSecret →
     src_Kind (Source (sr_Spec sr)) = KindConfigMap →
       ∀ t, t ∈ targets → CallGetConfigMap (targetKeyOf sr t) ∈ more).
Proof.
  revert w. induction targets as [|target rest IH]; intros w r; subst r.
  - exists []. simpl. rewrite app_nil_r. split_and!; try done.
    + intros _ t Ht. by apply elem_of_nil in Ht.
    + intros _ _ t Ht. by apply elem_of_nil in Ht.
  - cbn [targetOutcomes]. unfold mbind, M_bind.
    destruct (syncToTarget_calls sr (tgt_Namespace target) (targetNameOf sr target)
                data sourceType checksum w) as (more1 & Hc1 & Hs1 & Hm1).
    destruct (syncToTarget sr (tgt_Namespace target) (targetNameOf sr target)
                data sourceType checksum w) as [e w1]. simpl in Hc1.
    destruct (IH w1) as (more2 & Hc2 & Hs2 & Hm2).
    destruct (targetOutcomes sr data sourceType checksum rest w1) as [es w2].
    simpl in *. exists (more1 ++ more2). split_and!.
    + by rewrite Hc2, Hc1, app_assoc.
    + intros Hk t [->|Ht]%elem_of_cons; apply elem_of_app.
      * left. specialize (Hs1 Hk). destruct more1; [done|].
        injection Hs1 as ->. apply elem_of_cons. by left.
      * right. by apply Hs2.
    + intros Hk Hk' t [->|Ht]%elem_of_cons; apply elem_of_app.
      * left. specialize (Hm1 Hk Hk'). destruct more1; [done|].
        injection Hm1 as ->. apply elem_of_cons. by left.
      * right. by apply Hm2.
Qed.

Lemma syncAllTargets_run sr data sourceType checksum w :
  syncAllTargets sr data sourceType checksum w =
  let r := targetOutcomes sr data sourceType checksum (Targets (sr_Spec sr)) (tick w) in
  ((zip_with (targetRecord sr (clock w (clockReads w))) (Targets (sr_Spec sr)) r.1,
    allSucceeded r.1), r.2).
Proof.
  unfold syncAllTargets, mbind, M_bind, Now. by rewrite syncTargets_outcomes.
Qed.

Lemma updateStatus_run sr syncedTargets checksum allSynced w :
  updateStatus sr syncedTargets checksum allSynced w =
  let obj := statusAfterSync sr syncedTargets checksum allSynced
               (clock w (clockReads w)) (clock w (S (clockReads w))) in
  let r := UpdateStatus obj (tick (tick w)) in
  ((emptyResult, r.1), r.2).
Proof.
  unfold updateStatus, mbind, M_bind, Now. cbn zeta. simpl.
  destruct (UpdateStatus _ _) as [[e|] w']; reflexivity.
Qed.

Lemma syncAndReport_run sr sourceData sourceType w :
  syncAndReport sr sourceData sourceType w =
  let sr1 := setCondition (clock w (clockReads w)) sr ConditionTypeSourceFound
               ConditionTrue "SourceExists" "Source resource found" in
  let checksum := computeChecksum (filterData sourceData (SyncPolicy (sr_Spec sr))) in
  let o := targetOutcomes sr1 (filterData sourceData (SyncPolicy (sr_Spec sr)))
             sourceType checksum (Targets (sr_Spec sr)) (tick (tick w)) in
  updateStatus sr1
    (zip_with (targetRecord sr (clock w (S (clockReads w)))) (Targets (sr_Spec sr)) o.1)
    checksum (allSucceeded o.1) o.2.
Proof.
  unfold syncAndReport, mbind, M_bind, Now. rewrite syncAllTargets_run. reflexivity.
Qed.

Lemma Reconcile_source_resolved req w sr sourceData sourceType w2 :
  faults w (length (calls w)) = None →
  sharedResources w !! req = Some sr →
  sr_DeletionTimestamp sr = None →
  FinalizerName ∈ sr_Finalizers sr →
  fetchSourceResource sr (logCall (CallGetSharedResource req) w)
    = ((sourceData, sourceType, None), w2) →
  Reconcile req w = syncAndReport sr sourceData sourceType w2.
Proof.
  intros Hf Hsr Hdel Hfin Hfetch.
  unfold Reconcile, mbind, M_bind. rewrite GetSharedResource_run, Hf, Hsr.
  rewrite decide_False by (rewrite Hdel; intros H; by apply H).
  unfold ContainsFinalizer. rewrite bool_decide_eq_true_2 by done. simpl.
  rewrite Hfetch. reflexivity.
Qed.

Lemma statusAfterSync_spec sr syncedTargets checksum allSynced now now' :
  let obj := statusAfterSync sr syncedTargets checksum allSynced now now' in
  sharedResourceKey obj = sharedResourceKey sr ∧
  SyncedTargets (sr_Status obj) = syncedTargets ∧
  SourceChecksum (sr_Status obj) = checksum ∧
  LastSyncTime (sr_Status obj)
    = (if allSynced then Some now else LastSyncTime (sr_Status sr)) ∧
  (∃ c, c ∈ Conditions (sr_Status obj) ∧ cond_Type c = ConditionTypeReady ∧
        cond_Status c = (if allSynced then ConditionTrue else ConditionFalse) ∧
        cond_Reason c = (if allSynced then "SyncSuccessful" else "SyncFailed")) ∧
  (NoDup (cond_Type <$> Conditions (sr_Status sr)) →
   ∀ c, c ∈ Conditions (sr_Status obj) → cond_Type c = ConditionTypeReady →
        cond_Status c = (if allSynced then ConditionTrue else ConditionFalse)).
Proof.
  intros obj. subst obj. unfold statusAfterSync.
  destruct allSynced; simpl; (split_and!; try done).
  - destruct (setConditions_sets now' (Conditions (sr_Status sr)) ConditionTypeReady
                ConditionTrue "SyncSuccessful" "All targets synced successfully")
      as [(c & Hc) _]. exists c. tauto.
  - intros Hnd c Hc Hty.
    by apply (setConditions_sets now' (Conditions (sr_Status sr)) ConditionTypeReady
                ConditionTrue "SyncSuccessful" "All targets synced successfully").
  - destruct (setConditions_sets now' (Conditions (sr_Status sr)) ConditionTypeReady
                ConditionFalse "SyncFailed" "Some targets failed to sync")
      as [(c & Hc) _]. exists c. tauto.
  - intros Hnd c Hc Hty.
    by apply (setConditions_sets now' (Conditions (sr_Status sr)) ConditionTypeReady
                ConditionFalse "SyncFailed" "Some targets failed to sync").
Qed.

Lemma UpdateStatus_effect obj w :
  let r := UpdateStatus obj w in
  calls r.2 = calls w ++ [CallUpdateStatus obj] ∧
  (r.1 = None →
   sr_Status <$> sharedResources r.2 !! sharedResourceKey obj = Some (sr_Status obj)).
Proof.
  intros r. subst r. rewrite UpdateStatus_run.
  destruct (faults w (length (calls w))); [done|].
  destruct (sharedResources w !! sharedResourceKey obj); [|done].
  split; [done|]. intros _. simpl. by rewrite lookup_insert_eq.
Qed.

(** C6. A pass that resolved its source: the Intent was fetched, is not
    being deleted, carries the finalizer, and [fetchSourceResource]
    returned data.  The outcomes of the per-target syncs, taken in turn
    whatever each one returned, give one status record per declared
    target, in order, and every target is read.  The status object handed
    to the status update holds those records and the checksum; if every
    outcome is nil it has LastSyncTime set to the clock reading and a Ready
    condition that is True (reason SyncSuccessful); otherwise LastSyncTime is
    the fetched one and Ready is False (reason SyncFailed); on a condition
    list with one entry per type, Ready is True exactly when all targets
    succeeded.  That update is the last call; when it is answered, the
    stored status is this one; the Result is empty either way. *)
Theorem reconcile_status_postcondition (req : NamespacedName) (w : World)
    (sr : SharedResource) (sourceData : Bundle) (sourceType : string) (w2 : World) :
  faults w (length (calls w)) = None →
  sharedResources w !! req = Some sr →
  sr_DeletionTimestamp sr = None →
  FinalizerName ∈ sr_Finalizers sr →
  fetchSourceResource sr (logCall (CallGetSharedResource req) w)
    = ((sourceData, sourceType, None), w2) →
  let sr1 := setCondition (clock w2 (clockReads w2)) sr ConditionTypeSourceFound
               ConditionTrue "SourceExists" "Source resource found" in
  let checksum := computeChecksum (filterData sourceData (SyncPolicy (sr_Spec sr))) in
  let outcomes := targetOutcomes sr1 (filterData sourceData (SyncPolicy (sr_Spec sr)))
                    sourceType checksum (Targets (sr_Spec sr)) (tick (tick w2)) in
  let r := Reconcile req w in
  ∃ obj : SharedResource,
    length outcomes.1 = length (Targets (sr_Spec sr)) ∧
    SyncedTargets (sr_Status obj)
      = zip_with (targetRecord sr (clock w2 (S (clockReads w2))))
                 (Targets (sr_Spec sr)) outcomes.1 ∧
    (src_Kind (Source (sr_Spec sr)) = KindSecret →
       ∀ t, t ∈ Targets (sr_Spec sr) →
            CallGetSecret (targetKeyOf sr t) ∈ issuedBetween w2 r.2) ∧
    (src_Kind (Source (sr_Spec sr)) ≠ KindSecret →
     src_Kind (Source (sr_Spec sr)) = KindConfigMap →
       ∀ t, t ∈ Targets (sr_Spec sr) →
            CallGetConfigMap (targetKeyOf sr t) ∈ issuedBetween w2 r.2) ∧
    SourceChecksum (sr_Status obj) = checksum ∧
    (Forall (fun e => e = None) outcomes.1 →
       LastSyncTime (sr_Status obj) = Some (clock outcomes.2 (clockReads outcomes.2)) ∧
       ∃ c, c ∈ Conditions (sr_Status obj) ∧ cond_Type c = ConditionTypeReady ∧
            cond_Status c = ConditionTrue ∧ cond_Reason c = "SyncSuccessful") ∧
    (¬ Forall (fun e => e = None) outcomes.1 →
       LastSyncTime (sr_Status obj) = LastSyncTime (sr_Status sr) ∧
       ∃ c, c ∈ Conditions (sr_Status obj) ∧ cond_Type c = ConditionTypeReady ∧
            cond_Status c = ConditionFalse ∧ cond_Reason c = "SyncFailed") ∧
    (NoDup (cond_Type <$> Conditions (sr_Status sr)) →
       ∀ c, c ∈ Conditions (sr_Status obj) → cond_Type c = ConditionTypeReady →
            (cond_Status c = ConditionTrue ↔ Forall (fun e => e = None) outcomes.1)) ∧
    last (calls r.2) = Some (CallUpdateStatus obj) ∧
    r.1.1 = emptyResult ∧
    (r.1.2 = None →
       sr_Status <$> sharedResources r.2 !! sharedResourceKey sr = Some (sr_Status obj)).
Proof.
  intros Hf Hsr Hdel Hfin Hfetch sr1 checksum outcomes r.
  assert (Hr : r = syncAndReport sr sourceData sourceType w2)
    by (by apply Reconcile_source_resolved).
  rewrite syncAndReport_run in Hr. cbn zeta in Hr. fold sr1 checksum outcomes in Hr.
  rewrite updateStatus_run in Hr. cbn zeta in Hr.
  pose proof (targetOutcomes_length sr1 (filterData sourceData (SyncPolicy (sr_Spec sr)))
                sourceType checksum (Targets (sr_Spec sr)) (tick (tick w2))) as Hlen.
  destruct (targetOutcomes_attempts sr1 (filterData sourceData (SyncPolicy (sr_Spec sr)))
              sourceType checksum (Targets (sr_Spec sr)) (tick (tick w2)))
    as (more & Hcalls & HgetS & HgetC).
  fold outcomes in Hlen, Hcalls. change (calls (tick (tick w2))) with (calls w2) in Hcalls.
  set (records := zip_with (targetRecord sr (clock w2 (S (clockReads w2))))
                           (Targets (sr_Spec sr)) outcomes.1) in *.
  set (obj := statusAfterSync sr1 records checksum (allSucceeded outcomes.1)
                (clock outcomes.2 (clockReads outcomes.2))
                (clock outcomes.2 (S (clockReads outcomes.2)))) in *.
  destruct (statusAfterSync_spec sr1 records checksum (allSucceeded outcomes.1)
              (clock outcomes.2 (clockReads outcomes.2))
              (clock outcomes.2 (S (clockReads outcomes.2))))
    as (Hkey & Hrec & Hsum & Hlast & Hready & Huniq).
  fold obj in Hkey, Hrec, Hsum, Hlast, Hready, Huniq.
  destruct (UpdateStatus_effect obj (tick (tick outcomes.2))) as (Hc3 & Hstored).
  change (calls (tick (tick outcomes.2))) with (calls outcomes.2) in Hc3.
  assert (Hall : calls r.2 = calls w2 ++ more ++ [CallUpdateStatus obj]).
  { rewrite Hr. simpl. by rewrite Hc3, Hcalls, app_assoc. }
  exists obj. split_and!; try done.
  - intros Hk t Ht. rewrite (issuedBetween_app _ _ _ Hall).
    apply elem_of_app. left. by apply (HgetS Hk).
  - intros Hk Hk' t Ht. rewrite (issuedBetween_app _ _ _ Hall).
    apply elem_of_app. left. by apply (HgetC Hk Hk').
  - intros Hok. apply allSucceeded_Forall in Hok. rewrite Hok in Hlast, Hready.
    split; [done|]. destruct Hready as (c & ?). exists c. tauto.
  - intros Hko. assert (allSucceeded outcomes.1 = false) as Hb.
    { destruct (allSucceeded outcomes.1) eqn:E; [|done].
      by apply allSucceeded_Forall in E. }
    rewrite Hb in Hlast, Hready. split; [done|].
    destruct Hready as (c & ?). exists c. tauto.
  - intros Hnd c Hc Hty.
    assert (Hnd1 : NoDup (cond_Type <$> Conditions (sr_Status sr1)))
      by (by apply setConditions_NoDup).
    rewrite (Huniq Hnd1 c Hc Hty), <- allSucceeded_Forall.
    destruct (allSucceeded outcomes.1); split; done.
  - by rewrite Hall, app_assoc, last_snoc.
  - by rewrite Hr.
  - rewrite Hr. simpl. intros Hnil.
    change (sharedResourceKey sr) with (sharedResourceKey sr1).
    rewrite <- Hkey. by apply Hstored.
Qed.

Lemma partialFailureWorld_source_resolved :
  fetchSourceResource demoIntent
    (logCall (CallGetSharedResource ("shared", "sync-db")) partialFailureWorld)
  = ((credentials, "Opaque", None),
     logCall (CallGetSecret ("shared", "db-credentials"))
       (logCall (CallGetSharedResource ("shared", "sync-db")) partialFailureWorld)).
Proof.
  unfold fetchSourceResource. rewrite decide_True by done.
  unfold mbind, M_bind. rewrite GetSecret_run. reflexivity.
Qed.

Lemma reconcile_status_postcondition_witness :
  ∃ obj : SharedResource,
    SourceChecksum (sr_Status obj) = computeChecksum (filterData credentials None) ∧
    last (calls (Reconcile ("shared", "sync-db") partialFailureWorld).2)
      = Some (CallUpdateStatus obj).
Proof.
  destruct (reconcile_status_postcondition ("shared", "sync-db") partialFailureWorld
              demoIntent credentials "Opaque" _
              eq_refl eq_refl eq_refl
              (proj2 (list_elem_of_singleton FinalizerName FinalizerName) eq_refl)
              partialFailureWorld_source_resolved)
    as (obj & _ & _ & _ & _ & Hsum & _ & _ & _ & Hlast & _).
  exists obj. split; [exact Hsum | exact Hlast].
Defined.

Example reconcile_partial_failure :
  let r := Reconcile ("shared", "sync-db") partialFailureWorld in
  let status := sr_Status <$> sharedResources r.2 !! ("shared", "sync-db") in
  r.1 = (emptyResult, None) ∧
  (SyncedTargets <$> status)
    = Some [ {| tss_Namespace := "backend"; tss_Name := "db-credentials";
                tss_Synced := false; tss_LastSynced := 0; tss_Error := "forbidden" |};
             {| tss_Namespace := "jobs"; tss_Name := "database-creds";
                tss_Synced := true; tss_LastSynced := 1700000001; tss_Error := "" |} ] ∧
  (LastSyncTime <$> status) = Some (LastSyncTime (sr_Status demoIntent)) ∧
  (Conditions <$> status)
    = Some [ newCondition 10 "SourceFound" ConditionTrue "SourceExists"
                          "Source resource found";
             newCondition 1700000005 "Ready" ConditionFalse "SyncFailed"
                          "Some targets failed to sync" ] ∧
  secrets r.2 !! ("backend", "db-credentials") = None ∧
  (sec_Data <$> secrets r.2 !! ("jobs", "database-creds")) = Some credentials.
Proof. cbv zeta. split_and!; vm_compute; reflexivity. Qed.

Example reconcile_all_synced :
  let r := Reconcile ("shared", "sync-db") demoWorld in
  let status := sr_Status <$> sharedResources r.2 !! ("shared", "sync-db") in
  r.1 = (emptyResult, None) ∧
  (map tss_Synced <$> (SyncedTargets <$> status)) = Some [true; true] ∧
  (LastSyncTime <$> status) = Some (Some 1700000004) ∧
  (Conditions <$> status)
    = Some [ newCondition 10 "SourceFound" ConditionTrue "SourceExists"
                          "Source resource found";
             newCondition 10 "Ready" ConditionTrue "SyncSuccessful"
                          "All targets synced successfully" ] ∧
  (sec_Data <$> secrets r.2 !! ("backend", "db-credentials")) = Some credentials ∧
  (sec_Annotations <$> secrets r.2 !! ("backend", "db-credentials"))
    = Some (trackingAnnotations demoIntent (computeChecksum credentials) 1700000002).
Proof. cbv zeta. split_and!; vm_compute; reflexivity. Qed.

(** The selective scenario of the README: only the included key arrives. *)
Example reconcile_selective :
  let intent :=
    {| sr_Namespace := "shared"; sr_Name := "sync-db";
       sr_DeletionTimestamp := None; sr_Finalizers := [FinalizerName];
       sr_Spec := {| Source := Source (sr_Spec demoIntent);
                     Targets := [ {| tgt_Namespace := "backend"; tgt_Name := "" |} ];
                     SyncPolicy := Some {| Mode := SyncModeSelective;
                                           Keys := Some {| Include := ["username"];
                                                           Exclude := [] |} |};
                     DeletionPolicy := "" |};
       sr_Status := {| Conditions := []; SyncedTargets := []; LastSyncTime := None;
                       SourceChecksum := "" |} |} in
  let r := Reconcile ("shared", "sync-db") (cluster [sourceSecret] [] [intent] noFaults) in
  (sec_Data <$> secrets r.2 !! ("backend", "db-credentials"))
    = Some {[ "username" := String.list_byte_of_string "admin" ]}.
Proof. vm_compute. reflexivity. Qed.

(** A source that is missing: SourceFound and Ready turn False, with a
    re-check after 30 seconds. *)
Example reconcile_source_missing :
  let r := Reconcile ("shared", "sync-db") (cluster [] [] [demoIntent] noFaults) in
  r.1 = ({| Requeue := false; RequeueAfter := 30 * Second |}, None) ∧
  (map (fun c => (cond_Type c, cond_Status c, cond_Reason c)) <$>
     (Conditions <$> (sr_Status <$> sharedResources r.2 !! ("shared", "sync-db"))))
    = Some [ ("SourceFound", ConditionFalse, "SourceNotFound");
             ("Ready", ConditionFalse, "SourceNotFound") ].
Proof. cbv zeta. split_and!; vm_compute; reflexivity. Qed.

(** An Intent without the finalizer is registered first and requeued. *)
Example reconcile_adds_finalizer :
  let r := Reconcile ("shared", "sync-db")
             (cluster [sourceSecret] [] [withFinalizers demoIntent []] noFaults) in
  r.1 = ({| Requeue := true; RequeueAfter := 0 |}, None) ∧
  (sr_Finalizers <$> sharedResources r.2 !! ("shared", "sync-db"))
    = Some [FinalizerName] ∧
  secrets r.2 !! ("backend", "db-credentials") = None.
Proof. cbv zeta. split_and!; vm_compute; reflexivity. Qed.

(** Two bundles that are not the same and hash alike: the lines of the hash
    input do not tell a newline inside a value from the end of an entry. *)
Example checksum_line_ambiguity :
  joinedBundle ≠ sec_Data splitTarget ∧
  checksumInput joinedBundle = checksumInput (sec_Data splitTarget) ∧
  computeChecksum joinedBundle = computeChecksum (sec_Data splitTarget).
Proof.
  split_and!; [|vm_compute; reflexivity..].
  intros H. apply (f_equal (fun m => m !! "c")) in H. vm_compute in H. discriminate H.
Qed.

(** On such a pair the copy-mode sync takes the target for up to date and
    leaves it as it is. *)
Example sync_skips_target_that_hashes_alike :
  let r := syncSecret ("backend", "db-credentials") joinedBundle "Opaque"
                      demoAnnotations "copy"
                      (cluster [splitTarget] [] [] noFaults) in
  r.1 = None ∧ length (writes r.2) = 0%nat ∧
  secrets r.2 !! ("backend", "db-credentials") = Some splitTarget.
Proof. cbv zeta. split_and!; vm_compute; reflexivity. Qed.

(** C2. Copy mode does not always leave the bundle on the target.  The
    target holds the keys a and c, the bundle only the key a, with a value
    that spells the target's two lines.  The data wanted in copy mode is
    the bundle, without the key c; but the two checksums agree, since
    [computeChecksum] hashes the lines key "=" value newline without
    marking where a value ends, and [syncSecret] returns nil with no write:
    the target keeps the key c and the old value of a. *)
Theorem copy_mode_keeps_key_when_hashes_agree :
  let targetKey := ("backend", "db-credentials") in
  let w := cluster [splitTarget] [] [] noFaults in
  let r := syncSecret targetKey joinedBundle "Opaque" demoAnnotations "copy" w in
  secrets w !! targetKey = Some splitTarget ∧
  desiredData "copy" (sec_Data splitTarget) joinedBundle = joinedBundle ∧
  joinedBundle !! "c" = None ∧
  sec_Data splitTarget !! "c" = Some (String.list_byte_of_string "d") ∧
  sec_Data splitTarget !! "a" ≠ joinedBundle !! "a" ∧
  computeChecksum (sec_Data splitTarget) = computeChecksum joinedBundle ∧
  r.1 = None ∧
  issuedBetween w r.2 = [CallGetSecret targetKey] ∧
  secrets r.2 !! targetKey = Some splitTarget.
Proof.
  cbv zeta. split_and!; try (vm_compute; reflexivity).
  intros H. vm_compute in H. discriminate H.
Qed.

(** * Further properties of the code *)


(** * Further properties of the code *)

(** ** helpers.go *)

Lemma filterData_cases (data : Bundle) (policy : option SyncPolicySpec) :
  filterData data policy = data ∨
  ∃ p ks, policy = Some p ∧ keySelected p ∧ Keys p = Some ks.
Proof.
  destruct policy as [p|]; [|by left]. unfold filterData.
  case_decide as Hm; [by left|].
  destruct (Keys p) as [ks|] eqn:Hk; [|by left].
  right. exists p, ks. split; [done|]. split; [|done].
  split; intros ?; apply Hm; tauto.
Qed.

(** X1. Whatever the policy, [filterData] only selects: every pair of the
    result is a pair of the bundle, with its value unchanged. *)
Theorem filterData_sub_bundle (data : Bundle) (policy : option SyncPolicySpec) :
  filterData data policy ⊆ data.
Proof.
  apply map_subseteq_spec. intros k v.
  destruct (filterData_cases data policy) as [->|(p & ks & -> & Hsel & Hk)]; [done|].
  rewrite (filterData_lookup data p ks k Hsel Hk). repeat case_decide; done.
Qed.

(** X2. Filtering twice with the same policy is filtering once. *)
Theorem filterData_idempotent (data : Bundle) (policy : option SyncPolicySpec) :
  filterData (filterData data policy) policy = filterData data policy.
Proof.
  destruct (filterData_cases data policy) as [Heq|(p & ks & -> & Hsel & Hk)].
  - by rewrite !Heq.
  - apply map_eq; intros k.
    rewrite (filterData_lookup _ p ks k Hsel Hk).
    rewrite (filterData_lookup data p ks k Hsel Hk). repeat case_decide; done.
Qed.

(** X3. Which policies filter: without a policy, with an empty mode or mode
    "copy" (even when a key selector is given), or without a key selector,
    the bundle comes back as it is; in every other mode, "merge" included,
    the selector is applied, include first and exclude after. *)
Theorem filterData_by_mode (data : Bundle) :
  filterData data None = data ∧
  (∀ p, Mode p = "" ∨ Mode p = SyncModeCopy ∨ Keys p = None →
        filterData data (Some p) = data) ∧
  (∀ p ks, Mode p ≠ "" → Mode p ≠ SyncModeCopy → Keys p = Some ks →
           filterData data (Some p) = filterSpec data ks ∧
           ∀ k, k ∈ Exclude ks → filterData data (Some p) !! k = None).
Proof.
  split_and!; [done| |].
  - intros p Hp. unfold filterData. case_decide as Hm; [done|].
    destruct Hp as [?|[?|Hk]]; [tauto..|]. by rewrite Hk.
  - intros p ks H1 H2 Hk.
    assert (Hl := fun k => filterData_lookup data p ks k (conj H1 H2) Hk). split.
    + apply map_eq; intros k. by rewrite Hl, filterSpec_lookup.
    + intros k Hin. rewrite Hl. by rewrite decide_True.
Qed.

Lemma filterData_by_mode_witness :
  filterData demoBundle (Some mergeWithKeys) = filterSpec demoBundle demoSelector.
Proof.
  exact (proj1 (proj2 (proj2 (filterData_by_mode demoBundle)) mergeWithKeys demoSelector
                  ltac:(done) ltac:(done) eq_refl)).
Defined.

Lemma withReasonMessage_same c :
  withReasonMessage c (cond_Reason c) (cond_Message c) = c.
Proof. by destruct c. Qed.

Lemma setConditionLoop_middle pre c post condition :
  (∀ x, x ∈ pre → cond_Type x ≠ cond_Type condition) →
  cond_Type c = cond_Type condition →
  setConditionLoop (pre ++ c :: post) condition =
  Some (pre ++ (if decide (cond_Status c ≠ cond_Status condition) then condition
                else withReasonMessage c (cond_Reason condition)
                                       (cond_Message condition)) :: post).
Proof.
  intros Hpre Hc. induction pre as [|x pre IH]; simpl.
  - rewrite decide_True by done. by case_decide.
  - rewrite decide_False by (apply Hpre, elem_of_cons; by left).
    rewrite IH; [done|]. intros y Hy. apply Hpre, elem_of_cons. by right.
Qed.

Lemma setConditions_shape now conds condType status reason message :
  ∃ pre c post,
    setConditions now conds condType status reason message = pre ++ c :: post ∧
    (∀ x, x ∈ pre → cond_Type x ≠ condType) ∧
    cond_Type c = condType ∧ cond_Status c = status ∧
    cond_Reason c = reason ∧ cond_Message c = message.
Proof.
  unfold setConditions.
  set (condition := newCondition now condType status reason message).
  destruct (setConditionLoop conds condition) as [r|] eqn:Hloop.
  - apply setConditionLoop_Some in Hloop as (pre & c & post & -> & Hpre & Hc & ->).
    simpl in Hc, Hpre. eexists pre, _, post. split; [reflexivity|].
    split; [done|]. case_decide as Hst; simpl; [done|].
    split_and!; try done; by apply dec_stable in Hst.
  - pose proof (proj1 (setConditionLoop_None _ _) Hloop) as Hnone.
    exists conds, condition, []. split_and!; done.
Qed.

Lemma setConditions_again now now' conds condType status reason message :
  setConditions now' (setConditions now conds condType status reason message)
                condType status reason message
  = setConditions now conds condType status reason message.
Proof.
  destruct (setConditions_shape now conds condType status reason message)
    as (pre & c & post & -> & Hpre & Hty & Hst & Hre & Hme).
  unfold setConditions.
  rewrite (setConditionLoop_middle pre c post) by done.
  rewrite decide_False by (simpl; rewrite Hst; intros H; by apply H).
  simpl. by rewrite <- Hre, <- Hme, withReasonMessage_same.
Qed.

(** X4. Setting the same condition again, at any later time, changes
    nothing: the transition time of the first call stays. *)
Theorem setCondition_again_keeps_time (now now' : Time) (sr : SharedResource)
    (condType : string) (status : ConditionStatus) (reason message : string) :
  setCondition now' (setCondition now sr condType status reason message)
               condType status reason message
  = setCondition now sr condType status reason message.
Proof.
  unfold setCondition at 1 3. unfold withConditions. simpl.
  by rewrite setConditions_again.
Qed.

Lemma sha256_rounds_length ks st :
  ks ≠ [] → length (fold_left SHA256.round ks st).1 = 8%nat.
Proof.
  intros Hks. destruct ks as [|k ks _] using rev_ind; [done|].
  rewrite fold_left_app. simpl.
  by destruct (fold_left SHA256.round ks st) as [v w].
Qed.

Lemma sha256_K_nonempty : SHA256.K ≠ [].
Proof.
  intros H. apply (f_equal length) in H. unfold SHA256.K in H.
  rewrite length_map in H. discriminate H.
Qed.

Lemma sha256_compress_length h block :
  length h = 8%nat → length (SHA256.compress h block) = 8%nat.
Proof.
  intros Hh. unfold SHA256.compress.
  pose proof (sha256_rounds_length SHA256.K (h, SHA256.be_words 16 block)
                sha256_K_nonempty) as Hv.
  destruct (fold_left SHA256.round SHA256.K (h, SHA256.be_words 16 block)) as [v w].
  simpl in Hv. rewrite length_map, length_combine. lia.
Qed.

Lemma sha256_blocks_length n h bs :
  length h = 8%nat → length (SHA256.blocks n h bs) = 8%nat.
Proof.
  revert h bs. induction n as [|n IH]; intros h bs Hh; simpl; [done|].
  by apply IH, sha256_compress_length.
Qed.

Lemma sha256_sum_length msg : length (SHA256.sum msg) = 32%nat.
Proof.
  unfold SHA256.sum.
  assert (Hh : length SHA256.H0 = 8%nat)
    by (unfold SHA256.H0; rewrite length_map; reflexivity).
  pose proof (sha256_blocks_length
                (length (SHA256.pad (map SHA256.Z_of_byte msg)) / 64) SHA256.H0
                (SHA256.pad (map SHA256.Z_of_byte msg)) Hh) as Hlen.
  destruct (SHA256.blocks _ _ _) as [|a [|b [|c [|d [|e [|f [|g [|i [|? ?]]]]]]]]];
    try discriminate Hlen.
  rewrite length_map. reflexivity.
Qed.

Lemma hex_digit_lower n : isLowerHex (Hex.digit n).
Proof.
  unfold Hex.digit, isLowerHex.
  set (digits := ["0";"1";"2";"3";"4";"5";"6";"7";"8";"9";"a";"b";"c";"d";"e";"f"]%char).
  destruct (decide (Z.to_nat n < length digits)%nat) as [Hlt|Hge].
  - apply list_elem_of_In, nth_In. exact Hlt.
  - rewrite nth_overflow by lia. apply elem_of_cons. by left.
Qed.

Lemma hex_EncodeToString_format bs :
  String.length (Hex.EncodeToString bs) = (2 * length bs)%nat ∧
  Forall isLowerHex (String.list_ascii_of_string (Hex.EncodeToString bs)).
Proof.
  induction bs as [|b bs [IHl IHf]]; simpl; [by split|].
  split; [lia|]. repeat (apply Forall_cons; split; [apply hex_digit_lower|]). done.
Qed.

(** X5. A checksum is always 64 characters long and written with the
    digits 0-9 and the letters a-f only, whatever the bundle. *)
Theorem computeChecksum_format (data : Bundle) :
  String.length (computeChecksum data) = 64%nat ∧
  Forall isLowerHex (String.list_ascii_of_string (computeChecksum data)).
Proof.
  unfold computeChecksum, computeChecksumFrom.
  destruct (hex_EncodeToString_format
              (SHA256.sum (checksumInputFrom (rangeMap data).*1 data))) as [Hl Hf].
  split; [|done]. by rewrite Hl, sha256_sum_length.
Qed.

Lemma toStringData_toByteData (data : gmap string string) :
  toStringData (toByteData data) = data.
Proof.
  rewrite toByteData_fmap, toStringData_fmap, <- map_fmap_compose.
  rewrite <- (map_fmap_id data) at 2. apply map_fmap_ext.
  intros k v _. apply String.string_of_list_byte_of_string.
Qed.

(** ** sync.go: what one sync does to the store *)

Lemma storeKeyed_insert_secret (obj : Secret) (w : World) :
  storeKeyed w → storeKeyed (mapSecrets (insert (secretKey obj) obj) w).
Proof.
  intros (Hs & Hc & Hsr). split_and!; try done. simpl.
  by apply map_Forall_insert_2.
Qed.

Lemma storeKeyed_insert_configMap (obj : ConfigMap) (w : World) :
  storeKeyed w → storeKeyed (mapConfigMaps (insert (configMapKey obj) obj) w).
Proof.
  intros (Hs & Hc & Hsr). split_and!; try done. simpl.
  by apply map_Forall_insert_2.
Qed.

(** Everything one call of [syncSecret] can do. *)
Lemma syncSecret_effect targetKey data secretType annotations syncMode w :
  storeKeyed w →
  let r := syncSecret targetKey data secretType annotations syncMode w in
  storeKeyed r.2 ∧ sameEnvironment w r.2 ∧ clockReads r.2 = clockReads w ∧
  sharedResources r.2 = sharedResources w ∧ configMaps r.2 = configMaps w ∧
  (∀ k, k ≠ targetKey → secrets r.2 !! k = secrets w !! k) ∧
  (is_Some (secrets w !! targetKey) → is_Some (secrets r.2 !! targetKey)) ∧
  (r.1 ≠ None → secrets r.2 = secrets w) ∧
  ∃ new, calls r.2 = calls w ++ new ∧ Forall (fun c => isSyncCall c = true) new.
Proof.
  intros Hkeyed r. subst r. pose proof Hkeyed as (Hks & _ & _).
  destruct targetKey as [ns name].
  rewrite syncSecret_run. cbn zeta.
  set (w0 := logCall (CallGetSecret (ns, name)) w).
  destruct (faults w (length (calls w))) as [f|].
  { split_and!; try done. exists [CallGetSecret (ns, name)].
    split; [done|]. by repeat constructor. }
  destruct (secrets w !! (ns, name)) as [existing|] eqn:Hex.
  - case_decide as Hsum.
    { split_and!; try done. exists [CallGetSecret (ns, name)].
      split; [done|]. by repeat constructor. }
    match goal with |- context [UpdateSecret ?o] => set (obj := o) end.
    rewrite UpdateSecret_run.
    assert (Hkey : secretKey obj = (ns, name)) by (by rewrite <- (Hks _ _ Hex)).
    rewrite Hkey. change (secrets w0) with (secrets w). rewrite Hex.
    destruct (faults w0 (length (calls w0))) as [f|].
    { split_and!; try done. exists [CallGetSecret (ns, name); CallUpdateSecret obj].
      split; [simpl; by rewrite <- app_assoc|]. by repeat constructor. }
    split_and!; try done.
    + rewrite <- Hkey. by apply storeKeyed_insert_secret.
    + intros k Hk. simpl. by rewrite lookup_insert_ne.
    + intros _. simpl. rewrite lookup_insert_eq. by eexists.
    + exists [CallGetSecret (ns, name); CallUpdateSecret obj].
      split; [simpl; by rewrite <- app_assoc|]. by repeat constructor.
  - match goal with |- context [CreateSecret ?o] => set (obj := o) end.
    rewrite CreateSecret_run.
    change (secretKey obj) with (ns, name).
    change (secrets w0) with (secrets w). rewrite Hex.
    destruct (faults w0 (length (calls w0))) as [f|].
    { split_and!; try done. exists [CallGetSecret (ns, name); CallCreateSecret obj].
      split; [simpl; by rewrite <- app_assoc|]. by repeat constructor. }
    split_and!; try done.
    + by apply (storeKeyed_insert_secret obj).
    + intros k Hk. simpl. by rewrite lookup_insert_ne.
    + exists [CallGetSecret (ns, name); CallCreateSecret obj].
      split; [simpl; by rewrite <- app_assoc|]. by repeat constructor.
Qed.

Lemma syncConfigMap_effect targetKey data annotations syncMode w :
  storeKeyed w →
  let r := syncConfigMap targetKey data annotations syncMode w in
  storeKeyed r.2 ∧ sameEnvironment w r.2 ∧ clockReads r.2 = clockReads w ∧
  sharedResources r.2 = sharedResources w ∧ secrets r.2 = secrets w ∧
  (∀ k, k ≠ targetKey → configMaps r.2 !! k = configMaps w !! k) ∧
  (is_Some (configMaps w !! targetKey) → is_Some (configMaps r.2 !! targetKey)) ∧
  (r.1 ≠ None → configMaps r.2 = configMaps w) ∧
  ∃ new, calls r.2 = calls w ++ new ∧ Forall (fun c => isSyncCall c = true) new.
Proof.
  intros Hkeyed r. subst r. pose proof Hkeyed as (_ & Hkc & _).
  destruct targetKey as [ns name].
  rewrite syncConfigMap_run. cbn zeta.
  set (w0 := logCall (CallGetConfigMap (ns, name)) w).
  destruct (faults w (length (calls w))) as [f|].
  { split_and!; try done. exists [CallGetConfigMap (ns, name)].
    split; [done|]. by repeat constructor. }
  destruct (configMaps w !! (ns, name)) as [existing|] eqn:Hex.
  - case_decide as Hsum.
    { split_and!; try done. exists [CallGetConfigMap (ns, name)].
      split; [done|]. by repeat constructor. }
    match goal with |- context [UpdateConfigMap ?o] => set (obj := o) end.
    rewrite UpdateConfigMap_run.
    assert (Hkey : configMapKey obj = (ns, name)) by (by rewrite <- (Hkc _ _ Hex)).
    rewrite Hkey. change (configMaps w0) with (configMaps w). rewrite Hex.
    destruct (faults w0 (length (calls w0))) as [f|].
    { split_and!; try done. exists [CallGetConfigMap (ns, name); CallUpdateConfigMap obj].
      split; [simpl; by rewrite <- app_assoc|]. by repeat constructor. }
    split_and!; try done.
    + rewrite <- Hkey. by apply storeKeyed_insert_configMap.
    + intros k Hk. simpl. by rewrite lookup_insert_ne.
    + intros _. simpl. rewrite lookup_insert_eq. by eexists.
    + exists [CallGetConfigMap (ns, name); CallUpdateConfigMap obj].
      split; [simpl; by rewrite <- app_assoc|]. by repeat constructor.
  - match goal with |- context [CreateConfigMap ?o] => set (obj := o) end.
    rewrite CreateConfigMap_run.
    change (configMapKey obj) with (ns, name).
    change (configMaps w0) with (configMaps w). rewrite Hex.
    destruct (faults w0 (length (calls w0))) as [f|].
    { split_and!; try done. exists [CallGetConfigMap (ns, name); CallCreateConfigMap obj].
      split; [simpl; by rewrite <- app_assoc|]. by repeat constructor. }
    split_and!; try done.
    + by apply (storeKeyed_insert_configMap obj).
    + intros k Hk. simpl. by rewrite lookup_insert_ne.
    + exists [CallGetConfigMap (ns, name); CallCreateConfigMap obj].
      split; [simpl; by rewrite <- app_assoc|]. by repeat constructor.
Qed.

Lemma syncToTarget_run sr targetNamespace targetName data secretType checksum w :
  syncToTarget sr targetNamespace targetName data secretType checksum w =
  let annotations := trackingAnnotations sr checksum (clock w (clockReads w)) in
  if decide (src_Kind (Source (sr_Spec sr)) = KindSecret) then
    syncSecret (targetNamespace, targetName) data secretType annotations
               (syncModeOf sr) (tick w)
  else if decide (src_Kind (Source (sr_Spec sr)) = KindConfigMap) then
    syncConfigMap (targetNamespace, targetName) data annotations (syncModeOf sr) (tick w)
  else
    (Some (Errorf ("unsupported source kind: " +:+ src_Kind (Source (sr_Spec sr)))),
     tick w).
Proof. unfold syncToTarget, mbind, M_bind, Now. cbn zeta. by repeat case_decide. Qed.

(** X6. An absent target is created, whatever the mode: a Secret with the
    bundle as its data, the type it was given and the tracking markers; a
    ConfigMap with the bundle read as strings, which read back as bytes is
    the bundle again. *)
Theorem syncToTarget_creates (sr : SharedResource) (ns name : string) (data : Bundle)
    (secretType checksum : string) (w : World) :
  faults w (length (calls w)) = None →
  faults w (S (length (calls w))) = None →
  let r := syncToTarget sr ns name data secretType checksum w in
  let markers := trackingAnnotations sr checksum (clock w (clockReads w)) in
  (src_Kind (Source (sr_Spec sr)) = KindSecret → secrets w !! (ns, name) = None →
     r.1 = None ∧ configMaps r.2 = configMaps w ∧
     secrets r.2 = <[(ns, name) := {| sec_Namespace := ns; sec_Name := name;
                                      sec_Annotations := markers;
                                      sec_Type := secretType;
                                      sec_Data := data |}]> (secrets w)) ∧
  (src_Kind (Source (sr_Spec sr)) = KindConfigMap → configMaps w !! (ns, name) = None →
     r.1 = None ∧ secrets r.2 = secrets w ∧
     ∃ created, configMaps r.2 = <[(ns, name) := created]> (configMaps w) ∧
                cm_Namespace created = ns ∧ cm_Name created = name ∧
                cm_Annotations created = markers ∧
                toByteData (cm_Data created) = data).
Proof.
  intros Hf0 Hf1 r markers. subst r. rewrite syncToTarget_run. cbn zeta. split.
  - intros Hk Habs. rewrite decide_True by done.
    rewrite syncSecret_run. cbn zeta.
    change (faults (tick w)) with (faults w). change (calls (tick w)) with (calls w).
    change (secrets (tick w)) with (secrets w). rewrite Hf0, Habs.
    rewrite CreateSecret_run. simpl.
    rewrite length_app, Nat.add_1_r, Hf1. unfold secretKey. simpl. rewrite Habs.
    done.
  - intros Hk Habs. rewrite decide_False by (rewrite Hk; done).
    rewrite decide_True by done.
    rewrite syncConfigMap_run. cbn zeta.
    change (faults (tick w)) with (faults w). change (calls (tick w)) with (calls w).
    change (configMaps (tick w)) with (configMaps w). rewrite Hf0, Habs.
    rewrite CreateConfigMap_run. simpl.
    rewrite length_app, Nat.add_1_r, Hf1. unfold configMapKey. simpl. rewrite Habs.
    split_and!; try done. eexists. split; [reflexivity|]. simpl.
    split_and!; try done. apply toByteData_toStringData.
Qed.

Lemma syncSecret_error_same targetKey data secretType annotations syncMode w :
  (syncSecret targetKey data secretType annotations syncMode w).1 ≠ None →
  sameObjects w (syncSecret targetKey data secretType annotations syncMode w).2.
Proof.
  rewrite syncSecret_run. cbn zeta.
  destruct (faults w (length (calls w))); [done|].
  destruct (secrets w !! targetKey).
  - case_decide; [done|]. rewrite UpdateSecret_run.
    destruct (faults _ _); [done|]. by destruct (secrets _ !! _).
  - rewrite CreateSecret_run.
    destruct (faults _ _); [done|]. by destruct (secrets _ !! _).
Qed.

Lemma syncConfigMap_error_same targetKey data annotations syncMode w :
  (syncConfigMap targetKey data annotations syncMode w).1 ≠ None →
  sameObjects w (syncConfigMap targetKey data annotations syncMode w).2.
Proof.
  rewrite syncConfigMap_run. cbn zeta.
  destruct (faults w (length (calls w))); [done|].
  destruct (configMaps w !! targetKey).
  - case_decide; [done|]. rewrite UpdateConfigMap_run.
    destruct (faults _ _); [done|]. by destruct (configMaps _ !! _).
  - rewrite CreateConfigMap_run.
    destruct (faults _ _); [done|]. by destruct (configMaps _ !! _).
Qed.

Lemma syncToTarget_error_same sr ns name data secretType checksum w :
  (syncToTarget sr ns name data secretType checksum w).1 ≠ None →
  sameObjects w (syncToTarget sr ns name data secretType checksum w).2.
Proof.
  rewrite syncToTarget_run. cbn zeta. repeat case_decide; [| |done].
  - intros Herr. by apply syncSecret_error_same in Herr.
  - intros Herr. by apply syncConfigMap_error_same in Herr.
Qed.

(** X7. A sync of one target that returns an error has changed nothing:
    every Secret, ConfigMap and Intent is stored as before, whichever call
    failed and whatever the kind. *)
Theorem sync_failure_changes_nothing (sr : SharedResource) (ns name : string)
    (data : Bundle) (secretType checksum : string) (w : World) :
  let r := syncToTarget sr ns name data secretType checksum w in
  r.1 ≠ None → sameObjects w r.2.
Proof. intros r. subst r. apply syncToTarget_error_same. Qed.

Lemma sync_failure_changes_nothing_witness :
  sameObjects (cluster [sourceSecret] [] [demoIntent] secondCallFails)
    (syncToTarget demoIntent "backend" "db-credentials" credentials "Opaque"
       (computeChecksum credentials)
       (cluster [sourceSecret] [] [demoIntent] secondCallFails)).2.
Proof.
  apply (sync_failure_changes_nothing demoIntent "backend" "db-credentials" credentials
           "Opaque" (computeChecksum credentials)
           (cluster [sourceSecret] [] [demoIntent] secondCallFails)).
  rewrite syncToTarget_run. cbn zeta. rewrite decide_True by done.
  rewrite syncSecret_run. cbn zeta. simpl. rewrite CreateSecret_run. simpl. done.
Defined.

Lemma syncToTarget_creates_witness :
  (syncToTarget demoIntent "backend" "db-credentials" credentials "Opaque"
     (computeChecksum credentials) demoWorld).1 = None.
Proof.
  exact (proj1 (proj1 (syncToTarget_creates demoIntent "backend" "db-credentials"
                         credentials "Opaque" (computeChecksum credentials) demoWorld
                         eq_refl eq_refl) eq_refl eq_refl)).
Defined.

(** X8. An update of a found target keeps what the sync does not own:
    the object stays under its name, every annotation whose key is not
    among the given ones keeps its value, the given ones are set; a Secret
    gets the given type. *)
Theorem sync_update_keeps_foreign_annotations :
  (∀ targetKey data secretType annotations syncMode w existing,
      storeKeyed w →
      secrets w !! targetKey = Some existing →
      faults w (length (calls w)) = None → faults w (S (length (calls w))) = None →
      computeChecksum (sec_Data existing)
        ≠ computeChecksum (desiredData syncMode (sec_Data existing) data) →
      ∃ stored,
        secrets (syncSecret targetKey data secretType annotations syncMode w).2
          !! targetKey = Some stored ∧
        secretKey stored = targetKey ∧ sec_Type stored = secretType ∧
        (∀ k v, annotations !! k = Some v → sec_Annotations stored !! k = Some v) ∧
        (∀ k, annotations !! k = None →
              sec_Annotations stored !! k = sec_Annotations existing !! k)) ∧
  (∀ targetKey data annotations syncMode w existing,
      storeKeyed w →
      configMaps w !! targetKey = Some existing →
      faults w (length (calls w)) = None → faults w (S (length (calls w))) = None →
      computeChecksum (toByteData (cm_Data existing))
        ≠ computeChecksum (toByteData
            (desiredData syncMode (cm_Data existing) (toStringData data))) →
      ∃ stored,
        configMaps (syncConfigMap targetKey data annotations syncMode w).2
          !! targetKey = Some stored ∧
        configMapKey stored = targetKey ∧
        (∀ k v, annotations !! k = Some v → cm_Annotations stored !! k = Some v) ∧
        (∀ k, annotations !! k = None →
              cm_Annotations stored !! k = cm_Annotations existing !! k)).
Proof.
  split.
  - intros targetKey data secretType annotations syncMode w existing
      (Hs & _ & _) Hex Hf0 Hf1 Hsum.
    rewrite syncSecret_run, Hf0, Hex. cbn zeta.
    rewrite decide_False by done.
    match goal with |- context [UpdateSecret ?o] => set (obj := o) end.
    assert (Hkey : secretKey obj = targetKey) by (by rewrite <- (Hs _ _ Hex)).
    rewrite UpdateSecret_run, Hkey. simpl.
    rewrite length_app, Nat.add_1_r, Hf1, Hex. simpl.
    exists obj. rewrite lookup_insert_eq. split_and!; try done.
    + intros k v Hk. simpl. by rewrite copyInto_lookup, Hk.
    + intros k Hk. simpl. by rewrite copyInto_lookup, Hk.
  - intros targetKey data annotations syncMode w existing
      (_ & Hc & _) Hex Hf0 Hf1 Hsum.
    rewrite syncConfigMap_run, Hf0, Hex. cbn zeta.
    rewrite decide_False by done.
    match goal with |- context [UpdateConfigMap ?o] => set (obj := o) end.
    assert (Hkey : configMapKey obj = targetKey) by (by rewrite <- (Hc _ _ Hex)).
    rewrite UpdateConfigMap_run, Hkey. simpl.
    rewrite length_app, Nat.add_1_r, Hf1, Hex. simpl.
    exists obj. rewrite lookup_insert_eq. split_and!; try done.
    + intros k v Hk. simpl. by rewrite copyInto_lookup, Hk.
    + intros k Hk. simpl. by rewrite copyInto_lookup, Hk.
Qed.

Lemma storeKeyed_annotatedWorld : storeKeyed annotatedWorld.
Proof. split_and!; by_computation. Qed.

Lemma annotatedTarget_differs :
  computeChecksum (sec_Data annotatedTarget)
    ≠ computeChecksum (desiredData "copy" (sec_Data annotatedTarget) credentials).
Proof. intros H. vm_compute in H. discriminate H. Qed.

Lemma sync_update_keeps_foreign_annotations_witness :
  ∃ stored,
    secrets (syncSecret ("backend", "db-credentials") credentials "kubernetes.io/tls"
               demoAnnotations "copy" annotatedWorld).2
      !! ("backend", "db-credentials") = Some stored ∧
    sec_Type stored = "kubernetes.io/tls" ∧
    sec_Annotations stored !! "team" = sec_Annotations annotatedTarget !! "team".
Proof.
  destruct (proj1 sync_update_keeps_foreign_annotations
              ("backend", "db-credentials") credentials "kubernetes.io/tls"
              demoAnnotations "copy" annotatedWorld annotatedTarget
              storeKeyed_annotatedWorld eq_refl eq_refl eq_refl annotatedTarget_differs)
    as (stored & Hst & _ & Hty & _ & Hkeep).
  exists stored. split_and!; [exact Hst | exact Hty |].
  apply Hkeep. by_computation.
Defined.

Lemma trackingAnnotations_lookup sr checksum now :
  trackingAnnotations sr checksum now !! AnnotationManagedBy = Some ManagedByValue ∧
  trackingAnnotations sr checksum now !! AnnotationSourceNamespace
    = Some (sr_Namespace sr) ∧
  trackingAnnotations sr checksum now !! AnnotationSourceName
    = Some (src_Name (Source (sr_Spec sr))) ∧
  trackingAnnotations sr checksum now !! AnnotationSourceCR = Some (sr_Name sr) ∧
  trackingAnnotations sr checksum now !! AnnotationChecksum = Some checksum ∧
  trackingAnnotations sr checksum now !! AnnotationLastSynced
    = Some (RFC3339.Format now).
Proof.
  unfold trackingAnnotations.
  split_and!;
    repeat first [ apply lookup_insert_eq
                 | rewrite lookup_insert_ne by by_computation ].
Qed.

(** X9. The markers written by a sync lead back to the Intent: any Secret
    or ConfigMap that carries the tracking markers of an Intent with a
    non-empty namespace and name is taken for a managed target, and its
    change is mapped, without any API call, to exactly that Intent. *)
Theorem tracking_markers_name_the_owner (sr : SharedResource) (checksum : string)
    (now : Time) (w : World) :
  sr_Namespace sr ≠ "" → sr_Name sr ≠ "" →
  (∀ secret : Secret,
      trackingAnnotations sr checksum now ⊆ sec_Annotations secret →
      isManaged (sec_Annotations secret) = true ∧
      findSharedResourcesForSecret secret w = ([(sr_Namespace sr, sr_Name sr)], w)) ∧
  (∀ cm : ConfigMap,
      trackingAnnotations sr checksum now ⊆ cm_Annotations cm →
      isManaged (cm_Annotations cm) = true ∧
      findSharedResourcesForConfigMap cm w = ([(sr_Namespace sr, sr_Name sr)], w)).
Proof.
  intros Hns Hname.
  destruct (trackingAnnotations_lookup sr checksum now) as (Hm & Hsn & _ & Hcr & _).
  assert (Hgen : ∀ annotations kind,
            trackingAnnotations sr checksum now ⊆ annotations →
            annotations !! AnnotationManagedBy = Some ManagedByValue ∧
            isManaged annotations = true ∧
            findSharedResourceForManagedResource annotations kind w
              = ([(sr_Namespace sr, sr_Name sr)], w)).
  { intros annotations kind Hsub.
    pose proof (lookup_weaken _ _ _ _ Hm Hsub) as Hm'.
    pose proof (lookup_weaken _ _ _ _ Hsn Hsub) as Hsn'.
    pose proof (lookup_weaken _ _ _ _ Hcr Hsub) as Hcr'.
    split_and!; [done| by apply isManaged_spec |].
    unfold findSharedResourceForManagedResource. rewrite Hsn', Hcr'. simpl.
    rewrite decide_False by tauto. done. }
  split.
  - intros secret Hsub. destruct (Hgen _ "Secret" Hsub) as (Hm' & Hman & Hfind).
    split; [done|]. unfold findSharedResourcesForSecret.
    rewrite Hm'. by rewrite decide_True.
  - intros cm Hsub. destruct (Hgen _ "ConfigMap" Hsub) as (Hm' & Hman & Hfind).
    split; [done|]. unfold findSharedResourcesForConfigMap.
    rewrite Hm'. by rewrite decide_True.
Qed.

Lemma tracking_markers_name_the_owner_witness :
  findSharedResourcesForSecret managedTarget demoWorld = ([("shared", "sync-db")], demoWorld).
Proof.
  exact (proj2 (proj1 (tracking_markers_name_the_owner demoIntent
                         (computeChecksum credentials) 1700000000 demoWorld
                         ltac:(done) ltac:(done))
                  managedTarget (reflexivity _))).
Defined.

(** ** The passes of [Reconcile] that stop early *)

(** X10. A request whose Intent is gone, or cannot be read, ends the pass
    after that one read: nothing else is called or changed, and the error
    is nil unless the read itself failed. *)
Theorem reconcile_without_intent (req : NamespacedName) (w : World) :
  sharedResources w !! req = None ∨ faults w (length (calls w)) ≠ None →
  let r := Reconcile req w in
  r.1 = (emptyResult, ErrFault <$> faults w (length (calls w))) ∧
  r.2 = logCall (CallGetSharedResource req) w.
Proof.
  intros Hno r. subst r.
  unfold Reconcile, mbind, M_bind. rewrite GetSharedResource_run.
  destruct (faults w (length (calls w))) as [f|] eqn:Hf; [done|].
  destruct Hno as [Hno|Hno]; [|done]. by rewrite Hno.
Qed.

Lemma reconcile_without_intent_witness :
  (Reconcile ("shared", "gone") demoWorld).1 = (emptyResult, None).
Proof.
  exact (proj1 (reconcile_without_intent ("shared", "gone") demoWorld
                  (or_introl eq_refl))).
Defined.

(** X11. An Intent seen without the finalizer gets it and nothing more in
    that pass: the only call after the read is the update that appends the
    finalizer, no source or target is touched, and the pass asks for a
    requeue; if the update fails its error is returned and the Intent is
    stored as before. *)
Theorem reconcile_registers_finalizer (req : NamespacedName) (sr : SharedResource)
    (w : World) :
  storeKeyed w →
  sharedResources w !! req = Some sr →
  faults w (length (calls w)) = None →
  sr_DeletionTimestamp sr = None →
  FinalizerName ∉ sr_Finalizers sr →
  let r := Reconcile req w in
  let registered := withFinalizers sr (sr_Finalizers sr ++ [FinalizerName]) in
  issuedBetween w r.2 = [CallGetSharedResource req; CallUpdateSharedResource registered] ∧
  secrets r.2 = secrets w ∧ configMaps r.2 = configMaps w ∧
  match faults w (S (length (calls w))) with
  | Some f => r.1 = (emptyResult, Some (ErrFault f)) ∧
              sharedResources r.2 = sharedResources w
  | None => r.1 = ({| Requeue := true; RequeueAfter := 0 |}, None) ∧
            sharedResources r.2 = <[req := registered]> (sharedResources w)
  end.
Proof.
  intros (_ & _ & Hk) Hsr Hf Hdel Hfin r registered. subst r.
  pose proof (Hk _ _ Hsr) as Hkey. simpl in Hkey.
  unfold Reconcile, mbind, M_bind. rewrite GetSharedResource_run, Hf, Hsr.
  rewrite decide_False by (rewrite Hdel; intros H; by apply H).
  unfold AddFinalizer, ContainsFinalizer.
  rewrite bool_decide_eq_false_2 by done. cbn [negb].
  fold registered. rewrite UpdateSharedResource_run.
  change (sharedResourceKey registered) with (sharedResourceKey sr).
  rewrite Hkey. simpl. rewrite length_app, Nat.add_1_r.
  unfold issuedBetween.
  destruct (faults w (S (length (calls w)))) as [f|]; simpl.
  - rewrite <- app_assoc, drop_app_length. done.
  - rewrite Hsr. simpl. rewrite <- app_assoc, drop_app_length.
    do 4 (split; [done|]).
    unfold storeSharedResource. subst registered.
    unfold sharedResourceKey, withFinalizers in *. simpl. by rewrite Hdel, Hkey.
Qed.

Lemma storeKeyed_cluster_fresh : storeKeyed (cluster [sourceSecret] [] [freshIntent] noFaults).
Proof. split_and!; by_computation. Qed.

Lemma reconcile_registers_finalizer_witness :
  (Reconcile ("shared", "sync-db") (cluster [sourceSecret] [] [freshIntent] noFaults)).1
    = ({| Requeue := true; RequeueAfter := 0 |}, None).
Proof.
  exact (proj1 (proj2 (proj2 (proj2
           (reconcile_registers_finalizer ("shared", "sync-db") freshIntent
              (cluster [sourceSecret] [] [freshIntent] noFaults)
              storeKeyed_cluster_fresh eq_refl eq_refl eq_refl
              ltac:(by_computation)))))).
Defined.

Lemma fetchSourceResource_fails sr w :
  src_Kind (Source (sr_Spec sr)) = KindSecret ∨
  src_Kind (Source (sr_Spec sr)) = KindConfigMap →
  (faults w (length (calls w)) = None → sourceMissing sr w) ∨
  faults w (length (calls w)) ≠ None →
  fetchSourceResource sr w =
  ((∅, "",
    Some (match faults w (length (calls w)) with
          | Some f => ErrFault f
          | None =>
              ErrNotFound
                (describe (if decide (src_Kind (Source (sr_Spec sr)) = KindSecret)
                           then "secrets" else "configmaps")
                   (sr_Namespace sr, src_Name (Source (sr_Spec sr))))
          end)), logCall (sourceRead sr) w).
Proof.
  intros Hkind Hwhy. unfold fetchSourceResource, sourceRead, mbind, M_bind.
  assert (Hne : KindConfigMap ≠ KindSecret) by by_computation.
  destruct (faults w (length (calls w))) as [f|] eqn:Hf.
  - destruct Hkind as [Hkind|Hkind]; rewrite Hkind.
    + rewrite !decide_True by done. by rewrite GetSecret_run, Hf.
    + rewrite !(decide_False (P := KindConfigMap = KindSecret)) by done.
      rewrite decide_True by done. by rewrite GetConfigMap_run, Hf.
  - destruct Hwhy as [Hwhy|Hwhy]; [|done].
    destruct (Hwhy eq_refl) as [[Hkind' Hno]|[Hkind' Hno]]; rewrite Hkind'.
    + rewrite !decide_True by done. by rewrite GetSecret_run, Hf, Hno.
    + rewrite !(decide_False (P := KindConfigMap = KindSecret)) by done.
      rewrite decide_True by done. by rewrite GetConfigMap_run, Hf, Hno.
Qed.

Lemma UpdateStatus_frame obj w :
  let r := UpdateStatus obj w in
  secrets r.2 = secrets w ∧ configMaps r.2 = configMaps w ∧
  faults r.2 = faults w ∧ clock r.2 = clock w ∧ clockReads r.2 = clockReads w ∧
  calls r.2 = calls w ++ [CallUpdateStatus obj] ∧
  (r.1 ≠ None → sharedResources r.2 = sharedResources w).
Proof.
  intros r. subst r. rewrite UpdateStatus_run.
  destruct (faults w (length (calls w))); [done|].
  destruct (sharedResources w !! sharedResourceKey obj); done.
Qed.

Lemma setConditions_other now conds condType status reason message c :
  c ∈ conds → cond_Type c ≠ condType →
  c ∈ setConditions now conds condType status reason message.
Proof.
  intros Hc Hty. unfold setConditions.
  set (condition := newCondition now condType status reason message).
  destruct (setConditionLoop conds condition) as [r|] eqn:Hloop.
  - apply setConditionLoop_Some in Hloop as (pre & c0 & post & -> & _ & Hc0 & ->).
    simpl in Hc0. rewrite !elem_of_app, !elem_of_cons in *.
    destruct Hc as [?|[Heq|?]]; [by left| |by right; right].
    subst c0. done.
  - rewrite elem_of_app. by left.
Qed.

Lemma handleSourceError_notFound sr what w :
  handleSourceError sr (ErrNotFound what) w =
  let missing :=
    setCondition (clock w (clockReads w)) sr ConditionTypeSourceFound ConditionFalse
      "SourceNotFound"
      ("Source " +:+ src_Kind (Source (sr_Spec sr)) +:+ "/" +:+
       src_Name (Source (sr_Spec sr)) +:+ " not found") in
  let obj :=
    setCondition (clock w (S (clockReads w))) missing ConditionTypeReady ConditionFalse
      "SourceNotFound" "Cannot sync: source resource not found" in
  (({| Requeue := false; RequeueAfter := 30 * Second |}, None),
   (UpdateStatus obj (tick (tick w))).2).
Proof.
  unfold handleSourceError, mbind, M_bind, Now. cbn zeta. cbn [IsNotFound].
  destruct (UpdateStatus _ _) as [e w']; reflexivity.
Qed.

Lemma Reconcile_fetch req sr w :
  faults w (length (calls w)) = None →
  sharedResources w !! req = Some sr →
  sr_DeletionTimestamp sr = None →
  FinalizerName ∈ sr_Finalizers sr →
  Reconcile req w =
  (let '(sourceData, sourceType, e) :=
     (fetchSourceResource sr (logCall (CallGetSharedResource req) w)).1 in
   match e with
   | Some err => handleSourceError sr err
   | None => syncAndReport sr sourceData sourceType
   end) (fetchSourceResource sr (logCall (CallGetSharedResource req) w)).2.
Proof.
  intros Hf Hsr Hdel Hfin.
  destruct (fetchSourceResource sr (logCall (CallGetSharedResource req) w))
    as [[[sourceData sourceType] [err|]] w2] eqn:Hfetch.
  - unfold Reconcile, mbind, M_bind. rewrite GetSharedResource_run, Hf, Hsr.
    rewrite decide_False by (rewrite Hdel; intros H; by apply H).
    unfold ContainsFinalizer. rewrite bool_decide_eq_true_2 by done. simpl.
    by rewrite Hfetch.
  - by apply Reconcile_source_resolved.
Qed.

(** X12. A pass that finds the source missing reports it and waits: after
    the read of the Intent and of the source the only call is one status
    update, whose object has SourceFound and Ready false with reason
    SourceNotFound and the other status fields as read; no Secret or
    ConfigMap is changed, and the pass returns a requeue after 30 seconds
    with a nil error, whether or not the status update succeeded. *)
Theorem reconcile_source_missing_requeues (req : NamespacedName) (sr : SharedResource)
    (w : World) :
  faults w (length (calls w)) = None →
  sharedResources w !! req = Some sr →
  sr_DeletionTimestamp sr = None →
  FinalizerName ∈ sr_Finalizers sr →
  faults w (S (length (calls w))) = None →
  sourceMissing sr w →
  let r := Reconcile req w in
  r.1 = ({| Requeue := false; RequeueAfter := 30 * Second |}, None) ∧
  secrets r.2 = secrets w ∧ configMaps r.2 = configMaps w ∧
  ∃ obj,
    issuedBetween w r.2 = [CallGetSharedResource req; sourceRead sr; CallUpdateStatus obj] ∧
    sharedResourceKey obj = sharedResourceKey sr ∧
    SyncedTargets (sr_Status obj) = SyncedTargets (sr_Status sr) ∧
    LastSyncTime (sr_Status obj) = LastSyncTime (sr_Status sr) ∧
    SourceChecksum (sr_Status obj) = SourceChecksum (sr_Status sr) ∧
    (∃ c, c ∈ Conditions (sr_Status obj) ∧ cond_Type c = ConditionTypeSourceFound ∧
          cond_Status c = ConditionFalse ∧ cond_Reason c = "SourceNotFound" ∧
          cond_Message c = "Source " +:+ src_Kind (Source (sr_Spec sr)) +:+ "/" +:+
                           src_Name (Source (sr_Spec sr)) +:+ " not found") ∧
    (∃ c, c ∈ Conditions (sr_Status obj) ∧ cond_Type c = ConditionTypeReady ∧
          cond_Status c = ConditionFalse ∧ cond_Reason c = "SourceNotFound" ∧
          cond_Message c = "Cannot sync: source resource not found").
Proof.
  intros Hf Hsr Hdel Hfin Hf1 Hmiss r. subst r.
  rewrite (Reconcile_fetch req sr w Hf Hsr Hdel Hfin).
  set (w1 := logCall (CallGetSharedResource req) w).
  assert (Hlen : length (calls w1) = S (length (calls w)))
    by (simpl; by rewrite length_app, Nat.add_1_r).
  rewrite fetchSourceResource_fails; cycle 1.
  { destruct Hmiss as [[? _]|[? _]]; [by left|by right]. }
  { left. intros _. exact Hmiss. }
  cbn [fst snd]. rewrite Hlen. change (faults w1) with (faults w). rewrite Hf1.
  rewrite handleSourceError_notFound. cbn zeta.
  match goal with |- context [UpdateStatus ?o] => set (obj := o) end.
  set (w2 := tick (tick (logCall (sourceRead sr) w1))).
  destruct (UpdateStatus_frame obj w2) as (Hs & Hc & _ & _ & _ & Hcalls & _).
  cbn [fst snd]. rewrite Hs, Hc. split_and!; try done.
  exists obj. unfold issuedBetween. rewrite Hcalls. simpl.
  rewrite <- !app_assoc, drop_app_length. split_and!; try done.
  - set (missing := setConditions _ _ ConditionTypeSourceFound _ _ _).
    destruct (setConditions_sets (clock w (clockReads w)) (Conditions (sr_Status sr))
                ConditionTypeSourceFound ConditionFalse "SourceNotFound"
                ("Source " +:+ src_Kind (Source (sr_Spec sr)) +:+ "/" +:+
                 src_Name (Source (sr_Spec sr)) +:+ " not found"))
      as [(c & Hin & Hty & Hrest) _].
    exists c. split; [|done].
    apply setConditions_other; [exact Hin|]. rewrite Hty. by_computation.
  - match goal with
    | |- context [setConditions ?n ?cs ConditionTypeReady ?s ?re ?m] =>
        destruct (setConditions_sets n cs ConditionTypeReady s re m) as [(c & Hc') _]
    end.
    by exists c.
Qed.

Lemma reconcile_source_missing_requeues_witness :
  (Reconcile ("shared", "sync-db") (cluster [] [] [demoIntent] noFaults)).1
    = ({| Requeue := false; RequeueAfter := 30 * Second |}, None).
Proof.
  exact (proj1 (reconcile_source_missing_requeues ("shared", "sync-db") demoIntent
                  (cluster [] [] [demoIntent] noFaults)
                  eq_refl eq_refl eq_refl ltac:(by_computation) eq_refl
                  (or_introl (conj eq_refl eq_refl)))).
Defined.

(** X13. A pass whose read of the source fails for another reason than
    absence returns that error at once: no status update, no target call,
    no clock reading, nothing stored is changed. *)
Theorem reconcile_source_unreadable (req : NamespacedName) (sr : SharedResource)
    (w : World) (f : Fault) :
  faults w (length (calls w)) = None →
  sharedResources w !! req = Some sr →
  sr_DeletionTimestamp sr = None →
  FinalizerName ∈ sr_Finalizers sr →
  src_Kind (Source (sr_Spec sr)) = KindSecret ∨
  src_Kind (Source (sr_Spec sr)) = KindConfigMap →
  faults w (S (length (calls w))) = Some f →
  let r := Reconcile req w in
  r.1 = (emptyResult, Some (ErrFault f)) ∧
  issuedBetween w r.2 = [CallGetSharedResource req; sourceRead sr] ∧
  sameObjects w r.2 ∧ clockReads r.2 = clockReads w.
Proof.
  intros Hf Hsr Hdel Hfin Hkind Hf1 r. subst r.
  rewrite (Reconcile_fetch req sr w Hf Hsr Hdel Hfin).
  set (w1 := logCall (CallGetSharedResource req) w).
  assert (Hlen : length (calls w1) = S (length (calls w)))
    by (simpl; by rewrite length_app, Nat.add_1_r).
  rewrite fetchSourceResource_fails; [|done|].
  2: { right. rewrite Hlen. change (faults w1) with (faults w). by rewrite Hf1. }
  cbn [fst snd]. rewrite Hlen. change (faults w1) with (faults w). rewrite Hf1.
  unfold handleSourceError. cbn [IsNotFound]. unfold mret, M_ret, issuedBetween.
  simpl. rewrite <- !app_assoc, drop_app_length. done.
Qed.

Lemma reconcile_source_unreadable_witness :
  (Reconcile ("shared", "sync-db")
     (cluster [sourceSecret] [] [demoIntent] sourceReadFails)).1
    = (emptyResult, Some (ErrFault Forbidden)).
Proof.
  exact (proj1 (reconcile_source_unreadable ("shared", "sync-db") demoIntent
                  (cluster [sourceSecret] [] [demoIntent] sourceReadFails) Forbidden
                  eq_refl eq_refl eq_refl ltac:(by_computation) (or_introl eq_refl)
                  eq_refl)).
Defined.

(** ** sync.go: what [deleteTargetResources] achieves *)

Lemma deleteTargets_unmarked sr targets w :
  (src_Kind (Source (sr_Spec sr)) = KindSecret →
   ∀ t s, t ∈ targets → secrets w !! targetKeyOf sr t = Some s →
          isManaged (sec_Annotations s) = false) →
  (src_Kind (Source (sr_Spec sr)) = KindConfigMap →
   ∀ t c, t ∈ targets → configMaps w !! targetKeyOf sr t = Some c →
          isManaged (cm_Annotations c) = false) →
  let r := deleteTargets sr targets w in
  sameObjects w r.2 ∧
  ∃ new, calls r.2 = calls w ++ new ∧ Forall (fun c => isWrite c = false) new.
Proof.
  revert w. induction targets as [|target rest IH]; intros w Hsecs Hcms.
  { simpl. split; [done|]. exists []. by rewrite app_nil_r. }
  assert (Hnext : ∀ c, isWrite c = false →
            (src_Kind (Source (sr_Spec sr)) = KindSecret →
             ∀ t s, t ∈ rest → secrets w !! targetKeyOf sr t = Some s →
                    isManaged (sec_Annotations s) = false) →
            (src_Kind (Source (sr_Spec sr)) = KindConfigMap →
             ∀ t c, t ∈ rest → configMaps w !! targetKeyOf sr t = Some c →
                    isManaged (cm_Annotations c) = false) →
            sameObjects w (deleteTargets sr rest (logCall c w)).2 ∧
            ∃ new, calls (deleteTargets sr rest (logCall c w)).2 = calls w ++ new ∧
                   Forall (fun c => isWrite c = false) new).
  { intros c Hc Hs' Hc'.
    destruct (IH (logCall c w) Hs' Hc') as (Hsame & new & Hcalls & Hall).
    split; [done|]. exists (c :: new). split.
    - rewrite Hcalls. simpl. by rewrite <- app_assoc.
    - by constructor. }
  assert (Hrest_s : src_Kind (Source (sr_Spec sr)) = KindSecret →
            ∀ t s, t ∈ rest → secrets w !! targetKeyOf sr t = Some s →
                   isManaged (sec_Annotations s) = false).
  { intros Hk t s Ht. apply (Hsecs Hk). apply elem_of_cons. by right. }
  assert (Hrest_c : src_Kind (Source (sr_Spec sr)) = KindConfigMap →
            ∀ t c, t ∈ rest → configMaps w !! targetKeyOf sr t = Some c →
                   isManaged (cm_Annotations c) = false).
  { intros Hk t c Ht. apply (Hcms Hk). apply elem_of_cons. by right. }
  cbn [deleteTargets]. cbn zeta.
  fold (targetKeyOf sr target). set (key := targetKeyOf sr target).
  case_decide as Hkind; [|case_decide as Hkind'].
  - unfold mbind, M_bind. rewrite GetSecret_run.
    destruct (faults w (length (calls w))) as [f|].
    { simpl. split; [done|]. exists [CallGetSecret key]. split; [done|].
      by repeat constructor. }
    destruct (secrets w !! key) as [secret|] eqn:Hsec; cbn [IsNotFound].
    + rewrite (Hsecs Hkind target secret); [|apply elem_of_cons; by left|done].
      by apply Hnext.
    + by apply Hnext.
  - unfold mbind, M_bind. rewrite GetConfigMap_run.
    destruct (faults w (length (calls w))) as [f|].
    { simpl. split; [done|]. exists [CallGetConfigMap key]. split; [done|].
      by repeat constructor. }
    destruct (configMaps w !! key) as [cm|] eqn:Hcm; cbn [IsNotFound].
    + rewrite (Hcms Hkind' target cm); [|apply elem_of_cons; by left|done].
      by apply Hnext.
    + by apply Hnext.
  - by apply IH.
Qed.

(** X14. Without faults [deleteTargetResources] finishes its work: it
    returns nil, and every object that sat at a declared target and
    carried the managed-by marker is gone afterwards, for Secret and for
    ConfigMap sources alike. *)
Theorem deletion_removes_marked_targets (sr : SharedResource) (w : World) :
  storeKeyed w → faultFree w →
  let r := deleteTargetResources sr w in
  r.1 = None ∧
  (src_Kind (Source (sr_Spec sr)) = KindSecret →
   ∀ t s, t ∈ Targets (sr_Spec sr) → secrets w !! targetKeyOf sr t = Some s →
          markedManaged (sec_Annotations s) →
          secrets r.2 !! targetKeyOf sr t = None) ∧
  (src_Kind (Source (sr_Spec sr)) = KindConfigMap →
   ∀ t c, t ∈ Targets (sr_Spec sr) → configMaps w !! targetKeyOf sr t = Some c →
          markedManaged (cm_Annotations c) →
          configMaps r.2 !! targetKeyOf sr t = None).
Proof.
  intros Hkeyed Hff r. subst r. unfold deleteTargetResources.
  destruct (deleteTargets_complete sr (Targets (sr_Spec sr)) w Hkeyed Hff)
    as (Hnil & Hsecs & Hcms).
  split_and!; [done| |].
  - intros Hk t s Ht Hs Hm. apply (Hsecs Hk t s); [done|done|]. by apply isManaged_spec.
  - intros Hk t c Ht Hc Hm. apply (Hcms Hk t c); [done|done|]. by apply isManaged_spec.
Qed.

Lemma deletion_removes_marked_targets_witness :
  secrets (deleteTargetResources deletingIntent deletingWorld).2
    !! ("jobs", "database-creds") = None.
Proof.
  refine (proj1 (proj2 (deletion_removes_marked_targets deletingIntent deletingWorld
                          storeKeyed_deletingWorld faultFree_deletingWorld))
            eq_refl {| tgt_Namespace := "jobs"; tgt_Name := "database-creds" |}
            managedJobsTarget _ eq_refl _).
  - by apply (list_elem_of_lookup_2 _ 1%nat).
  - by_computation.
Defined.

(** X15. Deleting twice is harmless: after a run without faults, a second
    run of [deleteTargetResources] returns nil, issues reads only and
    leaves every stored object as the first run left it. *)
Theorem deletion_twice_deletes_once (sr : SharedResource) (w : World) :
  storeKeyed w → faultFree w →
  let r1 := deleteTargetResources sr w in
  let r2 := deleteTargetResources sr r1.2 in
  r2.1 = None ∧ sameObjects r1.2 r2.2 ∧
  Forall (fun c => isWrite c = false) (issuedBetween r1.2 r2.2).
Proof.
  intros Hkeyed Hff r1 r2. subst r1 r2. unfold deleteTargetResources.
  set (targets := Targets (sr_Spec sr)).
  destruct (deleteTargets_complete sr targets w Hkeyed Hff) as (_ & Hsecs & Hcms).
  destruct (deleteTargets_safe sr w targets w Hkeyed)
    as (new & Hcalls & _ & Hk1 & Hsub & Hsubc & _ & Hf1 & _); [done|done|].
  set (w1 := (deleteTargets sr targets w).2) in *.
  assert (Hff1 : faultFree w1) by by apply (faultFree_later w _ new).
  destruct (deleteTargets_complete sr targets w1 Hk1 Hff1) as (Hnil & _ & _).
  split; [done|].
  destruct (deleteTargets_unmarked sr targets w1) as (Hsame & new' & Hcalls' & Hall).
  - intros Hk t s Ht Hs. apply not_true_is_false. intros Hm.
    pose proof (lookup_weaken _ _ _ _ Hs Hsub) as Hs0.
    specialize (Hsecs Hk t s Ht Hs0 Hm). fold w1 in Hsecs. congruence.
  - intros Hk t c Ht Hc. apply not_true_is_false. intros Hm.
    pose proof (lookup_weaken _ _ _ _ Hc Hsubc) as Hc0.
    specialize (Hcms Hk t c Ht Hc0 Hm). fold w1 in Hcms. congruence.
  - split; [done|]. by rewrite (issuedBetween_app _ _ _ Hcalls').
Qed.

Lemma deletion_twice_deletes_once_witness :
  (deleteTargetResources deletingIntent
     (deleteTargetResources deletingIntent deletingWorld).2).1 = None.
Proof.
  exact (proj1 (deletion_twice_deletes_once deletingIntent deletingWorld
                  storeKeyed_deletingWorld faultFree_deletingWorld)).
Defined.

(** ** One pass over the targets *)

Lemma syncToTarget_effect sr ns name data secretType checksum w :
  storeKeyed w →
  let r := syncToTarget sr ns name data secretType checksum w in
  storeKeyed r.2 ∧ sameEnvironment w r.2 ∧ sharedResources r.2 = sharedResources w ∧
  (∀ k, k ≠ (ns, name) →
        secrets r.2 !! k = secrets w !! k ∧ configMaps r.2 !! k = configMaps w !! k) ∧
  (∀ k, is_Some (secrets w !! k) → is_Some (secrets r.2 !! k)) ∧
  (∀ k, is_Some (configMaps w !! k) → is_Some (configMaps r.2 !! k)) ∧
  ∃ new, calls r.2 = calls w ++ new ∧ Forall (fun c => isSyncCall c = true) new.
Proof.
  intros Hkeyed r. subst r. rewrite syncToTarget_run. cbn zeta.
  assert (Hk' : storeKeyed (tick w)) by done.
  case_decide as Hkind; [|case_decide as Hkind'].
  - destruct (syncSecret_effect (ns, name) data secretType
                (trackingAnnotations sr checksum (clock w (clockReads w)))
                (syncModeOf sr) (tick w) Hk')
      as (Hst & Henv & _ & Hsr & Hcm & Hframe & Hsome & _ & Hcalls).
    split_and!; try done.
    + intros k Hk. split; [by apply Hframe | by rewrite Hcm].
    + intros k Hs. destruct (decide (k = (ns, name))) as [->|Hne];
        [by apply Hsome | by rewrite Hframe].
    + intros k. by rewrite Hcm.
  - destruct (syncConfigMap_effect (ns, name) data
                (trackingAnnotations sr checksum (clock w (clockReads w)))
                (syncModeOf sr) (tick w) Hk')
      as (Hst & Henv & _ & Hsr & Hsec & Hframe & Hsome & _ & Hcalls).
    split_and!; try done.
    + intros k Hk. split; [by rewrite Hsec | by apply Hframe].
    + intros k. by rewrite Hsec.
    + intros k Hs. destruct (decide (k = (ns, name))) as [->|Hne];
        [by apply Hsome | by rewrite Hframe].
  - simpl. split_and!; try done. exists []. by rewrite app_nil_r.
Qed.

Lemma targetOutcomes_effect sr data sourceType checksum targets w :
  storeKeyed w →
  let r := targetOutcomes sr data sourceType checksum targets w in
  storeKeyed r.2 ∧ sameEnvironment w r.2 ∧ sharedResources r.2 = sharedResources w ∧
  (∀ k, k ∉ targetKeyOf sr <$> targets →
        secrets r.2 !! k = secrets w !! k ∧ configMaps r.2 !! k = configMaps w !! k) ∧
  (∀ k, is_Some (secrets w !! k) → is_Some (secrets r.2 !! k)) ∧
  (∀ k, is_Some (configMaps w !! k) → is_Some (configMaps r.2 !! k)) ∧
  ∃ new, calls r.2 = calls w ++ new ∧ Forall (fun c => isSyncCall c = true) new.
Proof.
  revert w. induction targets as [|target rest IH]; intros w Hkeyed r; subst r.
  { simpl. split_and!; try done. exists []. by rewrite app_nil_r. }
  cbn [targetOutcomes]. unfold mbind, M_bind.
  pose proof (syncToTarget_effect sr (tgt_Namespace target) (targetNameOf sr target)
                data sourceType checksum w Hkeyed) as Hone.
  destruct (syncToTarget sr (tgt_Namespace target) (targetNameOf sr target)
              data sourceType checksum w) as [e w1].
  cbn zeta in Hone. cbn [fst snd] in Hone.
  destruct Hone as (Hk1 & [Hf1 Hc1] & Hsr1 & Hframe1 & Hs1 & Hm1 & new1 & Hcalls1 & Hall1).
  specialize (IH w1 Hk1). cbn zeta in IH.
  destruct (targetOutcomes sr data sourceType checksum rest w1) as [es w2].
  cbn [fst snd] in *.
  destruct IH as (Hk2 & [Hf2 Hc2] & Hsr2 & Hframe2 & Hs2 & Hm2 & new2 & Hcalls2 & Hall2).
  unfold mret, M_ret. cbn [fst snd].
  split_and!; try done; try congruence.
  - split; congruence.
  - intros k Hk. rewrite fmap_cons, not_elem_of_cons in Hk. destruct Hk as [Hne Hk].
    destruct (Hframe2 k Hk) as [-> ->]. by apply Hframe1.
  - intros k Hs. by apply Hs2, Hs1.
  - intros k Hs. by apply Hm2, Hm1.
  - exists (new1 ++ new2). split; [by rewrite Hcalls2, Hcalls1, app_assoc|].
    by apply Forall_app.
Qed.

Lemma fetchSourceResource_effect sr w :
  let r := fetchSourceResource sr w in
  secrets r.2 = secrets w ∧ configMaps r.2 = configMaps w ∧
  sharedResources r.2 = sharedResources w ∧ sameEnvironment w r.2 ∧
  clockReads r.2 = clockReads w ∧
  ∃ new, calls r.2 = calls w ++ new ∧ Forall (fun c => isWrite c = false) new.
Proof.
  intros r. subst r. unfold fetchSourceResource, mbind, M_bind.
  case_decide as Hkind; [|case_decide as Hkind'].
  - rewrite GetSecret_run.
    assert (Hnew : ∃ new, calls w ++ [CallGetSecret (sr_Namespace sr,
                            src_Name (Source (sr_Spec sr)))] = calls w ++ new ∧
                          Forall (fun c => isWrite c = false) new)
      by (eexists; split; [done|by repeat constructor]).
    destruct (faults w (length (calls w))); [done|].
    destruct (secrets w !! _); done.
  - rewrite GetConfigMap_run.
    assert (Hnew : ∃ new, calls w ++ [CallGetConfigMap (sr_Namespace sr,
                            src_Name (Source (sr_Spec sr)))] = calls w ++ new ∧
                          Forall (fun c => isWrite c = false) new)
      by (eexists; split; [done|by repeat constructor]).
    destruct (faults w (length (calls w))); [done|].
    destruct (configMaps w !! _); done.
  - simpl. split_and!; try done. exists []. by rewrite app_nil_r.
Qed.

Lemma isSyncCall_not_delete c : isSyncCall c = true → isDelete c = false.
Proof. by destruct c. Qed.

Lemma isWrite_not_delete c : isWrite c = false → isDelete c = false.
Proof. by destruct c. Qed.

Lemma touchesOnlyTargets_same sr w w' new :
  secrets w' = secrets w → configMaps w' = configMaps w →
  calls w' = calls w ++ new → Forall (fun c => isDelete c = false) new →
  touchesOnlyTargets sr w w'.
Proof.
  intros Hs Hc Hcalls Hall. unfold touchesOnlyTargets.
  rewrite Hs, Hc, (issuedBetween_app _ _ _ Hcalls). done.
Qed.

Lemma storeKeyed_same w w' :
  storeKeyed w → secrets w' = secrets w → configMaps w' = configMaps w →
  sharedResources w' = sharedResources w → storeKeyed w'.
Proof. unfold storeKeyed. by intros ? -> -> ->. Qed.

(** X16. A pass for an Intent that is not being deleted keeps to the
    declared targets, on every path: a Secret or ConfigMap that is not at
    a declared target is stored afterwards exactly as before, no stored
    Secret or ConfigMap disappears, and no delete is issued. *)
Theorem reconcile_touches_only_targets (req : NamespacedName) (sr : SharedResource)
    (w : World) :
  storeKeyed w →
  sharedResources w !! req = Some sr →
  sr_DeletionTimestamp sr = None →
  touchesOnlyTargets sr w (Reconcile req w).2.
Proof.
  intros Hkeyed Hsr Hdel.
  destruct (faults w (length (calls w))) as [f|] eqn:Hf.
  { unfold Reconcile, mbind, M_bind. rewrite GetSharedResource_run, Hf. simpl.
    apply (touchesOnlyTargets_same sr w _ [CallGetSharedResource req]); try done.
    by repeat constructor. }
  destruct (decide (FinalizerName ∈ sr_Finalizers sr)) as [Hfin|Hfin].
  2: { unfold Reconcile, mbind, M_bind. rewrite GetSharedResource_run, Hf, Hsr.
       rewrite decide_False by (rewrite Hdel; intros H; by apply H).
       unfold ContainsFinalizer at 1. rewrite bool_decide_eq_false_2 by done.
       cbn [negb]. rewrite UpdateSharedResource_run.
       set (obj := AddFinalizer sr FinalizerName).
       set (w1 := logCall (CallGetSharedResource req) w).
       destruct (faults w1 (length (calls w1)));
         [|destruct (sharedResources w1 !! sharedResourceKey obj)]; simpl;
         (apply (touchesOnlyTargets_same sr w _
                   [CallGetSharedResource req; CallUpdateSharedResource obj]);
          [done|done|simpl; by rewrite <- app_assoc|by repeat constructor]). }
  rewrite (Reconcile_fetch req sr w Hf Hsr Hdel Hfin).
  set (w1 := logCall (CallGetSharedResource req) w).
  destruct (fetchSourceResource_effect sr w1)
    as (Hs2 & Hc2 & Hsr2 & [Hf2 Hcl2] & _ & newF & HcallsF & HallF).
  destruct (fetchSourceResource sr w1) as [[[sourceData sourceType] e] w2].
  cbn [fst snd] in *.
  assert (Hcalls2 : calls w2 = calls w ++ CallGetSharedResource req :: newF)
    by (rewrite HcallsF; simpl; by rewrite <- app_assoc).
  assert (Hall2 : Forall (fun c => isDelete c = false) (CallGetSharedResource req :: newF)).
  { constructor; [done|]. eapply Forall_impl; [exact HallF|]. apply isWrite_not_delete. }
  destruct e as [err|].
  - destruct err as [what|what|f|msg];
      try (apply (touchesOnlyTargets_same sr w _ _ Hs2 Hc2 Hcalls2 Hall2)).
    rewrite handleSourceError_notFound. cbn zeta. cbn [snd].
    match goal with |- context [UpdateStatus ?o ?w'] =>
      destruct (UpdateStatus_frame o w') as (Hs3 & Hc3 & _ & _ & _ & Hcalls3 & _)
    end.
    eapply touchesOnlyTargets_same.
    + rewrite Hs3. exact Hs2.
    + rewrite Hc3. exact Hc2.
    + rewrite Hcalls3. simpl. rewrite Hcalls2, <- app_assoc. reflexivity.
    + apply Forall_app. split; [done|]. by repeat constructor.
  - rewrite syncAndReport_run. cbn zeta. rewrite updateStatus_run. cbn zeta. cbn [snd].
    set (sr1 := setCondition _ sr _ _ _ _).
    set (data := filterData sourceData (SyncPolicy (sr_Spec sr))).
    assert (Hk2 : storeKeyed (tick (tick w2))) by by apply (storeKeyed_same w).
    destruct (targetOutcomes_effect sr1 data sourceType (computeChecksum data)
                (Targets (sr_Spec sr)) (tick (tick w2)) Hk2)
      as (_ & _ & _ & Hframe & Hsome & Hmsome & newT & HcallsT & HallT).
    set (o := targetOutcomes sr1 data sourceType (computeChecksum data)
                (Targets (sr_Spec sr)) (tick (tick w2))) in *.
    match goal with |- context [UpdateStatus ?ob ?w'] =>
      destruct (UpdateStatus_frame ob w') as (Hs3 & Hc3 & _ & _ & _ & Hcalls3 & _);
      set (w3 := (UpdateStatus ob w').2) in *
    end.
    simpl in Hs3, Hc3, Hcalls3, Hframe, Hsome, Hmsome, HcallsT.
    unfold touchesOnlyTargets. rewrite Hs3, Hc3. split_and!.
    + intros k Hk. destruct (Hframe k Hk) as [-> ->]. by rewrite Hs2, Hc2.
    + intros k Hk. apply Hsome. by rewrite Hs2.
    + intros k Hk. apply Hmsome. by rewrite Hc2.
    + rewrite (issuedBetween_app w w3 ((CallGetSharedResource req :: newF) ++ newT
                 ++ [CallUpdateStatus
                       (statusAfterSync sr1
                          (zip_with (targetRecord sr (clock w2 (S (clockReads w2))))
                             (Targets (sr_Spec sr)) o.1)
                          (computeChecksum data) (allSucceeded o.1)
                          (clock o.2 (clockReads o.2))
                          (clock o.2 (S (clockReads o.2))))])).
      * rewrite !Forall_app. split_and!; [done| |by repeat constructor].
        eapply Forall_impl; [exact HallT|]. apply isSyncCall_not_delete.
      * rewrite Hcalls3, HcallsT, Hcalls2. by rewrite <- !app_assoc.
Qed.

Lemma reconcile_touches_only_targets_witness :
  touchesOnlyTargets demoIntent demoWorld (Reconcile ("shared", "sync-db") demoWorld).2.
Proof.
  exact (reconcile_touches_only_targets ("shared", "sync-db") demoIntent demoWorld
           storeKeyed_demoWorld eq_refl eq_refl).
Defined.

Lemma syncToTarget_success sr ns name data secretType checksum w :
  storeKeyed w →
  let r := syncToTarget sr ns name data secretType checksum w in
  r.1 = None → targetUpToDate sr (ns, name) data r.2.
Proof.
  intros Hkeyed r. subst r. rewrite syncToTarget_run. cbn zeta.
  unfold targetUpToDate. assert (Hk' : storeKeyed (tick w)) by done.
  case_decide as Hkind; [|case_decide as Hkind']; [| |done].
  - destruct (syncSecret _ _ _ _ _ (tick w)) as [e w1] eqn:Hrun.
    simpl. intros ->. by destruct (syncSecret_success _ _ _ _ _ _ _ Hk' Hrun).
  - destruct (syncConfigMap _ _ _ _ (tick w)) as [e w1] eqn:Hrun.
    simpl. intros ->. by destruct (syncConfigMap_success _ _ _ _ _ _ Hk' Hrun).
Qed.

Lemma syncToTarget_keeps sr ns name data secretType checksum key w :
  storeKeyed w →
  targetUpToDate sr key data w →
  targetUpToDate sr key data (syncToTarget sr ns name data secretType checksum w).2.
Proof.
  intros Hkeyed Hup.
  destruct (decide (key = (ns, name))) as [->|Hne].
  - rewrite syncToTarget_run. cbn zeta. unfold targetUpToDate in *.
    case_decide as Hkind; [|case_decide as Hkind']; [| |done].
    + by destruct (syncSecret_noop (ns, name) data secretType
                     (trackingAnnotations sr checksum (clock w (clockReads w)))
                     (syncModeOf sr) (tick w) Hup) as (_ & _ & _ & _ & ? & _).
    + by destruct (syncConfigMap_noop (ns, name) data
                     (trackingAnnotations sr checksum (clock w (clockReads w)))
                     (syncModeOf sr) (tick w) Hup) as (_ & _ & _ & _ & ? & _).
  - destruct (syncToTarget_effect sr ns name data secretType checksum w Hkeyed)
      as (_ & _ & _ & Hframe & _).
    destruct (Hframe key Hne) as [Hs Hc].
    unfold targetUpToDate, secretUpToDate, configMapUpToDate in *.
    rewrite Hs, Hc. done.
Qed.

Lemma syncToTarget_fault_free sr ns name data secretType checksum w :
  storeKeyed w → faultFree w →
  src_Kind (Source (sr_Spec sr)) = KindSecret ∨
  src_Kind (Source (sr_Spec sr)) = KindConfigMap →
  (syncToTarget sr ns name data secretType checksum w).1 = None.
Proof.
  intros (Hks & Hkc & _) Hff Hkind. rewrite syncToTarget_run. cbn zeta.
  pose proof (faultFree_now w Hff) as Hf0.
  assert (Hf1 : faults w (S (length (calls w))) = None) by (apply Hff; lia).
  case_decide as Hk; [|case_decide as Hk']; [| |by destruct Hkind].
  - rewrite syncSecret_run. cbn zeta.
    change (faults (tick w)) with (faults w). change (calls (tick w)) with (calls w).
    change (secrets (tick w)) with (secrets w). rewrite Hf0.
    destruct (secrets w !! (ns, name)) as [existing|] eqn:Hex.
    + case_decide; [done|].
      match goal with |- context [UpdateSecret ?o] => set (obj := o) end.
      assert (Hkey : secretKey obj = (ns, name)) by (by rewrite <- (Hks _ _ Hex)).
      rewrite UpdateSecret_run, Hkey. simpl.
      by rewrite length_app, Nat.add_1_r, Hf1, Hex.
    + rewrite CreateSecret_run. simpl. unfold secretKey. simpl.
      by rewrite length_app, Nat.add_1_r, Hf1, Hex.
  - rewrite syncConfigMap_run. cbn zeta.
    change (faults (tick w)) with (faults w). change (calls (tick w)) with (calls w).
    change (configMaps (tick w)) with (configMaps w). rewrite Hf0.
    destruct (configMaps w !! (ns, name)) as [existing|] eqn:Hex.
    + case_decide; [done|].
      match goal with |- context [UpdateConfigMap ?o] => set (obj := o) end.
      assert (Hkey : configMapKey obj = (ns, name)) by (by rewrite <- (Hkc _ _ Hex)).
      rewrite UpdateConfigMap_run, Hkey. simpl.
      by rewrite length_app, Nat.add_1_r, Hf1, Hex.
    + rewrite CreateConfigMap_run. simpl. unfold configMapKey. simpl.
      by rewrite length_app, Nat.add_1_r, Hf1, Hex.
Qed.

Lemma targetOutcomes_up_to_date sr data sourceType checksum targets w :
  storeKeyed w →
  let r := targetOutcomes sr data sourceType checksum targets w in
  (∀ key, targetUpToDate sr key data w → targetUpToDate sr key data r.2) ∧
  (∀ i t, targets !! i = Some t → r.1 !! i = Some None →
          targetUpToDate sr (targetKeyOf sr t) data r.2) ∧
  (faultFree w →
   src_Kind (Source (sr_Spec sr)) = KindSecret ∨
   src_Kind (Source (sr_Spec sr)) = KindConfigMap →
   Forall (fun e => e = None) r.1).
Proof.
  revert w. induction targets as [|target rest IH]; intros w Hkeyed r; subst r.
  { simpl. split_and!; try done. }
  cbn [targetOutcomes]. unfold mbind, M_bind.
  pose proof (syncToTarget_effect sr (tgt_Namespace target) (targetNameOf sr target)
                data sourceType checksum w Hkeyed) as Hone.
  pose proof (syncToTarget_success sr (tgt_Namespace target) (targetNameOf sr target)
                data sourceType checksum w Hkeyed) as Hsucc.
  pose proof (fun key => syncToTarget_keeps sr (tgt_Namespace target)
                (targetNameOf sr target) data sourceType checksum key w Hkeyed) as Hkeep.
  pose proof (syncToTarget_fault_free sr (tgt_Namespace target) (targetNameOf sr target)
                data sourceType checksum w Hkeyed) as Hnil.
  destruct (syncToTarget sr (tgt_Namespace target) (targetNameOf sr target)
              data sourceType checksum w) as [e w1].
  cbn zeta in Hone, Hsucc. cbn [fst snd] in Hone, Hsucc, Hkeep, Hnil.
  destruct Hone as (Hk1 & [Hf1 _] & _ & _ & _ & _ & new1 & Hcalls1 & _).
  specialize (IH w1 Hk1). cbn zeta in IH.
  destruct (targetOutcomes sr data sourceType checksum rest w1) as [es w2].
  unfold mret, M_ret. cbn [fst snd] in *.
  destruct IH as (IHkeep & IHsucc & IHnil).
  split_and!.
  - intros key Hup. by apply IHkeep, Hkeep.
  - intros [|i] t; simpl.
    + intros [= <-] [= ->]. by apply IHkeep, Hsucc.
    + apply IHsucc.
  - intros Hff Hkind. constructor; [by apply Hnil|].
    apply IHnil; [|done]. by apply (faultFree_later w _ new1).
Qed.

Lemma targetUpToDate_same sr key data w w' :
  secrets w' = secrets w → configMaps w' = configMaps w →
  targetUpToDate sr key data w → targetUpToDate sr key data w'.
Proof.
  unfold targetUpToDate, secretUpToDate, configMapUpToDate. by intros -> ->.
Qed.

(** A pass that resolved its source, written out up to the status update. *)
Lemma Reconcile_resolved_run req w sr sourceData sourceType w2 :
  faults w (length (calls w)) = None →
  sharedResources w !! req = Some sr →
  sr_DeletionTimestamp sr = None →
  FinalizerName ∈ sr_Finalizers sr →
  fetchSourceResource sr (logCall (CallGetSharedResource req) w)
    = ((sourceData, sourceType, None), w2) →
  let data := filterData sourceData (SyncPolicy (sr_Spec sr)) in
  let sr1 := setCondition (clock w2 (clockReads w2)) sr ConditionTypeSourceFound
               ConditionTrue "SourceExists" "Source resource found" in
  let o := targetOutcomes sr1 data sourceType (computeChecksum data)
             (Targets (sr_Spec sr)) (tick (tick w2)) in
  let obj := statusAfterSync sr1
               (zip_with (targetRecord sr (clock w2 (S (clockReads w2))))
                  (Targets (sr_Spec sr)) o.1)
               (computeChecksum data) (allSucceeded o.1)
               (clock o.2 (clockReads o.2)) (clock o.2 (S (clockReads o.2))) in
  Reconcile req w = ((emptyResult, (UpdateStatus obj (tick (tick o.2))).1),
                     (UpdateStatus obj (tick (tick o.2))).2) ∧
  secrets w2 = secrets w ∧ configMaps w2 = configMaps w ∧
  sharedResources w2 = sharedResources w ∧ faults w2 = faults w ∧
  (∃ new, calls w2 = calls w ++ new ∧ Forall (fun c => isWrite c = false) new) ∧
  (src_Kind (Source (sr_Spec sr)) = KindSecret ∨
   src_Kind (Source (sr_Spec sr)) = KindConfigMap).
Proof.
  intros Hf Hsr Hdel Hfin Hfetch data sr1 o obj.
  rewrite (Reconcile_source_resolved req w sr sourceData sourceType w2) by done.
  rewrite syncAndReport_run. cbn zeta. rewrite updateStatus_run. cbn zeta.
  split; [reflexivity|].
  destruct (fetchSourceResource_effect sr (logCall (CallGetSharedResource req) w))
    as (Hs & Hc & Hsrs & [Hfl _] & _ & new & Hcalls & Hall).
  rewrite Hfetch in Hs, Hc, Hsrs, Hfl, Hcalls. cbn [fst snd] in *.
  split_and!; try done.
  - exists (CallGetSharedResource req :: new). split.
    + rewrite Hcalls. simpl. by rewrite <- app_assoc.
    + by constructor.
  - unfold fetchSourceResource in Hfetch.
    case_decide as Hk; [by left|]. case_decide as Hk'; [by right|]. done.
Qed.

(** X17. What a status record promises: after a pass that resolved its
    source, every target that the status handed to the update reports as
    synced holds, at the end of the pass, data that hashes like the
    filtered source data (merged with its own under mode merge), also
    when other targets of the same pass failed. *)
Theorem reported_synced_targets_are_up_to_date (req : NamespacedName) (w : World)
    (sr : SharedResource) (sourceData : Bundle) (sourceType : string) (w2 : World) :
  storeKeyed w →
  faults w (length (calls w)) = None →
  sharedResources w !! req = Some sr →
  sr_DeletionTimestamp sr = None →
  FinalizerName ∈ sr_Finalizers sr →
  fetchSourceResource sr (logCall (CallGetSharedResource req) w)
    = ((sourceData, sourceType, None), w2) →
  let r := Reconcile req w in
  ∀ obj status,
    last (calls r.2) = Some (CallUpdateStatus obj) →
    status ∈ SyncedTargets (sr_Status obj) →
    tss_Synced status = true →
    targetUpToDate sr (tss_Namespace status, tss_Name status)
      (filterData sourceData (SyncPolicy (sr_Spec sr))) r.2.
Proof.
  intros Hkeyed Hf Hsr Hdel Hfin Hfetch r obj status. subst r.
  destruct (Reconcile_resolved_run req w sr sourceData sourceType w2 Hf Hsr Hdel Hfin Hfetch)
    as (-> & Hs & Hc & Hsrs & _ & _ & _).
  set (data := filterData sourceData (SyncPolicy (sr_Spec sr))).
  set (sr1 := setCondition _ sr _ _ _ _).
  set (o := targetOutcomes sr1 data sourceType (computeChecksum data)
              (Targets (sr_Spec sr)) (tick (tick w2))).
  set (records := zip_with _ (Targets (sr_Spec sr)) o.1).
  set (obj0 := statusAfterSync sr1 records _ _ _ _).
  cbn [snd].
  destruct (UpdateStatus_frame obj0 (tick (tick o.2)))
    as (Hs3 & Hc3 & _ & _ & _ & Hcalls3 & _).
  rewrite Hcalls3, last_snoc. intros [= <-].
  destruct (statusAfterSync_spec sr1 records (computeChecksum data) (allSucceeded o.1)
              (clock o.2 (clockReads o.2)) (clock o.2 (S (clockReads o.2))))
    as (_ & Hrec & _).
  fold obj0 in Hrec. rewrite Hrec.
  intros (i & t & e & -> & Ht & He)%elem_of_lookup_zip_with_1.
  simpl. intros ->%bool_decide_eq_true.
  assert (Hk2 : storeKeyed (tick (tick w2))) by by apply (storeKeyed_same w).
  destruct (targetOutcomes_up_to_date sr1 data sourceType (computeChecksum data)
              (Targets (sr_Spec sr)) (tick (tick w2)) Hk2) as (_ & Hup & _).
  apply (targetUpToDate_same sr _ data o.2); [done|done|].
  exact (Hup i t Ht He).
Qed.

Lemma demoWorld_source_resolved :
  fetchSourceResource demoIntent
    (logCall (CallGetSharedResource ("shared", "sync-db")) demoWorld)
  = ((credentials, "Opaque", None),
     logCall (CallGetSecret ("shared", "db-credentials"))
       (logCall (CallGetSharedResource ("shared", "sync-db")) demoWorld)).
Proof.
  unfold fetchSourceResource. rewrite decide_True by done.
  unfold mbind, M_bind. rewrite GetSecret_run. reflexivity.
Qed.

Lemma demoIntent_has_finalizer : FinalizerName ∈ sr_Finalizers demoIntent.
Proof. by apply list_elem_of_singleton. Qed.

Lemma resolved_pass_status_update req w sr sourceData sourceType w2 :
  faults w (length (calls w)) = None →
  sharedResources w !! req = Some sr →
  sr_DeletionTimestamp sr = None →
  FinalizerName ∈ sr_Finalizers sr →
  fetchSourceResource sr (logCall (CallGetSharedResource req) w)
    = ((sourceData, sourceType, None), w2) →
  ∃ obj, last (calls (Reconcile req w).2) = Some (CallUpdateStatus obj).
Proof.
  intros Hf Hsr Hdel Hfin Hfetch.
  destruct (Reconcile_resolved_run req w sr sourceData sourceType w2 Hf Hsr Hdel Hfin Hfetch)
    as (-> & _).
  cbn [snd].
  match goal with |- context [UpdateStatus ?ob ?w'] =>
    destruct (UpdateStatus_frame ob w') as (_ & _ & _ & _ & _ & -> & _); exists ob
  end.
  apply last_snoc.
Qed.

Lemma demoWorld_status_update :
  ∃ obj, last (calls (Reconcile ("shared", "sync-db") demoWorld).2)
         = Some (CallUpdateStatus obj).
Proof.
  exact (resolved_pass_status_update ("shared", "sync-db") demoWorld demoIntent
           credentials "Opaque" _ eq_refl eq_refl eq_refl demoIntent_has_finalizer
           demoWorld_source_resolved).
Qed.

Lemma reported_synced_targets_are_up_to_date_witness :
  ∃ obj,
    last (calls (Reconcile ("shared", "sync-db") demoWorld).2)
      = Some (CallUpdateStatus obj) ∧
    ∀ status,
      status ∈ SyncedTargets (sr_Status obj) →
      tss_Synced status = true →
      targetUpToDate demoIntent (tss_Namespace status, tss_Name status)
        (filterData credentials None) (Reconcile ("shared", "sync-db") demoWorld).2.
Proof.
  destruct demoWorld_status_update as [obj Hlast].
  exists obj. split; [exact Hlast|]. intros status.
  exact (reported_synced_targets_are_up_to_date ("shared", "sync-db") demoWorld
           demoIntent credentials "Opaque" _ storeKeyed_demoWorld eq_refl eq_refl eq_refl
           demoIntent_has_finalizer demoWorld_source_resolved obj status Hlast).
Defined.

Lemma syncToTarget_settled sr ns name data secretType checksum w :
  targetUpToDate sr (ns, name) data w →
  let r := syncToTarget sr ns name data secretType checksum w in
  sameObjects w r.2 ∧
  ∃ c, calls r.2 = calls w ++ [c] ∧ isWrite c = false.
Proof.
  intros Hup r. subst r. rewrite syncToTarget_run. cbn zeta.
  unfold targetUpToDate in Hup.
  case_decide as Hkind; [|case_decide as Hkind']; [| |done].
  - destruct (syncSecret_noop (ns, name) data secretType
                (trackingAnnotations sr checksum (clock w (clockReads w)))
                (syncModeOf sr) (tick w) Hup) as (Hcalls & _ & Hsame & _).
    split; [done|]. by eexists.
  - destruct (syncConfigMap_noop (ns, name) data
                (trackingAnnotations sr checksum (clock w (clockReads w)))
                (syncModeOf sr) (tick w) Hup) as (Hcalls & _ & Hsame & _).
    split; [done|]. by eexists.
Qed.

Lemma targetOutcomes_settled sr data sourceType checksum targets w :
  (∀ t, t ∈ targets → targetUpToDate sr (targetKeyOf sr t) data w) →
  let r := targetOutcomes sr data sourceType checksum targets w in
  sameObjects w r.2 ∧
  ∃ new, calls r.2 = calls w ++ new ∧ Forall (fun c => isWrite c = false) new.
Proof.
  revert w. induction targets as [|target rest IH]; intros w Hup r; subst r.
  { simpl. split; [done|]. exists []. by rewrite app_nil_r. }
  cbn [targetOutcomes]. unfold mbind, M_bind.
  destruct (syncToTarget_settled sr (tgt_Namespace target) (targetNameOf sr target)
              data sourceType checksum w) as ((Hs1 & Hc1 & Hsr1) & c & Hcalls1 & Hc).
  { apply (Hup target). apply elem_of_cons. by left. }
  destruct (syncToTarget sr (tgt_Namespace target) (targetNameOf sr target)
              data sourceType checksum w) as [e w1].
  cbn [fst snd] in *.
  destruct (IH w1) as ((Hs2 & Hc2 & Hsr2) & new & Hcalls2 & Hall).
  { intros t Ht. apply (targetUpToDate_same sr _ data w); [done|done|].
    apply Hup. apply elem_of_cons. by right. }
  destruct (targetOutcomes sr data sourceType checksum rest w1) as [es w2].
  unfold mret, M_ret. cbn [fst snd] in *.
  split; [split_and!; congruence|].
  exists (c :: new). split; [|by constructor].
  rewrite Hcalls2, Hcalls1. by rewrite <- app_assoc.
Qed.

Lemma isWrite_not_object_write c : isWrite c = false → isObjectWrite c = false.
Proof. by destruct c. Qed.

Lemma settled_pass_run (req : NamespacedName) (w : World)
    (sr : SharedResource) (sourceData : Bundle) (sourceType : string) (w2 : World) :
  faults w (length (calls w)) = None →
  sharedResources w !! req = Some sr →
  sr_DeletionTimestamp sr = None →
  FinalizerName ∈ sr_Finalizers sr →
  fetchSourceResource sr (logCall (CallGetSharedResource req) w)
    = ((sourceData, sourceType, None), w2) →
  (∀ t, t ∈ Targets (sr_Spec sr) →
        targetUpToDate sr (targetKeyOf sr t)
          (filterData sourceData (SyncPolicy (sr_Spec sr))) w) →
  let r := Reconcile req w in
  secrets r.2 = secrets w ∧ configMaps r.2 = configMaps w ∧
  Forall (fun c => isObjectWrite c = false) (issuedBetween w r.2) ∧
  ∃ obj reads, issuedBetween w r.2 = reads ++ [CallUpdateStatus obj] ∧
               Forall (fun c => isWrite c = false) reads.
Proof.
  intros Hf Hsr Hdel Hfin Hfetch Hup r. subst r.
  destruct (Reconcile_resolved_run req w sr sourceData sourceType w2 Hf Hsr Hdel Hfin Hfetch)
    as (-> & Hs & Hc & Hsrs & _ & (newF & HcallsF & HallF) & _).
  set (data := filterData sourceData (SyncPolicy (sr_Spec sr))) in *.
  set (sr1 := setCondition _ sr _ _ _ _).
  destruct (targetOutcomes_settled sr1 data sourceType (computeChecksum data)
              (Targets (sr_Spec sr)) (tick (tick w2)))
    as ((Hs2 & Hc2 & _) & newT & HcallsT & HallT).
  { intros t Ht. apply (targetUpToDate_same sr _ data w); [done|done|]. by apply Hup. }
  set (o := targetOutcomes sr1 data sourceType (computeChecksum data)
              (Targets (sr_Spec sr)) (tick (tick w2))) in *.
  match goal with |- context [UpdateStatus ?ob ?w'] =>
    destruct (UpdateStatus_frame ob w') as (Hs3 & Hc3 & _ & _ & _ & Hcalls3 & _);
    set (obj := ob) in *
  end.
  cbn [snd]. simpl in Hs3, Hc3, Hcalls3, Hs2, Hc2, HcallsT.
  assert (Hcalls : calls (UpdateStatus obj (tick (tick o.2))).2
                   = calls w ++ (newF ++ newT) ++ [CallUpdateStatus obj]).
  { rewrite Hcalls3, HcallsT, HcallsF. by rewrite <- !app_assoc. }
  assert (Hreads : Forall (fun c => isWrite c = false) (newF ++ newT))
    by by apply Forall_app.
  rewrite (issuedBetween_app _ _ _ Hcalls).
  split_and!; [congruence|congruence| |by exists obj, (newF ++ newT)].
  apply Forall_app. split; [|by repeat constructor].
  eapply Forall_impl; [exact Hreads|]. apply isWrite_not_object_write.
Qed.

(** X18. A pass over targets that are all up to date writes no object:
    every Secret and ConfigMap is stored as before, and apart from reads
    the only call of the pass is the status update. *)
Theorem settled_pass_writes_no_object (req : NamespacedName) (w : World)
    (sr : SharedResource) (sourceData : Bundle) (sourceType : string) (w2 : World) :
  faults w (length (calls w)) = None →
  sharedResources w !! req = Some sr →
  sr_DeletionTimestamp sr = None →
  FinalizerName ∈ sr_Finalizers sr →
  fetchSourceResource sr (logCall (CallGetSharedResource req) w)
    = ((sourceData, sourceType, None), w2) →
  (∀ t, t ∈ Targets (sr_Spec sr) →
        targetUpToDate sr (targetKeyOf sr t)
          (filterData sourceData (SyncPolicy (sr_Spec sr))) w) →
  let r := Reconcile req w in
  secrets r.2 = secrets w ∧ configMaps r.2 = configMaps w ∧
  Forall (fun c => isObjectWrite c = false) (issuedBetween w r.2) ∧
  ∃ obj reads, issuedBetween w r.2 = reads ++ [CallUpdateStatus obj] ∧
               Forall (fun c => isWrite c = false) reads.
Proof. apply settled_pass_run. Qed.

Lemma settledWorld_source_resolved :
  fetchSourceResource demoIntent
    (logCall (CallGetSharedResource ("shared", "sync-db")) settledWorld)
  = ((credentials, "Opaque", None),
     logCall (CallGetSecret ("shared", "db-credentials"))
       (logCall (CallGetSharedResource ("shared", "sync-db")) settledWorld)).
Proof.
  unfold fetchSourceResource. rewrite decide_True by done.
  unfold mbind, M_bind. rewrite GetSecret_run. reflexivity.
Qed.

Lemma settledWorld_up_to_date t :
  t ∈ Targets (sr_Spec demoIntent) →
  targetUpToDate demoIntent (targetKeyOf demoIntent t) (filterData credentials None)
    settledWorld.
Proof.
  intros Ht. unfold targetUpToDate. rewrite decide_True by done.
  simpl in Ht. rewrite !elem_of_cons in Ht. destruct Ht as [->|[->|Ht]].
  - exists unmarkedTarget. split; vm_compute; reflexivity.
  - exists managedJobsTarget. split; vm_compute; reflexivity.
  - by apply elem_of_nil in Ht.
Qed.

Lemma settled_pass_writes_no_object_witness :
  secrets (Reconcile ("shared", "sync-db") settledWorld).2 = secrets settledWorld.
Proof.
  exact (proj1 (settled_pass_writes_no_object ("shared", "sync-db") settledWorld
                  demoIntent credentials "Opaque" _ eq_refl eq_refl eq_refl
                  demoIntent_has_finalizer settledWorld_source_resolved
                  settledWorld_up_to_date)).
Defined.

Lemma UpdateStatus_keyed obj w :
  storeKeyed w → storeKeyed (UpdateStatus obj w).2.
Proof.
  intros (Hs & Hc & Hk). rewrite UpdateStatus_run.
  destruct (faults w (length (calls w))); [done|].
  destruct (sharedResources w !! sharedResourceKey obj) as [old|] eqn:Hold; [|done].
  split_and!; try done. simpl. apply map_Forall_insert_2; [|done].
  exact (Hk _ _ Hold).
Qed.

(** Everything a pass without faults does, once its source is resolved. *)
Lemma fault_free_pass_run (req : NamespacedName) (w : World)
    (sr : SharedResource) (sourceData : Bundle) (sourceType : string) (w2 : World) :
  storeKeyed w → faultFree w →
  sharedResources w !! req = Some sr →
  sr_DeletionTimestamp sr = None →
  FinalizerName ∈ sr_Finalizers sr →
  fetchSourceResource sr (logCall (CallGetSharedResource req) w)
    = ((sourceData, sourceType, None), w2) →
  let r := Reconcile req w in
  r.1 = (emptyResult, None) ∧
  (∀ t, t ∈ Targets (sr_Spec sr) →
        targetUpToDate sr (targetKeyOf sr t)
          (filterData sourceData (SyncPolicy (sr_Spec sr))) r.2) ∧
  storeKeyed r.2 ∧ faultFree r.2 ∧
  (∀ k, k ∉ targetKeyOf sr <$> Targets (sr_Spec sr) →
        secrets r.2 !! k = secrets w !! k ∧ configMaps r.2 !! k = configMaps w !! k) ∧
  ∃ status c,
    sharedResources r.2
      = <[req := {| sr_Namespace := sr_Namespace sr; sr_Name := sr_Name sr;
                    sr_DeletionTimestamp := sr_DeletionTimestamp sr;
                    sr_Finalizers := sr_Finalizers sr; sr_Spec := sr_Spec sr;
                    sr_Status := status |}]> (sharedResources w) ∧
    c ∈ Conditions status ∧
    cond_Type c = ConditionTypeReady ∧ cond_Status c = ConditionTrue.
Proof.
  intros Hkeyed Hff Hsr Hdel Hfin Hfetch r. subst r.
  destruct (Reconcile_resolved_run req w sr sourceData sourceType w2
              (faultFree_now w Hff) Hsr Hdel Hfin Hfetch)
    as (-> & Hs & Hc & Hsrs & Hfl & (newF & HcallsF & HallF) & Hkind).
  set (data := filterData sourceData (SyncPolicy (sr_Spec sr))) in *.
  set (sr1 := setCondition _ sr _ _ _ _).
  assert (Hk2 : storeKeyed (tick (tick w2))) by by apply (storeKeyed_same w).
  assert (Hff2 : faultFree (tick (tick w2))) by by apply (faultFree_later w _ newF).
  destruct (targetOutcomes_up_to_date sr1 data sourceType (computeChecksum data)
              (Targets (sr_Spec sr)) (tick (tick w2)) Hk2) as (_ & Hup & Hnil).
  specialize (Hnil Hff2 Hkind).
  destruct (targetOutcomes_effect sr1 data sourceType (computeChecksum data)
              (Targets (sr_Spec sr)) (tick (tick w2)) Hk2)
    as (Hk3 & [HflT _] & HsrT & Hframe & _ & _ & newT & HcallsT & _).
  pose proof (targetOutcomes_length sr1 data sourceType (computeChecksum data)
                (Targets (sr_Spec sr)) (tick (tick w2))) as Hlen.
  set (o := targetOutcomes sr1 data sourceType (computeChecksum data)
              (Targets (sr_Spec sr)) (tick (tick w2))) in *.
  assert (Hall : allSucceeded o.1 = true) by by apply allSucceeded_Forall.
  rewrite Hall.
  set (obj := statusAfterSync sr1 _ _ true _ _).
  assert (Hkey : sharedResourceKey obj = req).
  { destruct Hkeyed as (_ & _ & Hk). exact (Hk _ _ Hsr). }
  assert (Hff3 : faultFree (tick (tick o.2))).
  { apply (faultFree_later (tick (tick w2)) _ newT); done. }
  assert (Hk4 : storeKeyed (UpdateStatus obj (tick (tick o.2))).2)
    by by apply UpdateStatus_keyed.
  destruct (UpdateStatus_frame obj (tick (tick o.2)))
    as (Hs3 & Hc3 & Hfl3 & _ & _ & Hcalls3 & _).
  assert (Hff4 : faultFree (UpdateStatus obj (tick (tick o.2))).2)
    by by apply (faultFree_later (tick (tick o.2)) _ [CallUpdateStatus obj]).
  cbn [fst snd]. split_and!; [| | done | done | |].
  - rewrite UpdateStatus_run, (faultFree_now _ Hff3), Hkey.
    change (sharedResources (tick (tick o.2))) with (sharedResources o.2).
    simpl in HsrT. by rewrite HsrT, Hsrs, Hsr.
  - intros t Ht. apply list_elem_of_lookup in Ht as [i Ht].
    destruct (lookup_lt_is_Some_2 o.1 i) as [e He].
    { rewrite Hlen. by eapply lookup_lt_Some. }
    pose proof (proj1 (Forall_lookup _ _) Hnil i e He) as ->.
    apply (targetUpToDate_same sr _ data o.2); [done|done|].
    exact (Hup i t Ht He).
  - intros k Hk. rewrite Hs3, Hc3. simpl.
    destruct (Hframe k Hk) as [-> ->]. simpl. by rewrite Hs, Hc.
  - destruct (setConditions_sets (clock o.2 (S (clockReads o.2)))
                (Conditions (sr_Status sr1)) ConditionTypeReady ConditionTrue
                "SyncSuccessful" "All targets synced successfully")
      as [(c & Hin & Hty & Hst & _) _].
    exists (sr_Status obj), c.
    rewrite UpdateStatus_run, (faultFree_now _ Hff3), Hkey.
    change (sharedResources (tick (tick o.2))) with (sharedResources o.2).
    simpl in HsrT. rewrite HsrT, Hsrs, Hsr. simpl. rewrite HsrT, Hsrs. done.
Qed.

(** X19. A pass without faults converges: once the source is resolved,
    every target sync succeeds, the status update is accepted and
    [Reconcile] returns an empty result and nil; at the end every declared
    target is up to date with the filtered source data and the stored
    Intent is Ready. *)
Theorem fault_free_pass_converges (req : NamespacedName) (w : World)
    (sr : SharedResource) (sourceData : Bundle) (sourceType : string) (w2 : World) :
  storeKeyed w → faultFree w →
  sharedResources w !! req = Some sr →
  sr_DeletionTimestamp sr = None →
  FinalizerName ∈ sr_Finalizers sr →
  fetchSourceResource sr (logCall (CallGetSharedResource req) w)
    = ((sourceData, sourceType, None), w2) →
  let r := Reconcile req w in
  r.1 = (emptyResult, None) ∧
  (∀ t, t ∈ Targets (sr_Spec sr) →
        targetUpToDate sr (targetKeyOf sr t)
          (filterData sourceData (SyncPolicy (sr_Spec sr))) r.2) ∧
  ∃ stored c,
    sharedResources r.2 !! req = Some stored ∧
    c ∈ Conditions (sr_Status stored) ∧
    cond_Type c = ConditionTypeReady ∧ cond_Status c = ConditionTrue.
Proof.
  intros Hkeyed Hff Hsr Hdel Hfin Hfetch r. subst r.
  destruct (fault_free_pass_run req w sr sourceData sourceType w2
              Hkeyed Hff Hsr Hdel Hfin Hfetch)
    as (Hnil & Hup & _ & _ & _ & status & c & Hstored & Hc).
  split_and!; [done|done|].
  eexists _, c. rewrite Hstored, lookup_insert_eq. split; [reflexivity|]. done.
Qed.

Lemma faultFree_demoWorld : faultFree demoWorld.
Proof. by intros n _. Qed.

Lemma fault_free_pass_converges_witness :
  (Reconcile ("shared", "sync-db") demoWorld).1 = (emptyResult, None).
Proof.
  exact (proj1 (fault_free_pass_converges ("shared", "sync-db") demoWorld
                  demoIntent credentials "Opaque" _ storeKeyed_demoWorld
                  faultFree_demoWorld eq_refl eq_refl
                  demoIntent_has_finalizer demoWorld_source_resolved)).
Defined.

Lemma fetchSourceResource_again sr sr' w w' sourceData sourceType w2 :
  fetchSourceResource sr w = ((sourceData, sourceType, None), w2) →
  sr_Namespace sr' = sr_Namespace sr → sr_Spec sr' = sr_Spec sr →
  faults w' (length (calls w')) = None →
  secrets w' !! (sr_Namespace sr, src_Name (Source (sr_Spec sr)))
    = secrets w !! (sr_Namespace sr, src_Name (Source (sr_Spec sr))) →
  configMaps w' !! (sr_Namespace sr, src_Name (Source (sr_Spec sr)))
    = configMaps w !! (sr_Namespace sr, src_Name (Source (sr_Spec sr))) →
  ∃ w2', fetchSourceResource sr' w' = ((sourceData, sourceType, None), w2').
Proof.
  intros Hfetch Hns Hspec Hf Hs Hc. unfold fetchSourceResource, mbind, M_bind in *.
  rewrite Hns, Hspec.
  case_decide as Hkind; [|case_decide as Hkind']; [| |done].
  - rewrite GetSecret_run in *. rewrite Hf, Hs.
    destruct (faults w (length (calls w))); [done|].
    destruct (secrets w !! _) as [s|]; [|done].
    injection Hfetch as <- <- _. by eexists.
  - rewrite GetConfigMap_run in *. rewrite Hf, Hc.
    destruct (faults w (length (calls w))); [done|].
    destruct (configMaps w !! _) as [c|]; [|done].
    injection Hfetch as <- <- _. by eexists.
Qed.

(** X20. A full pass is idempotent.  Take an Intent that is stored, is
    not being deleted and already carries the finalizer, whose source is
    read successfully at the start of the pass and is not one of its own
    declared targets, in a world where no call is failed.  After one pass,
    a second pass returns an empty result and nil again and writes no
    object: every Secret and ConfigMap stays as the first pass left it, and
    the second pass issues no create, update or delete of a Secret or
    ConfigMap. *)
Theorem second_pass_writes_no_object (req : NamespacedName) (w : World)
    (sr : SharedResource) (sourceData : Bundle) (sourceType : string) (w2 : World) :
  storeKeyed w → faultFree w →
  sharedResources w !! req = Some sr →
  sr_DeletionTimestamp sr = None →
  FinalizerName ∈ sr_Finalizers sr →
  fetchSourceResource sr (logCall (CallGetSharedResource req) w)
    = ((sourceData, sourceType, None), w2) →
  (sr_Namespace sr, src_Name (Source (sr_Spec sr)))
    ∉ targetKeyOf sr <$> Targets (sr_Spec sr) →
  let r1 := Reconcile req w in
  let r2 := Reconcile req r1.2 in
  r2.1 = (emptyResult, None) ∧
  secrets r2.2 = secrets r1.2 ∧ configMaps r2.2 = configMaps r1.2 ∧
  Forall (fun c => isObjectWrite c = false) (issuedBetween r1.2 r2.2).
Proof.
  intros Hkeyed Hff Hsr Hdel Hfin Hfetch Hsource r1 r2. subst r1 r2.
  destruct (fault_free_pass_run req w sr sourceData sourceType w2
              Hkeyed Hff Hsr Hdel Hfin Hfetch)
    as (_ & Hup1 & Hk1 & Hff1 & Hframe1 & status & _ & Hstored & _).
  set (w' := (Reconcile req w).2) in *.
  set (stored := {| sr_Namespace := sr_Namespace sr; sr_Name := sr_Name sr;
                    sr_DeletionTimestamp := sr_DeletionTimestamp sr;
                    sr_Finalizers := sr_Finalizers sr; sr_Spec := sr_Spec sr;
                    sr_Status := status |}) in *.
  assert (Hsr' : sharedResources w' !! req = Some stored)
    by (by rewrite Hstored, lookup_insert_eq).
  destruct (Hframe1 _ Hsource) as [Hs Hc].
  destruct (fetchSourceResource_again sr stored
              (logCall (CallGetSharedResource req) w)
              (logCall (CallGetSharedResource req) w')
              sourceData sourceType w2 Hfetch eq_refl eq_refl) as [w2' Hfetch'];
    [|done|done|].
  { apply (faultFree_now (logCall (CallGetSharedResource req) w')).
    by apply faultFree_logCall. }
  destruct (fault_free_pass_run req w' stored sourceData sourceType w2'
              Hk1 Hff1 Hsr' Hdel Hfin Hfetch') as (Hnil & _).
  destruct (settled_pass_run req w' stored sourceData sourceType w2'
              (faultFree_now w' Hff1) Hsr' Hdel Hfin Hfetch' Hup1)
    as (Hs2 & Hc2 & Hall & _).
  done.
Qed.

Lemma demoIntent_source_not_target :
  (sr_Namespace demoIntent, src_Name (Source (sr_Spec demoIntent)))
    ∉ targetKeyOf demoIntent <$> Targets (sr_Spec demoIntent).
Proof. by_computation. Qed.

Lemma second_pass_writes_no_object_witness :
  (Reconcile ("shared", "sync-db") (Reconcile ("shared", "sync-db") demoWorld).2).1
    = (emptyResult, None).
Proof.
  exact (proj1 (second_pass_writes_no_object ("shared", "sync-db") demoWorld
                  demoIntent credentials "Opaque" _ storeKeyed_demoWorld
                  faultFree_demoWorld eq_refl eq_refl demoIntent_has_finalizer
                  demoWorld_source_resolved demoIntent_source_not_target)).
Defined.

(** X21. The conversions between ConfigMap strings and bytes lose
    nothing: the byte data [fetchSourceResource] makes of a ConfigMap
    reads back as the same strings in [syncConfigMap], and string data made
    of bytes reads back as the same bytes for the checksum. *)
Theorem configMap_data_round_trip :
  (∀ data : gmap string string, toStringData (toByteData data) = data) ∧
  (∀ data : Bundle, toByteData (toStringData data) = data).
Proof. split; [apply toStringData_toByteData | apply toByteData_toStringData]. Qed.
